(** * Tab Mover Alternative: the background script, embedded and verified

    Source: [src/background/main.js].  The script is event driven: every
    handler runs to its next [await] and the host (the browser) answers
    later.  The embedding keeps that shape:

    - the data the host hands over (tabs, windows) are records;
    - the script's own state (the recency set, the menu session globals)
      is passed explicitly;
    - what a handler asks of the host's tabs and windows is a list of
      [HostCall]s in the order the calls are issued, and what the host
      answers is an argument of the handler's model;
    - the menu handlers act on a model of the host's menu, and a run of the
      session manager is a sequence of events, one per turn of a handler. *)

From Stdlib Require Import ZArith String Ascii Bool List Lia Permutation Sorted.
From Stdlib Require OrderedTypeEx.
From Stdlib Require DecimalString.
Import ListNotations.

Open Scope string_scope.
Open Scope list_scope.
Open Scope Z_scope.

(** ** Data handed over by the host *)

Module Tab.
(** [browser.tabs.Tab], restricted to the fields the script reads. *)
Record t : Type := mk {
  id : Z;
  windowId : Z;
  index : Z;
  active : bool;
  highlighted : bool;
  incognito : bool;
  cookieStoreId : string;
  url : string;
  title : string
}.

(** [activeTab.active = true] (line 179): the object is updated in place. *)
Definition set_active (b : bool) (x : t) : t :=
  mk (id x) (windowId x) (index x) b (highlighted x) (incognito x)
     (cookieStoreId x) (url x) (title x).
End Tab.

Module Window.
(** [browser.windows.Window] as returned with [populate: true]. *)
Record t : Type := mk {
  id : Z;
  type : string;
  incognito : bool;
  title : string;
  tabs : list Tab.t
}.
End Window.

(** The [settings] global, restricted to what the modelled functions read. *)
Record Settings : Type := mkSettings {
  switchToTabAfterMoving : bool;
  moveableContainers : list string
}.

(** [browser.windows.WINDOW_ID_NONE], as the host defines it. *)
Definition WINDOW_ID_NONE : Z := -1.

Definition ALLOWED_PROTOCOLS : list string := ["http:"; "https:"; "ftp:"].

(** ** JavaScript values and containers *)

(** [a[i]] on an array: [undefined] outside the bounds. *)
Definition js_index {A : Type} (a : list A) (i : Z) : option A :=
  if i <? 0 then None else nth_error a (Z.to_nat i).

(** [x !== id] where [x] may be [undefined] and [id] is a number. *)
Definition strict_neq (x : option Z) (id : Z) : bool :=
  match x with
  | Some y => negb (y =? id)
  | None => true
  end.

(** [x > 0] where [x] may be [undefined]: [undefined > 0] is [false]. *)
Definition gt0 (x : option Z) : bool :=
  match x with
  | Some y => 0 <? y
  | None => false
  end.

(** [x < 1] where [x] may be [null]: [null] converts to [0]. *)
Definition lt1 (x : option Z) : bool :=
  match x with
  | Some y => y <? 1
  | None => true
  end.

Definition includes (x : string) (l : list string) : bool :=
  existsb (String.eqb x) l.

(** A JavaScript [Set] of numbers: insertion ordered, no duplicates.  The
    list is the iteration order, which is what [[...set]] yields. *)
Module JSSet.
Definition t : Type := list Z.

Definition has (x : Z) (s : t) : bool := existsb (Z.eqb x) s.

Definition add (x : Z) (s : t) : t := if has x s then s else s ++ [x].

Definition delete (x : Z) (s : t) : t := filter (fun y => negb (y =? x)) s.

Definition size (s : t) : Z := Z.of_nat (length s).
End JSSet.

(** ** Window recency tracker (lines 431-499) *)

Module Tracker.

(** A call [updateIconBadge(key)]; the key is [undefined] when it was read
    from a position the set does not have. *)
Definition BadgeRefresh : Type := option Z.

(** [(await browser.windows.getAll()).forEach((w) => lastFocusedWindow.add(w.id))] *)
Definition seed (windows : list Window.t) : JSSet.t :=
  fold_left (fun s w => JSSet.add (Window.id w) s) windows [].

(** [if (lastFocusedWindow.size > 1) updateIconBadge([...lastFocusedWindow][1])] *)
Definition seed_refresh (s : JSSet.t) : list BadgeRefresh :=
  if 1 <? JSSet.size s then [js_index s 1] else [].

(** [onFocusChanged(id)].  [fetched] is the answer of
    [browser.windows.get(id)]: [None] when the promise rejects, in which
    case [.catch(console.error)] swallows the error.  The body of [.then]
    runs in one turn, so set and refresh list are returned together. *)
Definition onFocusChanged (id : Z) (fetched : option Window.t)
    (lastFocusedWindow : JSSet.t) : JSSet.t * list BadgeRefresh :=
  if id =? WINDOW_ID_NONE then (lastFocusedWindow, [])
  else
    match fetched with
    | None => (lastFocusedWindow, [])
    | Some window =>
        if negb (String.eqb (Window.type window) "normal") then (lastFocusedWindow, [])
        else if 0 <? id then
          let last := js_index lastFocusedWindow (JSSet.size lastFocusedWindow - 1) in
          if strict_neq last id
          then (JSSet.add id (JSSet.delete id lastFocusedWindow), [last])
          else (lastFocusedWindow, [])
        else (lastFocusedWindow, [])
    end.

(** [onRemoved(id)]: the refresh is issued first, on the set as it is. *)
Definition onRemoved (id : Z) (lastFocusedWindow : JSSet.t)
    : JSSet.t * list BadgeRefresh :=
  (JSSet.delete id lastFocusedWindow, [js_index lastFocusedWindow 0]).

(** A focus-changed event together with the host's answer to its
    [windows.get]. *)
Definition FocusEvent : Type := (Z * option Window.t)%type.

(** The handlers' [.then] bodies run one after the other, in the order the
    host answers. *)
Definition focus_run (events : list FocusEvent) (s : JSSet.t) : JSSet.t :=
  fold_left (fun s e => fst (onFocusChanged (fst e) (snd e) s)) events s.

End Tracker.

(** ** Calls on the host *)

(** The [updateProperties] argument of [browser.tabs.update]. *)
Record UpdateProperties : Type := mkUpdate {
  up_active : option bool;
  up_highlighted : option bool
}.

(** [{ active: true }] *)
Definition activate : UpdateProperties := mkUpdate (Some true) None.

(** [{ active: false, highlighted: true }] *)
Definition highlight_inactive : UpdateProperties := mkUpdate (Some false) (Some true).

Inductive HostCall : Type :=
| TabsQueryHighlighted (windowId : Z)
    (** [browser.tabs.query({ highlighted: true, windowId })] *)
| WindowsCreate (tabId : option Z)
    (** [browser.windows.create({ tabId })] *)
| TabsMove (tabIds : list Z) (windowId : option Z) (index : Z)
    (** [browser.tabs.move(tabIds, { windowId, index })] *)
| TabsUpdate (tabId : Z) (props : UpdateProperties)
    (** [browser.tabs.update(tabId, props)] *)
| TabsCreate (url : string) (windowId : Z) (active : bool)
    (** [browser.tabs.create({ url, windowId, active })] *)
| TabsRemove (tabIds : list Z).
    (** [browser.tabs.remove(tabIds)] *)

(** Calls that change the host's tabs or windows. *)
Definition mutating (c : HostCall) : bool :=
  match c with
  | TabsQueryHighlighted _ => false
  | _ => true
  end.

(** The tab ids a call names. *)
Definition names_tab (x : Z) (c : HostCall) : bool :=
  match c with
  | TabsQueryHighlighted _ => false
  | WindowsCreate (Some y) => x =? y
  | WindowsCreate None => false
  | TabsMove ids _ _ => existsb (Z.eqb x) ids
  | TabsUpdate y _ => x =? y
  | TabsCreate _ _ _ => false
  | TabsRemove ids => existsb (Z.eqb x) ids
  end.

(** How the promise of an [async] function settles. *)
Inductive Failure : Type :=
| TypeError   (** thrown by the script itself *)
| HostError.  (** an awaited host promise rejected *)

Inductive Outcome : Type :=
| Resolved
| Rejected (why : Failure).

(** ** Tab relocation engine (lines 79-196) *)

Module Relocation.

(** [tabs.pop()]: the last element, removed from the array. *)
Definition pop (tabs : list Z) : option Z * list Z :=
  (last (map Some tabs) None, removelast tabs).

(** [moveToWindow(targetWindowId, tabs)].  [newWindow] is the id of the
    window the host answers [windows.create] with, [None] when that
    promise rejects.  The calls are listed in the order they are issued;
    the second one of the new-window path is issued only once the first
    has resolved. *)
Definition moveToWindow (targetWindowId : option Z) (tabs : list Z)
    (newWindow : option Z) : list HostCall :=
  if lt1 targetWindowId then
    let (popped, rest) := pop tabs in
    match newWindow with
    | Some w => [WindowsCreate popped; TabsMove rest (Some w) (-1)]
    | None => [WindowsCreate popped]
    end
  else [TabsMove tabs targetWindowId (-1)].

(** The selection the two operations start from: the highlighted tabs of
    the tab's window as the host reports them, or the tab alone.
    [queried] is the answer to [tabs.query], [None] when it rejects. *)
Definition selection (tab : Tab.t) (queried : option (list Tab.t))
    : option (list Tab.t) :=
  if Tab.highlighted tab then queried else Some [tab].

Definition selection_calls (tab : Tab.t) : list HostCall :=
  if Tab.highlighted tab then [TabsQueryHighlighted (Tab.windowId tab)] else [].

(** The object built by [selectedTabs.reduce]: own properties in insertion
    order.  Container ids are never array-index strings, so [Object.keys]
    lists them in that order. *)
Definition Buckets : Type := list (string * list Z).

(** [if (!(k in o)) o[k] = []; o[k].push(v)] *)
Fixpoint bucket_push (k : string) (v : Z) (o : Buckets) : Buckets :=
  match o with
  | [] => [(k, [v])]
  | (k', vs) :: o' =>
      if String.eqb k k' then (k', vs ++ [v]) :: o'
      else (k', vs) :: bucket_push k v o'
  end.

Definition group (selectedTabs : list Tab.t) : Buckets :=
  fold_left (fun o tab => bucket_push (Tab.cookieStoreId tab) (Tab.id tab) o)
            selectedTabs [].

Definition keys (o : Buckets) : list string := map fst o.

(** [delete o[k]] *)
Definition bucket_delete (k : string) (o : Buckets) : Buckets :=
  filter (fun kv => negb (String.eqb (fst kv) k)) o.

(** [o[k]]; every key the loop visits has a bucket. *)
Fixpoint bucket_get (k : string) (o : Buckets) : list Z :=
  match o with
  | [] => []
  | (k', vs) :: o' => if String.eqb k k' then vs else bucket_get k o'
  end.

(** [a.indexOf(x)]: [-1] when absent. *)
Fixpoint indexOf (x : string) (a : list string) : Z :=
  match a with
  | [] => -1
  | y :: a' =>
      if String.eqb x y then 0
      else let i := indexOf x a' in if i =? -1 then -1 else i + 1
  end.

(** [a.splice(i, 1)] for [i >= 0]. *)
Fixpoint splice1 (i : nat) (a : list string) : list string :=
  match a, i with
  | [], _ => []
  | _ :: a', O => a'
  | y :: a', S j => y :: splice1 j a'
  end.

(** Lines 128-136: the buckets and the order they are processed in. *)
Definition plan (selectedTabs : list Tab.t) : Buckets * list string :=
  let filteredTabs := group selectedTabs in
  let cookieIDs := keys filteredTabs in
  let defaultTabIdx := indexOf "firefox-default" cookieIDs in
  if (1 <? Z.of_nat (length cookieIDs)) && negb (defaultTabIdx =? -1) then
    (bucket_delete "firefox-default" filteredTabs,
     splice1 (Z.to_nat defaultTabIdx) cookieIDs)
  else (filteredTabs, cookieIDs).

(** A number in a condition: [0] is falsy. *)
Definition truthy (n : Z) : bool := negb (n =? 0).

(** What one call of [moveTabs] does. *)
Record MoveTabsRun : Type := mkMoveRun {
  (** the [tabs.query] of the selection, when there is one *)
  asked : list HostCall;
  (** per bucket, in processing order, the calls of its [moveToWindow];
      these invocations are not awaited: the first call of each is issued
      inside the loop, the second when the host has answered the first *)
  moves : list (list HostCall);
  (** lines 145-157, issued after the loop *)
  switching : list HostCall;
  outcome : Outcome
}.

Definition issued (r : MoveTabsRun) : list HostCall :=
  asked r ++ concat (moves r) ++ switching r.

(** [moveTabs(tab, targetWindowId, switchToActiveTab)].  Host answers:
    [queried] to the selection query, [newWindow k] to the
    [windows.create] issued for bucket [k], [activated] tells whether the
    awaited [tabs.update(activeTab.id, { active: true })] resolved. *)
Definition moveTabs (settings : Settings) (tab : Tab.t)
    (targetWindowId : option Z) (switchToActiveTab : bool)
    (queried : option (list Tab.t)) (newWindow : string -> option Z)
    (activated : bool) : MoveTabsRun :=
  match selection tab queried with
  | None => mkMoveRun (selection_calls tab) [] [] (Rejected HostError)
  | Some selectedTabs =>
      let activeTab := find Tab.active selectedTabs in
      let (filteredTabs, cookieIDs) := plan selectedTabs in
      let moved :=
        map (fun cookieId =>
               moveToWindow
                 (if includes cookieId (moveableContainers settings)
                  then Some 0 else targetWindowId)
                 (bucket_get cookieId filteredTabs)
                 (newWindow cookieId))
            cookieIDs in
      if switchToActiveTab
         || (switchToTabAfterMoving settings
             && match activeTab with
                | Some a => truthy (Tab.id a)
                | None => false
                end)
      then
        match activeTab with
        | None =>
            (* [activeTab.id] on [undefined] *)
            mkMoveRun (selection_calls tab) moved [] (Rejected TypeError)
        | Some a =>
            let first := TabsUpdate (Tab.id a) activate in
            if activated then
              mkMoveRun (selection_calls tab) moved
                (first ::
                 map (fun t => TabsUpdate (Tab.id t) highlight_inactive)
                     (filter (fun t => negb (Tab.id t =? Tab.id a)) selectedTabs))
                Resolved
            else mkMoveRun (selection_calls tab) moved [first] (Rejected HostError)
        end
      else mkMoveRun (selection_calls tab) moved [] Resolved
  end.

End Relocation.

Module Reopen.
Section WithURL.

(** [new URL(url).protocol]: the scheme with its colon, or [None] when the
    [URL] constructor throws. *)
Variable protocol : string -> option string.

(** [ALLOWED_PROTOCOLS.has(new URL(selectedTab.url).protocol)] *)
Definition allowed (selectedTab : Tab.t) : option bool :=
  match protocol (Tab.url selectedTab) with
  | Some p => Some (includes p ALLOWED_PROTOCOLS)
  | None => None
  end.

(** [selectedTabs.filter(...)]; the callback's exception ends the filter. *)
Fixpoint filter_allowed (selectedTabs : list Tab.t) : option (list Tab.t) :=
  match selectedTabs with
  | [] => Some []
  | t :: rest =>
      match allowed t with
      | None => None
      | Some keep =>
          match filter_allowed rest with
          | None => None
          | Some rest' => Some (if keep then t :: rest' else rest')
          end
      end
  end.

(** Lines 174-180: without an active tab among the survivors the first of
    them is marked active, in the array the later steps read. *)
Definition designate_active (selectedTabs : list Tab.t) : list Tab.t :=
  match find Tab.active selectedTabs with
  | Some _ => selectedTabs
  | None =>
      match selectedTabs with
      | [] => []
      | first :: rest => Tab.set_active true first :: rest
      end
  end.

(** [Promise.all] over the host's answers: the array of values, or a
    rejection as soon as one answer is a rejection. *)
Fixpoint all_resolved {A : Type} (answers : list (option A)) : option (list A) :=
  match answers with
  | [] => Some []
  | None :: _ => None
  | Some x :: rest =>
      match all_resolved rest with
      | Some xs => Some (x :: xs)
      | None => None
      end
  end.

Definition create_call (targetWindowId : Z) (selectedTab : Tab.t) : HostCall :=
  TabsCreate (Tab.url selectedTab) targetWindowId (Tab.active selectedTab).

(** [reopenTabs(tab, targetWindowId)].  Host answers: [queried] to the
    selection query, [created i] to the [i]-th [tabs.create] ([None] when
    it rejects).  The result is the calls issued, in order, and how the
    promise settles. *)
Definition reopenTabs (tab : Tab.t) (targetWindowId : Z)
    (queried : option (list Tab.t)) (created : nat -> option Tab.t)
    : list HostCall * Outcome :=
  match Relocation.selection tab queried with
  | None => (Relocation.selection_calls tab, Rejected HostError)
  | Some highlightedTabs =>
      match filter_allowed highlightedTabs with
      | None => (Relocation.selection_calls tab, Rejected TypeError)
      | Some [] => (Relocation.selection_calls tab, Resolved)
      | Some filtered =>
          let selectedTabs := designate_active filtered in
          let creating := map (create_call targetWindowId) selectedTabs in
          let answers := map created (seq 0 (length selectedTabs)) in
          match all_resolved answers with
          | None => (Relocation.selection_calls tab ++ creating, Rejected HostError)
          | Some newTabs =>
              (Relocation.selection_calls tab
               ++ creating
               ++ map (fun t => TabsUpdate (Tab.id t) highlight_inactive)
                      (filter (fun t => negb (Tab.active t)) newTabs)
               ++ [TabsRemove (map Tab.id selectedTabs)],
               Resolved)
          end
      end
  end.

End WithURL.
End Reopen.

(** ** Click and command dispatch (lines 440-475, 508-519) *)

Module Dispatch.

(** A call [moveTabs(tab, targetWindowId, switchToActiveTab)]; the target
    is [None] for [null]. *)
Record Invocation : Type := mkInvocation {
  inv_tab : Tab.t;
  inv_target : option Z;
  inv_switch : bool
}.

(** [browser.contextMenus.OnClickData], the fields [onClicked] reads. *)
Record OnClickData : Type := mkClick {
  button : Z;
  modifiers : list string
}.

(** [[...lastFocusedWindow].reverse()[1]] *)
Definition lastActiveWindow (lastFocusedWindow : JSSet.t) : option Z :=
  js_index (rev lastFocusedWindow) 1.

(** The third argument of the call on lines 463-471. *)
Definition forced (info : OnClickData) : bool :=
  if (0 <? Z.of_nat (length (modifiers info))) && includes "Shift" (modifiers info)
  then true
  else if button info =? 1 then true else false.

(** The [for] loop of [onClicked], lines 454-473. *)
Fixpoint click_loop (tab : Tab.t) (info : OnClickData) (last : option Z)
    (targetWindows : list Window.t) (lastFocusedWindow : JSSet.t)
    : JSSet.t * option Invocation :=
  match targetWindows with
  | [] => (lastFocusedWindow, None)
  | targetWindow :: rest =>
      if Window.id targetWindow =? Tab.windowId tab then
        click_loop tab info last rest
          (if Z.of_nat (length (Window.tabs targetWindow)) =? 1
           then JSSet.delete (Window.id targetWindow) lastFocusedWindow
           else lastFocusedWindow)
      else
        (lastFocusedWindow,
         Some (mkInvocation tab
                 (if gt0 last then last else Some (Window.id targetWindow))
                 (forced info)))
  end.

(** [onClicked(tab, info)]; [targetWindows] is the host's answer to
    [windows.getAll({ populate: true, windowTypes: ["normal"] })]. *)
Definition onClicked (tab : Tab.t) (info : OnClickData)
    (targetWindows : list Window.t) (lastFocusedWindow : JSSet.t)
    : JSSet.t * option Invocation :=
  let last := lastActiveWindow lastFocusedWindow in
  if Z.of_nat (length targetWindows) =? 1
  then (lastFocusedWindow, Some (mkInvocation tab None false))
  else click_loop tab info last targetWindows lastFocusedWindow.

(** The ["move-tabs"] case of the command listener; [tab] is the host's
    answer to [getCurrentTab()]. *)
Definition onCommand_moveTabs (tab : list Tab.t) (lastFocusedWindow : JSSet.t)
    : option Invocation :=
  let last := lastActiveWindow lastFocusedWindow in
  if (0 <? Z.of_nat (length tab)) && gt0 last then
    match tab with
    | tab0 :: _ => Some (mkInvocation tab0 last false)
    | [] => None
    end
  else None.

End Dispatch.

(** ** Sorting the highlighted tabs (lines 367-386) *)

Module Sorting.
Section WithLowerCase.

(** [String.prototype.toLowerCase] *)
Variable toLowerCase : string -> string.

(** The comparator passed to [sort]; strings compare by code unit. *)
Definition compareTitles (a b : Tab.t) : Z :=
  let aTitle := toLowerCase (Tab.title a) in
  let bTitle := toLowerCase (Tab.title b) in
  if String.ltb aTitle bTitle then -1
  else if String.ltb bTitle aTitle then 1
  else 0.

(** [Array.prototype.sort] is stable: an element goes in front of the
    first one it does not compare greater than. *)
Fixpoint insert (x : Tab.t) (sorted : list Tab.t) : list Tab.t :=
  match sorted with
  | [] => [x]
  | y :: rest =>
      if compareTitles x y <=? 0 then x :: y :: rest
      else y :: insert x rest
  end.

Fixpoint sort (a : list Tab.t) : list Tab.t :=
  match a with
  | [] => []
  | x :: rest => insert x (sort rest)
  end.

(** [sortSelectedTabs()]; [selectedTabs] is the host's answer to the query
    for the highlighted tabs of the current window. *)
Definition sortSelectedTabs (selectedTabs : list Tab.t) : list HostCall :=
  if 2 <? Z.of_nat (length selectedTabs) then
    let sorted := sort selectedTabs in
    match sorted with
    | first :: _ => [TabsMove (map Tab.id sorted) None (Tab.index first)]
    | [] => []
    end
  else [].

End WithLowerCase.
End Sorting.

(** ** Context menu session manager (lines 18-20, 63-73, 198-254, 306-324) *)

Module Menus.

(** A menu item id: chosen by the script (a string) or issued by the host
    (a number) when [menus.create] is given none. *)
Inductive MenuId : Type :=
| Named (name : string)
| Issued (n : Z).

Definition menuid_eqb (a b : MenuId) : bool :=
  match a, b with
  | Named x, Named y => String.eqb x y
  | Issued x, Issued y => x =? y
  | _, _ => false
  end.

(** The two [onclick] closures of [onMenuShown], by what they call and the
    window id they have captured. *)
Inductive Handler : Type :=
| MoveTabsTo (windowId : Z)     (** [(info, tab) => moveTabs(tab, targetWindow.id)] *)
| ReopenTabsIn (windowId : Z).  (** [(info, tab) => reopenTabs(tab, targetWindow.id)] *)

(** The argument of [createMenuItem]. *)
Record CreateProperties : Type := mkCreate {
  cp_id : option string;
  cp_parentId : option string;
  cp_title : string;
  cp_enabled : option bool;
  cp_onclick : option Handler
}.

(** *** The host's menu

    A reference model of [browser.menus], as far as the script uses it:
    [create] hands out the id at once and registers the item unless it
    names a parent that is not registered, in which case the callback sees
    [runtime.lastError] and [createMenuItem] rejects; [update] and
    [remove] act on the item with the given id, if any. *)

Record Item : Type := mkItem {
  item_id : MenuId;
  item_parentId : option string;
  item_title : string;
  item_enabled : bool;
  item_onclick : option Handler
}.

Record Host : Type := mkHost {
  items : list Item;
  counter : Z;       (** the last id issued *)
  refreshes : nat    (** calls of [menus.refresh()] so far *)
}.

Definition registered (name : string) (h : Host) : bool :=
  existsb (fun i => menuid_eqb (item_id i) (Named name)) (items h).

Definition accepts (h : Host) (p : CreateProperties) : bool :=
  match cp_parentId p with
  | None => true
  | Some parent => registered parent h
  end.

Definition item_of (id : MenuId) (p : CreateProperties) : Item :=
  mkItem id (cp_parentId p) (cp_title p)
         (match cp_enabled p with Some b => b | None => true end)
         (cp_onclick p).

(** [createMenuItem(p)]: the id, whether the promise resolves, and the
    host afterwards. *)
Definition host_create (p : CreateProperties) (h : Host)
    : (MenuId * bool) * Host :=
  let id := match cp_id p with
            | Some name => Named name
            | None => Issued (counter h + 1)
            end in
  let c := match cp_id p with
           | Some _ => counter h
           | None => counter h + 1
           end in
  if accepts h p
  then ((id, true), mkHost (items h ++ [item_of id p]) c (refreshes h))
  else ((id, false), mkHost (items h) c (refreshes h)).

(** [browser.menus.update(name, { enabled })] *)
Definition host_update (name : string) (enabled : bool) (h : Host) : Host :=
  mkHost (map (fun i => if menuid_eqb (item_id i) (Named name)
                        then mkItem (item_id i) (item_parentId i) (item_title i)
                                    enabled (item_onclick i)
                        else i)
              (items h))
         (counter h) (refreshes h).

(** [browser.menus.remove(id)] *)
Definition host_remove (id : MenuId) (h : Host) : Host :=
  mkHost (filter (fun i => negb (menuid_eqb (item_id i) id)) (items h))
         (counter h) (refreshes h).

Definition host_refresh (h : Host) : Host :=
  mkHost (items h) (counter h) (S (refreshes h)).

(** The entries below a parent: what the submenus show. *)
Definition submenu_entries (h : Host) : list Item :=
  filter (fun i => match item_parentId i with Some _ => true | None => false end)
         (items h).

(** *** The script *)

(** Module-level variables, lines 18-20. *)
Record Globals : Type := mkGlobals {
  windowMenuIds : list MenuId;
  lastMenuInstanceId : Z;
  nextMenuInstanceId : Z
}.

Definition initial : Globals := mkGlobals [] 0 1.

(** The startup block, lines 306-324: one [createMenuItem], for
    ["move-menu"]; the one for ["reopen-menu"] is commented out.
    [extensionName] is [browser.i18n.getMessage("extensionName")]. *)
Definition startup_requests (extensionName : string) : list CreateProperties :=
  [mkCreate (Some "move-menu") None extensionName (Some false) None].

Definition startup (extensionName : string) (h : Host) : Host :=
  fold_left (fun h p => snd (host_create p h)) (startup_requests extensionName) h.

(** The loop of [onMenuShown], lines 208-228: the arguments of the
    [createMenuItem] calls in order, and the two counters. *)
Fixpoint shown_loop (tab : Tab.t) (targetWindows : list Window.t)
    (creating : list CreateProperties) (moveMenuItems reopenMenuItems : Z)
    : list CreateProperties * Z * Z :=
  match targetWindows with
  | [] => (creating, moveMenuItems, reopenMenuItems)
  | targetWindow :: rest =>
      if Window.id targetWindow =? Tab.windowId tab then
        shown_loop tab rest creating moveMenuItems reopenMenuItems
      else if Bool.eqb (Tab.incognito tab) (Window.incognito targetWindow) then
        shown_loop tab rest
          (creating ++ [mkCreate None (Some "move-menu") (Window.title targetWindow)
                                 None (Some (MoveTabsTo (Window.id targetWindow)))])
          (moveMenuItems + 1) reopenMenuItems
      else
        shown_loop tab rest
          (creating ++ [mkCreate None (Some "reopen-menu") (Window.title targetWindow)
                                 None (Some (ReopenTabsIn (Window.id targetWindow)))])
          moveMenuItems (reopenMenuItems + 1)
  end.

(** The host serving a list of [createMenuItem] calls in order. *)
Fixpoint create_all (ps : list CreateProperties) (h : Host)
    : list (MenuId * bool) * Host :=
  match ps with
  | [] => ([], h)
  | p :: rest =>
      let (r, h1) := host_create p h in
      let (rs, h2) := create_all rest h1 in
      (r :: rs, h2)
  end.

(** Lines 205-232: everything [onMenuShown] issues between the answer to
    [windows.getAll] and the [await] of line 233.  The result pairs each
    creation's id with how its promise settles. *)
Definition shown_build (tab : Tab.t) (targetWindows : list Window.t) (h : Host)
    : list (MenuId * bool) * Host :=
  let '(creating, moveMenuItems, reopenMenuItems) :=
    shown_loop tab targetWindows [] 0 0 in
  let (creatingMenus, h1) := create_all creating h in
  (creatingMenus,
   host_update "reopen-menu" (0 <? reopenMenuItems)
     (host_update "move-menu" (0 <? moveMenuItems) h1)).

(** [await Promise.all(creatingMenus)]: the ids, unless one rejected. *)
Definition settled_ids (creatingMenus : list (MenuId * bool)) : option (list MenuId) :=
  if forallb snd creatingMenus then Some (map fst creatingMenus) else None.

(** An [onMenuShown] that is waiting for the host. *)
Inductive Suspended : Type :=
| AwaitingWindows (menuInstanceId : Z) (tab : Tab.t)
    (** at line 201 *)
| AwaitingMenus (menuInstanceId : Z) (creatingMenus : list (MenuId * bool)).
    (** at line 233 *)

Record State : Type := mkState {
  globals : Globals;
  host : Host;
  suspended : list Suspended
}.

(** What happens next is up to the host. *)
Inductive Event : Type :=
| MenuShown (tab : Tab.t)
    (** [menus.onShown] fires *)
| WindowsAnswered (menuInstanceId : Z) (targetWindows : list Window.t)
    (** the [windows.getAll] of that [onMenuShown] resolves *)
| MenusSettled (menuInstanceId : Z)
    (** the [Promise.all] of that [onMenuShown] settles *)
| MenuHidden.
    (** [menus.onHidden] fires *)

Fixpoint take_windows (m : Z) (l : list Suspended)
    : option (Tab.t * list Suspended) :=
  match l with
  | [] => None
  | AwaitingWindows m' tab :: rest =>
      if m' =? m then Some (tab, rest)
      else match take_windows m rest with
           | Some (t, rest') => Some (t, AwaitingWindows m' tab :: rest')
           | None => None
           end
  | s :: rest =>
      match take_windows m rest with
      | Some (t, rest') => Some (t, s :: rest')
      | None => None
      end
  end.

Fixpoint take_menus (m : Z) (l : list Suspended)
    : option (list (MenuId * bool) * list Suspended) :=
  match l with
  | [] => None
  | AwaitingMenus m' creatingMenus :: rest =>
      if m' =? m then Some (creatingMenus, rest)
      else match take_menus m rest with
           | Some (c, rest') => Some (c, AwaitingMenus m' creatingMenus :: rest')
           | None => None
           end
  | s :: rest =>
      match take_menus m rest with
      | Some (c, rest') => Some (c, s :: rest')
      | None => None
      end
  end.

Definition remove_all (ids : list MenuId) (h : Host) : Host :=
  fold_left (fun h id => host_remove id h) ids h.

(** Lines 233-244, for the invocation whose [menuInstanceId] is [m].  The
    two [await]s of lines 233 and 234 wait for the same promises and nothing
    is read or written between them, so they are one step here. *)
Definition shown_finish (m : Z) (creatingMenus : list (MenuId * bool))
    (g : Globals) (h : Host) : Globals * Host :=
  match settled_ids creatingMenus with
  | None => (g, h)   (* the [await] throws: nothing below it runs *)
  | Some newWindowMenuIds =>
      if negb (m =? lastMenuInstanceId g)
      then (g, remove_all newWindowMenuIds h)
      else (mkGlobals newWindowMenuIds (lastMenuInstanceId g) (nextMenuInstanceId g),
            host_refresh h)
  end.

(** [onMenuHidden()] *)
Definition onMenuHidden (g : Globals) (h : Host) : Globals * Host :=
  (mkGlobals (windowMenuIds g) 0 (nextMenuInstanceId g),
   remove_all (windowMenuIds g)
     (host_update "reopen-menu" false (host_update "move-menu" false h))).

Definition step (st : State) (e : Event) : State :=
  match e with
  | MenuShown tab =>
      let menuInstanceId := nextMenuInstanceId (globals st) in
      mkState (mkGlobals (windowMenuIds (globals st)) menuInstanceId (menuInstanceId + 1))
              (host st)
              (suspended st ++ [AwaitingWindows menuInstanceId tab])
  | WindowsAnswered m targetWindows =>
      match take_windows m (suspended st) with
      | None => st
      | Some (tab, rest) =>
          let (creatingMenus, h) := shown_build tab targetWindows (host st) in
          mkState (globals st) h (rest ++ [AwaitingMenus m creatingMenus])
      end
  | MenusSettled m =>
      match take_menus m (suspended st) with
      | None => st
      | Some (creatingMenus, rest) =>
          let (g, h) := shown_finish m creatingMenus (globals st) (host st) in
          mkState g h rest
      end
  | MenuHidden =>
      let (g, h) := onMenuHidden (globals st) (host st) in
      mkState g h (suspended st)
  end.

Definition run (events : list Event) (st : State) : State :=
  fold_left step events st.

End Menus.


(** ** Tab navigation helpers (lines 28-61) *)

Module Navigation.

(** [tabs.findIndex(p)]: [-1] when no element satisfies [p]. *)
Fixpoint findIndex (p : Tab.t -> bool) (tabs : list Tab.t) : Z :=
  match tabs with
  | [] => -1
  | t :: rest =>
      if p t then 0
      else let i := findIndex p rest in if i =? -1 then -1 else i + 1
  end.

(** [moveTabToEnd()]; [tabs] is the host's answer to [getCurrentTab()]. *)
Definition moveTabToEnd (tabs : list Tab.t) : list HostCall :=
  match tabs with
  | [] => []
  | currentTab :: _ => [TabsMove [Tab.id currentTab] None (-1)]
  end.

(** [navigateToTab(direction)] with [settings.tabTravelDistance]; [tabs] is
    the host's answer to the query for the visible tabs of the current
    window.  Reading [.id] of a missing element throws inside the [then]. *)
Definition navigateToTab (tabTravelDistance direction : Z) (tabs : list Tab.t)
    : list HostCall * Outcome :=
  if tabTravelDistance <? 2 then ([], Resolved)
  else
    let currentTabIdx := findIndex Tab.active tabs in
    let targetIdx := currentTabIdx + direction * tabTravelDistance in
    let normalizeTargetIdx :=
      Z.max 0 (Z.min targetIdx (Z.of_nat (length tabs) - 1)) in
    match js_index tabs normalizeTargetIdx with
    | Some t => ([TabsUpdate (Tab.id t) activate], Resolved)
    | None => ([], Rejected TypeError)
    end.

End Navigation.

(** ** Going back to a recent tab (lines 326-348) *)

Module Recent.

(** A tab with the [lastAccessed] field [openLastRecentTab] reads. *)
Record Accessed : Type := mkAccessed {
  tab : Tab.t;
  lastAccessed : Z
}.

(** [Array.prototype.sort(cmp)], stable: an element goes in front of the
    first one it does not compare greater than. *)
Fixpoint insert {A : Type} (cmp : A -> A -> Z) (x : A) (sorted : list A) : list A :=
  match sorted with
  | [] => [x]
  | y :: rest =>
      if cmp x y <=? 0 then x :: y :: rest
      else y :: insert cmp x rest
  end.

Fixpoint sort {A : Type} (cmp : A -> A -> Z) (a : list A) : list A :=
  match a with
  | [] => []
  | x :: rest => insert cmp x (sort cmp rest)
  end.

(** [(a, b) => { return b.id - a.id; }] *)
Definition byIdDescending (a b : Accessed) : Z :=
  Tab.id (tab b) - Tab.id (tab a).

(** The filter of lines 340-342. *)
Definition recent (recentTabTimeout now : Z) (t : Accessed) : bool :=
  negb (Tab.active (tab t))
  && (now - recentTabTimeout * 1000 - lastAccessed t <? 0).

(** [openLastRecentTab()] with [settings.recentTabTimeout]; [now] is
    [new Date().getTime()] and [tabs] the host's answer to the query for the
    visible tabs of the current window. *)
Definition openLastRecentTab (recentTabTimeout now : Z) (tabs : list Accessed)
    : list HostCall :=
  if recentTabTimeout <? 1 then []
  else
    let sorted := filter (recent recentTabTimeout now) (sort byIdDescending tabs) in
    match sorted with
    | first :: _ => [TabsUpdate (Tab.id (tab first)) activate]
    | [] => []
    end.

End Recent.

(** ** Switching to the previously active tab (lines 388-429) *)

Module LastActive.

(** [browser.tabs._OnActivatedActiveInfo] *)
Record ActiveInfo : Type := mkInfo {
  tabId : Z;
  previousTabId : option Z;
  windowId : Z
}.

(** The [Map] [prevFocusedTabs]; the script only uses [set], [has] and
    [get], so the map is its lookup function. *)
Definition PrevFocusedTabs : Type := Z -> option ActiveInfo.

Definition empty : PrevFocusedTabs := fun _ => None.

(** The [tabs.onActivated] listener. *)
Definition onActivated (info : ActiveInfo) (prevFocusedTabs : PrevFocusedTabs)
    : PrevFocusedTabs :=
  match previousTabId info with
  | None => prevFocusedTabs
  | Some _ =>
      fun w => if w =? windowId info then Some info else prevFocusedTabs w
  end.

(** [tab.id === info.previousTabId] *)
Definition is_previous (info : ActiveInfo) (tab : Tab.t) : bool :=
  match previousTabId info with
  | Some p => Tab.id tab =? p
  | None => false
  end.

(** [switchToPrevTabInWindow(info)]; [tabs] is the host's answer to the
    query for the tabs of [info.windowId]. *)
Definition switchToPrevTabInWindow (info : ActiveInfo) (tabs : list Tab.t)
    : list HostCall :=
  match filter (is_previous info) tabs with
  | [prevActiveTab] => [TabsUpdate (Tab.id prevActiveTab) activate]
  | _ => []
  end.

(** The ["last-active-tab"] command; [currentWindowId] is the id of the
    window [getCurrentWindow()] answers with, [tabs] the answer to the query
    [switchToPrevTabInWindow] makes. *)
Definition onCommand_lastActiveTab (currentWindowId : Z) (tabs : list Tab.t)
    (prevFocusedTabs : PrevFocusedTabs) : list HostCall :=
  match prevFocusedTabs currentWindowId with
  | Some info => switchToPrevTabInWindow info tabs
  | None => []
  end.

(** The listener over a sequence of activation events. *)
Definition record (events : list ActiveInfo) (prevFocusedTabs : PrevFocusedTabs)
    : PrevFocusedTabs :=
  fold_left (fun m info => onActivated info m) events prevFocusedTabs.

End LastActive.

(** ** Badge, icon and tooltip (lines 14-15, 256-304) *)

Module Badge.

Definition BADGE_COLOR_DEFAULT : string := "royalblue".
Definition BADGE_COLOR_LAST_FOCUS : string := "red".

(** The calls on [browser.browserAction] that [updateIconBadge] makes. *)
Inductive BadgeCall : Type :=
| SetBadgeText (text : string)
| SetTitle (title : string)
| SetBadgeBackgroundColor (windowId : Z) (color : string)
| SetIcon (windowId : Z) (path : string).

(** [String(id)] for an integer or [undefined]. *)
Definition js_String (id : option Z) : string :=
  match id with
  | Some z => DecimalString.NilZero.string_of_int (Z.to_int z)
  | None => "undefined"
  end.

(** [y.id === id] *)
Definition is_target (id : option Z) (y : Window.t) : bool :=
  match id with
  | Some z => Window.id y =? z
  | None => false
  end.

Definition newline : string := String (ascii_of_nat 10) EmptyString.

Section WithReplace.

(** [title.replace(" — Firefox Nightly", "")]: the title without the first
    occurrence of that suffix text. *)
Variable stripBrand : string -> string.

(** A JS string is a sequence of UTF-16 code units, and [length] and
    [slice] count in them: [units] gives the code units of a text,
    [of_units] the text of a sequence of code units. *)
Variable units : string -> list Z.
Variable of_units : list Z -> string.

(** Lines 293-302: the tooltip for the window that is the target.
    [stripped] is [y.title] after line 295, [title] is
    [y.title.slice(0, 20)]. *)
Definition tooltip (id : option Z) (y : Window.t) : string :=
  let stripped := units (stripBrand (Window.title y)) in
  let title := firstn 20 stripped in
  let ellipsis :=
    if Nat.eqb (length stripped) (length title) then "" else "..." in
  "Move to window:" ++ newline ++ js_String id ++ " : " ++ of_units title ++ ellipsis.

(** The body of [windows.forEach], lines 277-303. *)
Definition per_window (showLastWindowIDBadge : bool) (id : option Z) (y : Window.t)
    : list BadgeCall :=
  (if showLastWindowIDBadge
   then [SetBadgeBackgroundColor (Window.id y)
           (if is_target id y then BADGE_COLOR_LAST_FOCUS else BADGE_COLOR_DEFAULT)]
   else [])
  ++ [SetIcon (Window.id y)
        ("src/icons/web-browser-" ++ (if is_target id y then "non-" else "")
         ++ "active.svg")]
  ++ (if is_target id y then [SetTitle (tooltip id y)] else []).

(** [updateIconBadge(id)] with [settings.showLastWindowIDBadge]; [windows]
    is the host's answer to [windows.getAll()].  [undefined < 0] is false,
    so an [undefined] key goes on. *)
Definition updateIconBadge (showLastWindowIDBadge : bool) (id : option Z)
    (windows : list Window.t) : list BadgeCall :=
  if match id with Some z => z <? 0 | None => false end then []
  else
    (if showLastWindowIDBadge
     then [SetBadgeText (if 1 <? Z.of_nat (length windows) then js_String id else "+")]
     else [])
    ++ (if Z.of_nat (length windows) =? 1 then [SetTitle ""] else [])
    ++ flat_map (per_window showLastWindowIDBadge id) windows.

End WithReplace.

End Badge.


(** * Vocabulary of the properties *)

(** ** The recency set *)

(** The entry read by [[...s][s.size - 1]]. *)
Definition most_recent (s : JSSet.t) : option Z := last (map Some s) None.

(** [a] comes before [b] in the iteration order. *)
Definition before (a b : Z) (s : JSSet.t) : Prop :=
  exists l1 l2 l3, s = l1 ++ a :: l2 ++ b :: l3.

(** The step of the tracker in the words of its contract: nothing for the
    sentinel, for a window that is not normal (or cannot be fetched) and for
    the entry that is already the most recent; otherwise the entry goes to
    the tail and the refresh is keyed on the entry that was the most recent. *)
Definition focus_contract (id : Z) (fetched : option Window.t) (s : JSSet.t)
    : JSSet.t * list Tracker.BadgeRefresh :=
  if Z.eq_dec id WINDOW_ID_NONE then (s, [])
  else
    match fetched with
    | None => (s, [])
    | Some window =>
        if string_dec (Window.type window) "normal" then
          match most_recent s with
          | Some previous =>
              if Z.eq_dec previous id then (s, [])
              else (remove Z.eq_dec id s ++ [id], [Some previous])
          | None => (remove Z.eq_dec id s ++ [id], [None])
          end
        else (s, [])
    end.

(** An event the tracker acts on: a real window id whose window is normal. *)
Definition tracked (e : Tracker.FocusEvent) : bool :=
  negb (fst e =? WINDOW_ID_NONE)
  && match snd e with
     | Some window => String.eqb (Window.type window) "normal"
     | None => false
     end.

(** Window ids are positive; the only other value the host sends is the
    sentinel. *)
Definition focus_id_ok (id : Z) : Prop := id = WINDOW_ID_NONE \/ 0 < id.

Definition focused (events : list Tracker.FocusEvent) : list Z :=
  map fst (filter tracked events).


(** ** Container buckets *)

(** The containers of a selection, each once, in order of first appearance. *)
Fixpoint containers (selectedTabs : list Tab.t) : list string :=
  match selectedTabs with
  | [] => []
  | t :: rest =>
      Tab.cookieStoreId t
      :: filter (fun k => negb (String.eqb k (Tab.cookieStoreId t))) (containers rest)
  end.

(** The ids of the selection's tabs that live in container [k]. *)
Definition bucket_of (k : string) (selectedTabs : list Tab.t) : list Z :=
  map Tab.id (filter (fun t => String.eqb (Tab.cookieStoreId t) k) selectedTabs).

(** Where a bucket goes: to a new window ([0]) for a moveable container. *)
Definition destination (settings : Settings) (targetWindowId : option Z)
    (k : string) : option Z :=
  if includes k (moveableContainers settings) then Some 0 else targetWindowId.

Definition is_default (k : string) : bool := String.eqb k "firefox-default".

(** Every tab of the selection is named by one of the moves. *)
Definition every_tab_moved (selectedTabs : list Tab.t) (r : Relocation.MoveTabsRun)
    : Prop :=
  forall t, In t selectedTabs ->
    existsb (names_tab (Tab.id t)) (concat (Relocation.moves r)) = true.

(** A call that makes a tab the active one. *)
Definition marks_active (c : HostCall) : bool :=
  match c with
  | TabsUpdate _ (mkUpdate (Some true) _) => true
  | _ => false
  end.

(** The calls that mark every tab of the selection but [a] as highlighted
    and not active. *)
Definition highlight_others (a : Tab.t) (selectedTabs : list Tab.t) : list HostCall :=
  map (fun t => TabsUpdate (Tab.id t) highlight_inactive)
      (filter (fun t => negb (Tab.id t =? Tab.id a)) selectedTabs).

(** ** Reopening *)

Definition is_create (c : HostCall) : bool :=
  match c with TabsCreate _ _ _ => true | _ => false end.

Definition is_remove (c : HostCall) : bool :=
  match c with TabsRemove _ => true | _ => false end.

Definition is_update (c : HostCall) : bool :=
  match c with TabsUpdate _ _ => true | _ => false end.

(** The tabs whose URL scheme is one of http, https and ftp. *)
Definition survivors (protocol : string -> option string)
    (selectedTabs : list Tab.t) : list Tab.t :=
  filter (fun t => match protocol (Tab.url t) with
                   | Some p => includes p ALLOWED_PROTOCOLS
                   | None => false
                   end)
         selectedTabs.

(** One creation per surviving tab, with its URL and active flag; without an
    active tab among the survivors the first one is created active. *)
Definition recreations (targetWindowId : Z) (surviving : list Tab.t) : list HostCall :=
  match find Tab.active surviving with
  | Some _ => map (Reopen.create_call targetWindowId) surviving
  | None =>
      match surviving with
      | [] => []
      | first :: rest =>
          TabsCreate (Tab.url first) targetWindowId true
          :: map (Reopen.create_call targetWindowId) rest
      end
  end.

(** The created tabs that are not active get highlighted. *)
Definition highlight_created (newTabs : list Tab.t) : list HostCall :=
  map (fun t => TabsUpdate (Tab.id t) highlight_inactive)
      (filter (fun t => negb (Tab.active t)) newTabs).

(** ** Dispatch *)

(** The entry before the last of the recency set. *)
Definition second_to_last (s : JSSet.t) : option Z :=
  match rev s with
  | _ :: x :: _ => Some x
  | _ => None
  end.

(** The first window of the enumeration that is not the tab's own. *)
Definition first_other (tab : Tab.t) (targetWindows : list Window.t) : option Window.t :=
  find (fun w => negb (Window.id w =? Tab.windowId tab)) targetWindows.

Definition shift_or_middle (info : Dispatch.OnClickData) : bool :=
  includes "Shift" (Dispatch.modifiers info) || (Dispatch.button info =? 1).

(** The second-to-last entry when it is a positive id, else [fallback]. *)
Definition recent_or (s : JSSet.t) (fallback : Z) : Z :=
  match second_to_last s with
  | Some x => if 0 <? x then x else fallback
  | None => fallback
  end.

(** What a click on the toolbar button calls: with exactly one normal
    window, [moveTabs(tab, null)]; otherwise, if there is another window,
    [moveTabs] to the recent window or else that first other one, the switch
    forced by shift or the middle button. *)
Definition click_contract (tab : Tab.t) (info : Dispatch.OnClickData)
    (targetWindows : list Window.t) (s : JSSet.t) : option Dispatch.Invocation :=
  match targetWindows with
  | [_] => Some (Dispatch.mkInvocation tab None false)
  | _ =>
      match first_other tab targetWindows with
      | Some w =>
          Some (Dispatch.mkInvocation tab (Some (recent_or s (Window.id w)))
                                      (shift_or_middle info))
      | None => None
      end
  end.

(** What the move-tabs command calls: [moveTabs] to the second-to-last
    entry when that is a positive id, nothing otherwise. *)
Definition command_contract (tab : list Tab.t) (s : JSSet.t)
    : option Dispatch.Invocation :=
  match tab, second_to_last s with
  | tab0 :: _, Some x =>
      if 0 <? x then Some (Dispatch.mkInvocation tab0 (Some x) false) else None
  | _, _ => None
  end.

(** ** Sorting *)

(** [a]'s title, lower-cased, is not after [b]'s in the order of strings. *)
Definition title_le (toLowerCase : string -> string) (a b : Tab.t) : Prop :=
  String.leb (toLowerCase (Tab.title a)) (toLowerCase (Tab.title b)) = true.

(** ** Menu sessions *)

(** The [createMenuItem] arguments an [onMenuShown] issues for a snapshot. *)
Definition requests (tab : Tab.t) (targetWindows : list Window.t)
    : list Menus.CreateProperties :=
  fst (fst (Menus.shown_loop tab targetWindows [] 0 0)).

(** The host registers every entry the snapshot asks for. *)
Definition accepted (h : Menus.Host) (tab : Tab.t) (targetWindows : list Window.t)
    : bool :=
  forallb (Menus.accepts h) (requests tab targetWindows).

(** What an entry shows of the request it was created from. *)
Definition describe (i : Menus.Item) : Menus.CreateProperties :=
  Menus.mkCreate None (Menus.item_parentId i) (Menus.item_title i) None
                 (Menus.item_onclick i).

Definition is_issued (id : Menus.MenuId) : Prop :=
  match id with Menus.Issued _ => True | Menus.Named _ => False end.

Definition issued_upto (c : Z) (id : Menus.MenuId) : Prop :=
  match id with Menus.Issued n => n <= c | Menus.Named _ => False end.

Definition listed (ids : list Menus.MenuId) (i : Menus.Item) : bool :=
  existsb (Menus.menuid_eqb (Menus.item_id i)) ids.

(** The entries left when the host has removed the ids [ids]. *)
Definition without (ids : list Menus.MenuId) (entries : list Menus.Item)
    : list Menus.Item :=
  filter (fun i => negb (listed ids i)) entries.

(** A state between menu sessions, as the script and the host can have
    produced it: nothing suspended; the numbers the host has issued are at
    most its counter; the items the script has named are top-level; the
    registered dynamic entries are ones the host has issued. *)
Record idle (st : Menus.State) : Prop := mkIdle {
  idle_suspended : Menus.suspended st = [];
  idle_counter :
    Forall (fun i => match Menus.item_id i with
                     | Menus.Issued n => n <= Menus.counter (Menus.host st)
                     | Menus.Named _ => Menus.item_parentId i = None
                     end)
           (Menus.items (Menus.host st));
  idle_registered :
    Forall (issued_upto (Menus.counter (Menus.host st)))
           (Menus.windowMenuIds (Menus.globals st))
}.

(** The ways two event sequences can be merged, each keeping its order. *)
Inductive Interleave {A : Type} : list A -> list A -> list A -> Prop :=
| interleave_nil : Interleave [] [] []
| interleave_left (x : A) (l r m : list A) :
    Interleave l r m -> Interleave (x :: l) r (x :: m)
| interleave_right (y : A) (l r m : list A) :
    Interleave l r m -> Interleave l (y :: r) (y :: m).

(** The schedules in which a newer session overlaps an older one: the
    newer [shown] arrives while the older session still has steps
    [pending]; before it, what the older session has [done] mixes with what
    happens [earlier] than the newer one, and after it, the pending steps mix
    with the newer session's. *)
Definition overlapping (older earlier : list Menus.Event) (shown : Menus.Event)
    (newer schedule : list Menus.Event) : Prop :=
  exists done pending pre post,
    older = done ++ pending
    /\ pending <> []
    /\ Interleave done earlier pre
    /\ Interleave pending newer post
    /\ schedule = pre ++ shown :: post.

Definition has_parent (i : Menus.Item) : bool :=
  match Menus.item_parentId i with Some _ => true | None => false end.

(** Items with a name of the script's choosing are top-level. *)
Definition top_level_names (l : list Menus.Item) : Prop :=
  Forall (fun i => is_issued (Menus.item_id i) \/ Menus.item_parentId i = None) l.

(** A request of [onMenuShown]: no id of its own, and a parent. *)
Definition dynamic (p : Menus.CreateProperties) : Prop :=
  Menus.cp_id p = None /\ exists parent, Menus.cp_parentId p = Some parent.

Definition ids_of (l : list Menus.Item) : list Menus.MenuId := map Menus.item_id l.

(** Entries whose host-issued numbers are at most [c]. *)
Definition numbered_upto (c : Z) (l : list Menus.Item) : Prop :=
  Forall (fun i => match Menus.item_id i with
                   | Menus.Issued n => n <= c
                   | Menus.Named _ => True
                   end) l.

(** The request for a window of the tab's privacy mode, and for one of the
    other mode. *)
Definition move_request (w : Window.t) : Menus.CreateProperties :=
  Menus.mkCreate None (Some "move-menu") (Window.title w) None
                 (Some (Menus.MoveTabsTo (Window.id w))).

Definition reopen_request (w : Window.t) : Menus.CreateProperties :=
  Menus.mkCreate None (Some "reopen-menu") (Window.title w) None
                 (Some (Menus.ReopenTabsIn (Window.id w))).

(** The windows of a snapshot other than the tab's own. *)
Definition other_windows (tab : Tab.t) (targetWindows : list Window.t) : list Window.t :=
  filter (fun w => negb (Window.id w =? Tab.windowId tab)) targetWindows.

Definition same_privacy (tab : Tab.t) (w : Window.t) : bool :=
  Bool.eqb (Tab.incognito tab) (Window.incognito w).

(** One request per other window, by privacy mode. *)
Definition expected_requests (tab : Tab.t) (targetWindows : list Window.t)
    : list Menus.CreateProperties :=
  map (fun w => if same_privacy tab w then move_request w else reopen_request w)
      (other_windows tab targetWindows).

(** How many windows of the snapshot are move, respectively reopen, targets. *)
Definition move_targets (tab : Tab.t) (targetWindows : list Window.t) : Z :=
  Z.of_nat (length (filter (same_privacy tab) (other_windows tab targetWindows))).

Definition reopen_targets (tab : Tab.t) (targetWindows : list Window.t) : Z :=
  Z.of_nat (length (filter (fun w => negb (same_privacy tab w))
                           (other_windows tab targetWindows))).

(** The host before the script has run, and the state after its startup. *)
Definition host0 : Menus.Host := Menus.mkHost [] 0 0.

Definition started : Menus.State :=
  Menus.mkState Menus.initial (Menus.startup "Tab Mover" host0) [].

(** *** The machine, seen through what the submenus show

    The same steps, on the globals, the submenu entries, the host's counter
    and the suspended invocations only.  [reg] tells which parents are
    registered; the view gives up ([None]) when a creation is refused. *)

Record View : Type := mkView {
  v_globals : Menus.Globals;
  v_entries : list Menus.Item;
  v_counter : Z;
  v_suspended : list Menus.Suspended
}.

Definition view (st : Menus.State) : View :=
  mkView (Menus.globals st) (Menus.submenu_entries (Menus.host st))
         (Menus.counter (Menus.host st)) (Menus.suspended st).

(** The entries the host registers for a list of requests, counting on
    from [c]. *)
Fixpoint entries_from (c : Z) (ps : list Menus.CreateProperties) : list Menus.Item :=
  match ps with
  | [] => []
  | p :: rest => Menus.item_of (Menus.Issued (c + 1)) p :: entries_from (c + 1) rest
  end.

Definition accepts_by (reg : string -> bool) (p : Menus.CreateProperties) : bool :=
  match Menus.cp_parentId p with
  | None => true
  | Some parent => reg parent
  end.

Definition view_step (reg : string -> bool) (v : View) (e : Menus.Event)
    : option View :=
  let g := v_globals v in
  match e with
  | Menus.MenuShown tab =>
      let m := Menus.nextMenuInstanceId g in
      Some (mkView (Menus.mkGlobals (Menus.windowMenuIds g) m (m + 1))
                   (v_entries v) (v_counter v)
                   (v_suspended v ++ [Menus.AwaitingWindows m tab]))
  | Menus.WindowsAnswered m targetWindows =>
      match Menus.take_windows m (v_suspended v) with
      | None => Some v
      | Some (tab, rest) =>
          let ps := requests tab targetWindows in
          if forallb (accepts_by reg) ps then
            let created := entries_from (v_counter v) ps in
            Some (mkView g (v_entries v ++ created)
                         (v_counter v + Z.of_nat (length ps))
                         (rest ++ [Menus.AwaitingMenus m
                                     (map (fun i => (Menus.item_id i, true)) created)]))
          else None
      end
  | Menus.MenusSettled m =>
      match Menus.take_menus m (v_suspended v) with
      | None => Some v
      | Some (creatingMenus, rest) =>
          match Menus.settled_ids creatingMenus with
          | None => Some (mkView g (v_entries v) (v_counter v) rest)
          | Some ids =>
              if negb (m =? Menus.lastMenuInstanceId g)
              then Some (mkView g (without ids (v_entries v)) (v_counter v) rest)
              else Some (mkView (Menus.mkGlobals ids (Menus.lastMenuInstanceId g)
                                                 (Menus.nextMenuInstanceId g))
                                (v_entries v) (v_counter v) rest)
          end
      end
  | Menus.MenuHidden =>
      Some (mkView (Menus.mkGlobals (Menus.windowMenuIds g) 0 (Menus.nextMenuInstanceId g))
                   (without (Menus.windowMenuIds g) (v_entries v))
                   (v_counter v) (v_suspended v))
  end.

Fixpoint view_run (reg : string -> bool) (events : list Menus.Event) (v : View)
    : option View :=
  match events with
  | [] => Some v
  | e :: rest =>
      match view_step reg v e with
      | Some v' => view_run reg rest v'
      | None => None
      end
  end.

(** The ids a suspended invocation holds are ones the host has issued. *)
Definition holds_issued (s : Menus.Suspended) : Prop :=
  match s with
  | Menus.AwaitingMenus _ creatingMenus =>
      Forall (fun r => is_issued (fst r)) creatingMenus
  | Menus.AwaitingWindows _ _ => True
  end.

(** What the steps keep true of a state: named items are top-level, and
    the ids the script holds, registered or in a suspended invocation, are
    ones the host has issued. *)
Record steady (st : Menus.State) : Prop := mkSteady {
  steady_named : top_level_names (Menus.items (Menus.host st));
  steady_registered : Forall is_issued (Menus.windowMenuIds (Menus.globals st));
  steady_suspended : Forall holds_issued (Menus.suspended st)
}.

(** A creation that asks for the active tab. *)
Definition creates_active (c : HostCall) : bool :=
  match c with TabsCreate _ _ true => true | _ => false end.

(** The order [openLastRecentTab] sorts the tabs in: greater ids first. *)
Definition id_descending (a b : Recent.Accessed) : Prop :=
  Tab.id (Recent.tab b) <= Tab.id (Recent.tab a).

(** An activation the [tabs.onActivated] listener stores for window [w]: one
    of that window that names the tab active before. *)
Definition remembered (w : Z) (info : LastActive.ActiveInfo) : bool :=
  match LastActive.previousTabId info with
  | Some _ => LastActive.windowId info =? w
  | None => false
  end.

(** The instance id a suspended [onMenuShown] holds in [menuInstanceId]. *)
Definition token (s : Menus.Suspended) : Z :=
  match s with
  | Menus.AwaitingWindows m _ => m
  | Menus.AwaitingMenus m _ => m
  end.

(** Instance ids are handed out once, counting up: the next one is
    positive, the last one is [0] or the newest handed out, and the pending
    invocations hold different ids, all handed out already. *)
Record numbered (st : Menus.State) : Prop := mkNumbered {
  numbered_next : 0 < Menus.nextMenuInstanceId (Menus.globals st);
  numbered_last :
    Menus.lastMenuInstanceId (Menus.globals st) = 0
    \/ Menus.lastMenuInstanceId (Menus.globals st)
       = Menus.nextMenuInstanceId (Menus.globals st) - 1;
  numbered_pending :
    Forall (fun m => 0 < m < Menus.nextMenuInstanceId (Menus.globals st))
           (map token (Menus.suspended st));
  numbered_distinct : NoDup (map token (Menus.suspended st))
}.

(** The entries the host registers for a list of requests when it refuses
    some: every request takes a number, the accepted ones an entry. *)
Fixpoint entries_kept (reg : string -> bool) (c : Z) (ps : list Menus.CreateProperties)
    : list Menus.Item :=
  match ps with
  | [] => []
  | p :: rest =>
      (if accepts_by reg p then [Menus.item_of (Menus.Issued (c + 1)) p] else [])
      ++ entries_kept reg (c + 1) rest
  end.

(** ** The toolbar button *)

Definition is_set_icon (c : Badge.BadgeCall) : bool :=
  match c with Badge.SetIcon _ _ => true | _ => false end.

(** The icon a window gets: the "non-active" one marks the destination. *)
Definition icon_for (id : option Z) (y : Window.t) : Badge.BadgeCall :=
  Badge.SetIcon (Window.id y)
    (if Badge.is_target id y
     then "src/icons/web-browser-non-active.svg"
     else "src/icons/web-browser-active.svg").

(** A call that marks no window as the destination. *)
Definition unmarked (c : Badge.BadgeCall) : Prop :=
  match c with
  | Badge.SetIcon _ path => path = "src/icons/web-browser-active.svg"
  | Badge.SetBadgeBackgroundColor _ color => color = Badge.BADGE_COLOR_DEFAULT
  | Badge.SetTitle title => title = ""
  | Badge.SetBadgeText _ => True
  end.

(** ** Sample data *)

(** A normal window, as [windows.get] answers. *)
Definition normal_window (id : Z) : Window.t :=
  Window.mk id "normal" false "" [].

(** A highlighted tab of window [1] in container [k]. *)
Definition sample_tab (id : Z) (active : bool) (k : string) : Tab.t :=
  Tab.mk id 1 id active true false k "https://example.org/" "".

Definition container_a : string := "firefox-container-1".
Definition container_b : string := "firefox-container-2".

Definition no_settings : Settings := mkSettings false [].

(** The text of a URL up to and with its first colon; stands in for
    [new URL(url).protocol] on the sample URLs. *)
Fixpoint scheme_of (url : string) : option string :=
  match url with
  | EmptyString => None
  | String c rest =>
      if Ascii.eqb c ":" then Some ":"
      else match scheme_of rest with
           | Some p => Some (String c p)
           | None => None
           end
  end.

(** A highlighted tab of window [1] showing [url]. *)
Definition page (id : Z) (active : bool) (url : string) : Tab.t :=
  Tab.mk id 1 id active true false "firefox-default" url "".

(** The tab the host creates for the [i]-th request of a reopen: a fresh id,
    active only for the first. *)
Definition fresh_tab (i : nat) : Tab.t :=
  Tab.mk (100 + Z.of_nat i) 2 (Z.of_nat i) (Nat.eqb i 0) false true
         "firefox-private" "" "".

(** Lower-casing of the letters A to Z; stands in for [toLowerCase] on the
    sample titles. *)
Definition lower_ascii (c : ascii) : ascii :=
  let n := nat_of_ascii c in
  if (Nat.leb 65 n && Nat.leb n 90)%bool then ascii_of_nat (n + 32) else c.

Fixpoint lower (s : string) : string :=
  match s with
  | EmptyString => EmptyString
  | String c rest => String (lower_ascii c) (lower rest)
  end.

(** A highlighted tab at position [index] with the given title. *)
Definition titled (id index : Z) (title : string) : Tab.t :=
  Tab.mk id 1 index false true false "firefox-default" "https://example.org/" title.

(** A normal window with a title and a privacy mode. *)
Definition titled_window (id : Z) (incognito : bool) (title : string) : Window.t :=
  Window.mk id "normal" incognito title [].


(** The code units of a text of ASCII characters, and back. *)
Definition ascii_units (s : string) : list Z :=
  map (fun c => Z.of_nat (nat_of_ascii c)) (list_ascii_of_string s).

Definition ascii_text (u : list Z) : string :=
  string_of_list_ascii (map (fun z => ascii_of_nat (Z.to_nat z)) u).


(** * Properties *)

(** ** The recency set *)

Lemma js_index_0 (A : Type) (a : list A) : js_index a 0 = hd_error a.
Proof. destruct a; reflexivity. Qed.

Lemma last_snoc (s : list Z) (x : Z) : most_recent (s ++ [x]) = Some x.
Proof.
  unfold most_recent. rewrite map_app. simpl. apply last_last.
Qed.

Lemma js_index_last (s : JSSet.t) :
  js_index s (JSSet.size s - 1) = most_recent s.
Proof.
  unfold js_index, JSSet.size, most_recent.
  destruct s as [|x s] using rev_ind.
  - reflexivity.
  - clear IHs. rewrite length_app, map_app. simpl. rewrite last_last.
    replace (Z.of_nat (length s + 1) - 1) with (Z.of_nat (length s)) by lia.
    destruct (Z.ltb_spec (Z.of_nat (length s)) 0); [lia|].
    rewrite Nat2Z.id, nth_error_app2, Nat.sub_diag by lia. reflexivity.
Qed.

Lemma delete_In (x y : Z) (s : JSSet.t) :
  In y (JSSet.delete x s) <-> In y s /\ y <> x.
Proof.
  unfold JSSet.delete. rewrite filter_In.
  destruct (Z.eqb_spec y x); simpl; intuition congruence.
Qed.

Lemma delete_remove (x : Z) (s : JSSet.t) :
  JSSet.delete x s = remove Z.eq_dec x s.
Proof.
  induction s as [|y s IH]; simpl; [reflexivity|].
  destruct (Z.eq_dec x y) as [->|n].
  - rewrite Z.eqb_refl. simpl. exact IH.
  - destruct (Z.eqb_spec y x); [congruence|]. simpl. now rewrite IH.
Qed.

Lemma has_In (x : Z) (s : JSSet.t) : JSSet.has x s = true <-> In x s.
Proof.
  unfold JSSet.has. rewrite existsb_exists. split.
  - intros [y [Hy E]]. apply Z.eqb_eq in E. now subst.
  - intros H. exists x. split; [assumption|apply Z.eqb_refl].
Qed.

Lemma add_delete (x : Z) (s : JSSet.t) :
  JSSet.add x (JSSet.delete x s) = JSSet.delete x s ++ [x].
Proof.
  unfold JSSet.add.
  destruct (JSSet.has x (JSSet.delete x s)) eqn:E; [|reflexivity].
  apply has_In, delete_In in E. now destruct E.
Qed.

Lemma NoDup_delete (x : Z) (s : JSSet.t) : NoDup s -> NoDup (JSSet.delete x s).
Proof. apply NoDup_filter. Qed.

Lemma NoDup_move_to_tail (x : Z) (s : JSSet.t) :
  NoDup s -> NoDup (JSSet.delete x s ++ [x]).
Proof.
  intros H. apply NoDup_app.
  - now apply NoDup_delete.
  - repeat constructor. intros [].
  - intros y Hy [<-|[]]. apply delete_In in Hy. now destruct Hy.
Qed.

(** Filtering keeps the order of what it keeps, and invents none. *)
Lemma filter_split (p : Z -> bool) (l l1 l2 : list Z) (x : Z) :
  filter p l = l1 ++ x :: l2 ->
  exists l1' l2', l = l1' ++ x :: l2' /\ filter p l1' = l1 /\ filter p l2' = l2.
Proof.
  revert l1. induction l as [|y l IH]; intros l1 H; simpl in H.
  - destruct l1; discriminate.
  - destruct (p y) eqn:Py.
    + destruct l1 as [|z l1]; simpl in H; injection H as -> H.
      * exists [], l. simpl. auto.
      * destruct (IH _ H) as (l1' & l2' & -> & <- & <-).
        exists (z :: l1'), l2'. simpl. now rewrite Py.
    + destruct (IH _ H) as (l1' & l2' & -> & <- & <-).
      exists (y :: l1'), l2'. simpl. now rewrite Py.
Qed.

Lemma before_delete (w a b : Z) (s : JSSet.t) :
  a <> w -> b <> w -> (before a b (JSSet.delete w s) <-> before a b s).
Proof.
  intros Ha Hb. unfold before, JSSet.delete.
  set (p := fun y => negb (y =? w)).
  assert (Pa : p a = true) by (unfold p; destruct (Z.eqb_spec a w); [contradiction|reflexivity]).
  assert (Pb : p b = true) by (unfold p; destruct (Z.eqb_spec b w); [contradiction|reflexivity]).
  split.
  - intros (l1 & l2 & l3 & E).
    destruct (filter_split _ _ _ _ _ E) as (l1' & r & -> & _ & E').
    destruct (filter_split _ _ _ _ _ E') as (l2' & l3' & -> & _ & _).
    now exists l1', l2', l3'.
  - intros (l1 & l2 & l3 & ->).
    exists (filter p l1), (filter p l2), (filter p l3).
    rewrite filter_app. simpl. rewrite Pa, filter_app. simpl. now rewrite Pb.
Qed.



Lemma onFocusChanged_contract (id : Z) (fetched : option Window.t) (s : JSSet.t) :
  focus_id_ok id ->
  Tracker.onFocusChanged id fetched s = focus_contract id fetched s.
Proof.
  intros Hid. unfold Tracker.onFocusChanged, focus_contract.
  destruct (Z.eq_dec id WINDOW_ID_NONE) as [->|Hn]; [reflexivity|].
  destruct (Z.eqb_spec id WINDOW_ID_NONE); [contradiction|].
  destruct fetched as [window|]; [|reflexivity].
  destruct (string_dec (Window.type window) "normal") as [E|E].
  - rewrite E. simpl.
    destruct Hid as [|Hpos]; [contradiction|].
    destruct (Z.ltb_spec 0 id); [|lia].
    rewrite js_index_last.
    destruct (most_recent s) as [previous|]; simpl.
    + destruct (Z.eq_dec previous id) as [->|Hp].
      * now rewrite Z.eqb_refl.
      * destruct (Z.eqb_spec previous id); [contradiction|]. simpl.
        now rewrite add_delete, delete_remove.
    + now rewrite add_delete, delete_remove.
  - destruct (String.eqb_spec (Window.type window) "normal"); [contradiction|].
    reflexivity.
Qed.

Lemma focus_step_cases (e : Tracker.FocusEvent) (s : JSSet.t) :
  focus_id_ok (fst e) ->
  let s' := fst (Tracker.onFocusChanged (fst e) (snd e) s) in
  (tracked e = false /\ s' = s)
  \/ (tracked e = true /\ most_recent s = Some (fst e) /\ s' = s)
  \/ (tracked e = true /\ s' = JSSet.delete (fst e) s ++ [fst e]).
Proof.
  destruct e as [id fetched]. simpl. intros Hid.
  rewrite (onFocusChanged_contract _ _ _ Hid).
  unfold focus_contract, tracked. simpl.
  destruct (Z.eq_dec id WINDOW_ID_NONE) as [->|Hn]; [now left|].
  destruct (Z.eqb_spec id WINDOW_ID_NONE); [contradiction|]. simpl.
  destruct fetched as [window|]; [|now left].
  destruct (string_dec (Window.type window) "normal") as [E|E].
  - rewrite E. simpl. right.
    destruct (most_recent s) as [previous|].
    + destruct (Z.eq_dec previous id) as [->|Hp]; [left; auto|].
      right. simpl. now rewrite delete_remove.
    + right. simpl. now rewrite delete_remove.
  - destruct (String.eqb_spec (Window.type window) "normal"); [contradiction|].
    now left.
Qed.

Lemma most_recent_In (s : JSSet.t) (x : Z) : most_recent s = Some x -> In x s.
Proof.
  unfold most_recent. destruct s as [|y s] using rev_ind; [discriminate|].
  rewrite map_app. simpl. rewrite last_last. intros [= ->].
  apply in_or_app. right. now left.
Qed.

Lemma focus_run_invariant (events : list Tracker.FocusEvent) (s : JSSet.t) :
  NoDup s ->
  Forall (fun e => focus_id_ok (fst e)) events ->
  let s' := Tracker.focus_run events s in
  NoDup s'
  /\ (forall x, In x s' <-> In x s \/ In x (focused events))
  /\ (forall w, most_recent (focused events) = Some w -> most_recent s' = Some w).
Proof.
  induction events as [|e events IH] using rev_ind; intros Hs Hev; simpl.
  - split; [assumption|]. split; [intuition|]. discriminate.
  - apply Forall_app in Hev. destruct Hev as [Hev He].
    inversion He as [|? ? Hid _]; subst.
    destruct (IH Hs Hev) as (IH1 & IH2 & IH3). clear IH.
    replace (Tracker.focus_run (events ++ [e]) s)
      with (fst (Tracker.onFocusChanged (fst e) (snd e) (Tracker.focus_run events s)))
      by (unfold Tracker.focus_run; now rewrite fold_left_app).
    revert IH1 IH2 IH3. generalize (Tracker.focus_run events s). intros s1 IH1 IH2 IH3.
    unfold focused in *. rewrite filter_app, map_app. simpl.
    destruct (focus_step_cases e s1 Hid) as [[T ->]|[(T & Hm & ->)|[T ->]]];
      rewrite T; simpl.
    + rewrite app_nil_r. auto.
    + split; [assumption|]. split.
      * intros x. rewrite in_app_iff, IH2. simpl.
        apply most_recent_In in Hm. apply IH2 in Hm.
        split; [tauto|]. intros [H|[H|[<-|[]]]]; tauto.
      * intros w. rewrite last_snoc. now intros [= <-].
    + split; [now apply NoDup_move_to_tail|]. split.
      * intros x. rewrite !in_app_iff, delete_In, IH2. simpl.
        destruct (Z.eq_dec x (fst e)) as [->|]; intuition.
      * intros w. rewrite !last_snoc. auto.
Qed.

Example focus_run_example :
  Tracker.focus_run
    [(2, Some (normal_window 2)); (WINDOW_ID_NONE, None);
     (7, Some (Window.mk 7 "popup" false "" [])); (1, Some (normal_window 1))]
    [1; 2; 3]
  = [3; 2; 1].
Proof. reflexivity. Qed.

(** C7.  A focus-changed event leaves the recency set alone when it carries
    the sentinel, a window that is not normal, or the entry that is already
    the most recent; otherwise the most recent entry is read first, the id
    goes to the tail by remove-then-append and the badge refresh is keyed on
    the entry read.  After any sequence of such events the set has no
    duplicates, holds the windows it held plus those focused, and ends with
    the window focused last. *)
Theorem focus_changed_recency
    (s : JSSet.t) (id : Z) (fetched : option Window.t)
    (events : list Tracker.FocusEvent) :
  focus_id_ok id ->
  NoDup s ->
  Forall (fun e => focus_id_ok (fst e)) events ->
  Tracker.onFocusChanged id fetched s = focus_contract id fetched s
  /\ NoDup (Tracker.focus_run events s)
  /\ (forall x, In x (Tracker.focus_run events s) <-> In x s \/ In x (focused events))
  /\ (forall w, most_recent (focused events) = Some w ->
                most_recent (Tracker.focus_run events s) = Some w).
Proof.
  intros Hid Hs Hev. split.
  - now apply onFocusChanged_contract.
  - exact (focus_run_invariant events s Hs Hev).
Qed.

Lemma focus_changed_recency_witness :
  Tracker.onFocusChanged 2 (Some (normal_window 2)) [1; 2; 3] = ([1; 3; 2], [Some 3])
  /\ Tracker.focus_run [(2, Some (normal_window 2)); (1, Some (normal_window 1))] [1; 2; 3]
     = [3; 2; 1]
  /\ most_recent [3; 2; 1] = Some 1.
Proof.
  assert (Hs : NoDup [1; 2; 3]).
  { repeat constructor; simpl; intros H; decompose [or] H; discriminate || assumption. }
  assert (Hev : Forall (fun e : Tracker.FocusEvent => focus_id_ok (fst e))
                       [(2, Some (normal_window 2)); (1, Some (normal_window 1))]).
  { repeat constructor; right; reflexivity. }
  assert (Hid : focus_id_ok 2) by (right; reflexivity).
  destruct (focus_changed_recency [1; 2; 3] 2 (Some (normal_window 2)) _ Hid Hs Hev)
    as (H1 & _ & _ & H4).
  split; [exact H1|]. split; [reflexivity|]. exact (H4 1 eq_refl).
Defined.

Example onRemoved_head :
  Tracker.onRemoved 2 [2; 5; 3] = ([5; 3], [Some 2]).
Proof. reflexivity. Qed.

(** C8.  A window-removed event for [w] requests the badge refresh keyed on
    the head of the recency set as it is before the removal, and removes [w]
    wherever it is: [w] is absent afterwards, every other window stays, and
    the order among the others is what it was. *)
Theorem window_removed_frame (w : Z) (s : JSSet.t) (a b : Z) :
  a <> w -> b <> w ->
  snd (Tracker.onRemoved w s) = [hd_error s]
  /\ ~ In w (fst (Tracker.onRemoved w s))
  /\ (In a (fst (Tracker.onRemoved w s)) <-> In a s)
  /\ (before a b (fst (Tracker.onRemoved w s)) <-> before a b s).
Proof.
  intros Ha Hb. unfold Tracker.onRemoved. cbn [fst snd].
  split; [now rewrite js_index_0|].
  split; [intros H; apply delete_In in H; now destruct H|].
  split; [|now apply before_delete].
  rewrite delete_In. tauto.
Qed.

Lemma window_removed_frame_witness :
  snd (Tracker.onRemoved 2 [1; 2; 3]) = [Some 1]
  /\ ~ In 2 (fst (Tracker.onRemoved 2 [1; 2; 3]))
  /\ (before 1 3 (fst (Tracker.onRemoved 2 [1; 2; 3])) <-> before 1 3 [1; 2; 3]).
Proof.
  assert (H1 : 1 <> 2) by discriminate.
  assert (H3 : 3 <> 2) by discriminate.
  destruct (window_removed_frame 2 [1; 2; 3] 1 3 H1 H3) as (R & A & _ & B).
  exact (conj R (conj A B)).
Defined.

(** ** Container buckets *)

Lemma keys_bucket_push (k : string) (v : Z) (o : Relocation.Buckets) :
  Relocation.keys (Relocation.bucket_push k v o)
  = if includes k (Relocation.keys o) then Relocation.keys o
    else Relocation.keys o ++ [k].
Proof.
  induction o as [|[k' vs] o IH]; simpl; [reflexivity|].
  destruct (String.eqb k k') eqn:E; simpl; [reflexivity|].
  unfold Relocation.keys in *. rewrite IH.
  unfold includes. now destruct (existsb (String.eqb k) (map fst o)).
Qed.

Lemma get_bucket_push (k c : string) (v : Z) (o : Relocation.Buckets) :
  Relocation.bucket_get k (Relocation.bucket_push c v o)
  = Relocation.bucket_get k o ++ (if String.eqb c k then [v] else []).
Proof.
  induction o as [|[k' vs] o IH]; simpl.
  - rewrite (String.eqb_sym k c). now destruct (String.eqb c k).
  - destruct (String.eqb_spec c k') as [->|Hc]; simpl.
    + rewrite (String.eqb_sym k' k).
      destruct (String.eqb k k'); [reflexivity|]. now rewrite app_nil_r.
    + destruct (String.eqb_spec k k') as [->|Hk]; [|exact IH].
      destruct (String.eqb_spec c k'); [contradiction|]. now rewrite app_nil_r.
Qed.

Lemma includes_In (k : string) (l : list string) :
  includes k l = true <-> In k l.
Proof.
  unfold includes. rewrite existsb_exists. split.
  - intros [y [Hy E]]. apply String.eqb_eq in E. now subst.
  - intros H. exists k. split; [assumption|apply String.eqb_refl].
Qed.

Lemma filter_filter (A : Type) (p q : A -> bool) (l : list A) :
  filter p (filter q l) = filter (fun x => q x && p x) l.
Proof.
  induction l as [|x l IH]; simpl; [reflexivity|].
  destruct (q x); simpl; [destruct (p x)|]; now rewrite IH.
Qed.

(** The keys of the object built by the reducer, started from [o]. *)
Lemma keys_fold (selectedTabs : list Tab.t) (o : Relocation.Buckets) :
  Relocation.keys
    (fold_left (fun o tab =>
                  Relocation.bucket_push (Tab.cookieStoreId tab) (Tab.id tab) o)
               selectedTabs o)
  = Relocation.keys o
    ++ filter (fun k => negb (includes k (Relocation.keys o))) (containers selectedTabs).
Proof.
  revert o. induction selectedTabs as [|t rest IH]; intros o; simpl.
  - now rewrite app_nil_r.
  - rewrite IH, keys_bucket_push. set (c := Tab.cookieStoreId t).
    rewrite filter_filter.
    destruct (includes c (Relocation.keys o)) eqn:E; simpl.
    + f_equal. apply filter_ext_in. intros k _.
      destruct (String.eqb_spec k c) as [->|]; simpl; [now rewrite E|reflexivity].
    + rewrite <- app_assoc. simpl. do 2 f_equal. apply filter_ext. intros k.
      unfold includes. rewrite existsb_app. simpl.
      rewrite orb_false_r, negb_orb, andb_comm. reflexivity.
Qed.

Lemma keys_group (selectedTabs : list Tab.t) :
  Relocation.keys (Relocation.group selectedTabs) = containers selectedTabs.
Proof.
  unfold Relocation.group. rewrite keys_fold. simpl.
  induction (containers selectedTabs) as [|k l IH]; simpl; congruence.
Qed.

Lemma get_fold (k : string) (selectedTabs : list Tab.t) (o : Relocation.Buckets) :
  Relocation.bucket_get k
    (fold_left (fun o tab =>
                  Relocation.bucket_push (Tab.cookieStoreId tab) (Tab.id tab) o)
               selectedTabs o)
  = Relocation.bucket_get k o ++ bucket_of k selectedTabs.
Proof.
  revert o. induction selectedTabs as [|t rest IH]; intros o; simpl.
  - now rewrite app_nil_r.
  - rewrite IH, get_bucket_push, <- app_assoc. f_equal.
    unfold bucket_of. simpl. now destruct (String.eqb (Tab.cookieStoreId t) k).
Qed.

Lemma get_group (k : string) (selectedTabs : list Tab.t) :
  Relocation.bucket_get k (Relocation.group selectedTabs) = bucket_of k selectedTabs.
Proof. unfold Relocation.group. now rewrite get_fold. Qed.

Lemma get_bucket_delete (k d : string) (o : Relocation.Buckets) :
  k <> d ->
  Relocation.bucket_get k (Relocation.bucket_delete d o) = Relocation.bucket_get k o.
Proof.
  intros Hk. induction o as [|[k' vs] o IH]; simpl; [reflexivity|].
  destruct (String.eqb_spec k' d) as [->|Hd]; simpl.
  - destruct (String.eqb_spec k d); [contradiction|]. exact IH.
  - destruct (String.eqb k k'); [reflexivity|exact IH].
Qed.

Lemma NoDup_containers (selectedTabs : list Tab.t) : NoDup (containers selectedTabs).
Proof.
  induction selectedTabs as [|t rest IH]; simpl; constructor.
  - rewrite filter_In. intros [_ H]. now rewrite String.eqb_refl in H.
  - now apply NoDup_filter.
Qed.

Lemma indexOf_absent (x : string) (a : list string) :
  Relocation.indexOf x a = -1 <-> ~ In x a.
Proof.
  induction a as [|y a IH]; simpl; [tauto|].
  destruct (String.eqb_spec x y) as [->|Hxy].
  - split; [discriminate|]. intros H. exfalso. apply H. now left.
  - destruct (Z.eqb_spec (Relocation.indexOf x a) (-1)) as [E|E].
    + split; [|reflexivity]. intros _ [H|H]; [congruence|]. now apply IH.
    + assert (0 <= Relocation.indexOf x a).
      { clear -E. induction a as [|z a IHa]; simpl in *; [congruence|].
        destruct (String.eqb x z); [lia|].
        destruct (Z.eqb_spec (Relocation.indexOf x a) (-1)); [congruence|].
        specialize (IHa n). lia. }
      split; [lia|]. intros H1. exfalso. apply E, IH. tauto.
Qed.

Lemma indexOf_nonneg (x : string) (a : list string) :
  In x a -> 0 <= Relocation.indexOf x a.
Proof.
  induction a as [|y a IH]; simpl; [tauto|]. intros H.
  destruct (String.eqb_spec x y) as [->|Hxy]; [lia|].
  destruct H as [H|H]; [congruence|]. specialize (IH H).
  destruct (Z.eqb_spec (Relocation.indexOf x a) (-1)); lia.
Qed.

(** Splicing out the index [indexOf] found drops that key and no other. *)
Lemma splice_indexOf (x : string) (a : list string) :
  NoDup a -> In x a ->
  Relocation.splice1 (Z.to_nat (Relocation.indexOf x a)) a
  = filter (fun k => negb (String.eqb k x)) a.
Proof.
  induction a as [|y a IH]; simpl; [tauto|]. intros Hnd Hin.
  inversion Hnd as [|? ? Hy Hnd']; subst.
  destruct (String.eqb_spec x y) as [->|Hxy].
  - rewrite String.eqb_refl. simpl.
    symmetry. apply forallb_filter_id. apply forallb_forall. intros k Hk.
    destruct (String.eqb_spec k y); [subst; contradiction|reflexivity].
  - destruct Hin as [Hin|Hin]; [congruence|].
    pose proof (indexOf_nonneg x a Hin) as Hpos.
    destruct (Z.eqb_spec (Relocation.indexOf x a) (-1)); [lia|].
    destruct (String.eqb_spec y x); [congruence|]. simpl.
    replace (Z.to_nat (Relocation.indexOf x a + 1))
      with (S (Z.to_nat (Relocation.indexOf x a))) by lia.
    cbn [Relocation.splice1]. now rewrite IH.
Qed.

Lemma plan_mixed (selectedTabs : list Tab.t) :
  (1 < length (containers selectedTabs))%nat ->
  In "firefox-default" (containers selectedTabs) ->
  Relocation.plan selectedTabs
  = (Relocation.bucket_delete "firefox-default" (Relocation.group selectedTabs),
     filter (fun k => negb (is_default k)) (containers selectedTabs)).
Proof.
  intros Hlen Hin. unfold Relocation.plan. rewrite keys_group.
  destruct (Z.ltb_spec 1 (Z.of_nat (length (containers selectedTabs)))); [|lia].
  destruct (Z.eqb_spec (Relocation.indexOf "firefox-default" (containers selectedTabs)) (-1))
    as [E|E].
  - apply indexOf_absent in E. contradiction.
  - simpl. f_equal. apply splice_indexOf; [apply NoDup_containers|assumption].
Qed.

Lemma plan_plain (selectedTabs : list Tab.t) :
  (length (containers selectedTabs) <= 1)%nat
  \/ ~ In "firefox-default" (containers selectedTabs) ->
  Relocation.plan selectedTabs
  = (Relocation.group selectedTabs, containers selectedTabs).
Proof.
  intros H. unfold Relocation.plan. rewrite keys_group.
  destruct (Z.ltb_spec 1 (Z.of_nat (length (containers selectedTabs)))); simpl;
    [|reflexivity].
  destruct H as [H|H]; [lia|].
  apply indexOf_absent in H. now rewrite H.
Qed.

(** The loop of [moveTabs] runs whatever the switch below it does. *)
Lemma moves_of_run (settings : Settings) (tab : Tab.t) (targetWindowId : option Z)
    (switchToActiveTab : bool) (queried : option (list Tab.t))
    (newWindow : string -> option Z) (activated : bool)
    (selectedTabs : list Tab.t) :
  Relocation.selection tab queried = Some selectedTabs ->
  Relocation.moves
    (Relocation.moveTabs settings tab targetWindowId switchToActiveTab
                         queried newWindow activated)
  = map (fun k =>
           Relocation.moveToWindow (destination settings targetWindowId k)
             (Relocation.bucket_get k (fst (Relocation.plan selectedTabs)))
             (newWindow k))
        (snd (Relocation.plan selectedTabs)).
Proof.
  intros Hsel. unfold Relocation.moveTabs. rewrite Hsel.
  destruct (Relocation.plan selectedTabs) as [filteredTabs cookieIDs]. simpl.
  destruct (switchToActiveTab || _); [|reflexivity].
  destruct (find Tab.active selectedTabs); [|reflexivity].
  now destruct activated.
Qed.

Lemma In_removelast (A : Type) (x : A) (l : list A) : In x (removelast l) -> In x l.
Proof.
  induction l as [|y l IH]; simpl; [tauto|].
  destruct l; [tauto|]. intros [H|H]; auto.
Qed.

Lemma last_Some_In (x : Z) (l : list Z) : last (map Some l) None = Some x -> In x l.
Proof.
  induction l as [|y l IH]; simpl; [discriminate|].
  destruct l as [|z l]; simpl in *; [intros [= ->]; now left|]. auto.
Qed.

(** A move names no tab outside its bucket. *)
Lemma moveToWindow_names (x : Z) (target : option Z) (ids : list Z) (nw : option Z) :
  existsb (names_tab x) (Relocation.moveToWindow target ids nw) = true -> In x ids.
Proof.
  assert (Hex : forall l, existsb (Z.eqb x) l = true -> In x l).
  { intros l H. apply existsb_exists in H. destruct H as [y [Hy E]].
    apply Z.eqb_eq in E. now subst. }
  unfold Relocation.moveToWindow, Relocation.pop.
  destruct (lt1 target); simpl.
  - assert (Hp : match last (map Some ids) None with
                 | Some y => x =? y
                 | None => false
                 end = true -> In x ids).
    { destruct (last (map Some ids) None) as [y|] eqn:E; [|discriminate].
      intros H. apply Z.eqb_eq in H. subst. now apply last_Some_In. }
    destruct nw; simpl; rewrite ?orb_false_r; intros H.
    + apply orb_true_iff in H. destruct H as [H|H]; [auto|].
      apply In_removelast. auto.
    + auto.
  - rewrite orb_false_r. auto.
Qed.

Lemma bucket_of_In (x : Z) (k : string) (selectedTabs : list Tab.t) :
  In x (bucket_of k selectedTabs) ->
  exists t, In t selectedTabs /\ Tab.id t = x /\ Tab.cookieStoreId t = k.
Proof.
  unfold bucket_of. rewrite in_map_iff. intros [t [E H]].
  apply filter_In in H. destruct H as [H1 H2]. apply String.eqb_eq in H2.
  now exists t.
Qed.

Lemma NoDup_map_inj (A B : Type) (f : A -> B) (l : list A) (x y : A) :
  NoDup (map f l) -> In x l -> In y l -> f x = f y -> x = y.
Proof.
  induction l as [|z l IH]; simpl; [tauto|]. intros Hnd Hx Hy E.
  inversion Hnd as [|? ? Hz Hnd']; subst.
  destruct Hx as [->|Hx], Hy as [->|Hy]; auto.
  - exfalso. apply Hz. rewrite E. now apply in_map.
  - exfalso. apply Hz. rewrite <- E. now apply in_map.
Qed.

Example moveTabs_three_containers :
  Relocation.moves
    (Relocation.moveTabs (mkSettings false [container_a])
       (sample_tab 21 true container_a) (Some 7) false
       (Some [sample_tab 21 true container_a; sample_tab 22 false container_b;
              sample_tab 23 false "firefox-default"])
       (fun _ => Some 9) true)
  = [[WindowsCreate (Some 21); TabsMove [] (Some 9) (-1)];
     [TabsMove [22] (Some 7) (-1)]].
Proof. reflexivity. Qed.

(** C1, as stated, fails: with one container tab and one uncontained tab
    highlighted, the only move issued is the container bucket's; no call of
    the run moves the uncontained tab [12]. *)
Lemma moveTabs_default_bucket_left_behind :
  let selectedTabs := [sample_tab 11 true container_a;
                       sample_tab 12 false "firefox-default"] in
  let r := Relocation.moveTabs no_settings (sample_tab 11 true container_a)
             (Some 7) false (Some selectedTabs) (fun _ => None) true in
  containers selectedTabs = [container_a; "firefox-default"]
  /\ Relocation.moves r = [[TabsMove [11] (Some 7) (-1)]]
  /\ existsb (names_tab 12) (Relocation.issued r) = false
  /\ ~ every_tab_moved selectedTabs r.
Proof.
  cbv zeta. repeat split.
  intros H.
  specialize (H (sample_tab 12 false "firefox-default") (or_intror (or_introl eq_refl))).
  discriminate H.
Qed.

(** C1, amended.  When the selection spans more than one container and the
    uncontained one is among them, the uncontained bucket is dropped from
    the processing order: one [moveToWindow] is issued per other container,
    in order of first appearance, to a new window when the container is
    configured moveable and to the target window otherwise, and none of
    these moves names an uncontained tab. *)
Theorem moveTabs_mixed_selection
    (settings : Settings) (tab : Tab.t) (targetWindowId : option Z)
    (switchToActiveTab : bool) (queried : option (list Tab.t))
    (newWindow : string -> option Z) (activated : bool)
    (selectedTabs : list Tab.t) :
  Relocation.selection tab queried = Some selectedTabs ->
  (1 < length (containers selectedTabs))%nat ->
  In "firefox-default" (containers selectedTabs) ->
  NoDup (map Tab.id selectedTabs) ->
  let r := Relocation.moveTabs settings tab targetWindowId switchToActiveTab
             queried newWindow activated in
  Relocation.moves r
  = map (fun k =>
           Relocation.moveToWindow (destination settings targetWindowId k)
             (bucket_of k selectedTabs) (newWindow k))
        (filter (fun k => negb (is_default k)) (containers selectedTabs))
  /\ forall t, In t selectedTabs -> Tab.cookieStoreId t = "firefox-default" ->
       existsb (names_tab (Tab.id t)) (concat (Relocation.moves r)) = false.
Proof.
  intros Hsel Hlen Hin Hnd r.
  assert (Hmoves :
    Relocation.moves r
    = map (fun k =>
             Relocation.moveToWindow (destination settings targetWindowId k)
               (bucket_of k selectedTabs) (newWindow k))
          (filter (fun k => negb (is_default k)) (containers selectedTabs))).
  { unfold r. rewrite (moves_of_run _ _ _ _ _ _ _ _ Hsel), plan_mixed by assumption.
    simpl. apply map_ext_in. intros k Hk. apply filter_In in Hk.
    destruct Hk as [_ Hk]. unfold is_default in Hk.
    destruct (String.eqb_spec k "firefox-default"); [discriminate|].
    now rewrite get_bucket_delete, get_group. }
  split; [exact Hmoves|].
  intros t Ht Hdef.
  destruct (existsb _ _) eqn:E; [|reflexivity]. exfalso.
  apply existsb_exists in E. destruct E as [c [Hc Hn]].
  rewrite Hmoves in Hc. apply in_concat in Hc. destruct Hc as [calls [Hcalls Hc]].
  apply in_map_iff in Hcalls. destruct Hcalls as [k [<- Hk]].
  apply filter_In in Hk. destruct Hk as [_ Hk]. unfold is_default in Hk.
  destruct (String.eqb_spec k "firefox-default") as [|Hne]; [discriminate|].
  assert (Hx : In (Tab.id t) (bucket_of k selectedTabs)).
  { apply (moveToWindow_names _ (destination settings targetWindowId k) _ (newWindow k)).
    apply existsb_exists. now exists c. }
  apply bucket_of_In in Hx. destruct Hx as [t' (Ht' & Eid & Ek)].
  assert (t' = t) by (eapply NoDup_map_inj; eauto).
  subst t'. congruence.
Qed.

Lemma moveTabs_mixed_selection_witness :
  let selectedTabs := [sample_tab 21 true container_a; sample_tab 22 false container_b;
                       sample_tab 23 false "firefox-default"] in
  let r := Relocation.moveTabs (mkSettings false [container_a])
             (sample_tab 21 true container_a) (Some 7) false
             (Some selectedTabs) (fun _ => Some 9) true in
  Relocation.moves r
  = [Relocation.moveToWindow (Some 0) [21] (Some 9);
     Relocation.moveToWindow (Some 7) [22] (Some 9)]
  /\ existsb (names_tab 23) (concat (Relocation.moves r)) = false.
Proof.
  cbv zeta.
  pose (selectedTabs := [sample_tab 21 true container_a; sample_tab 22 false container_b;
                         sample_tab 23 false "firefox-default"]).
  assert (Hlen : (1 < length (containers selectedTabs))%nat) by (simpl; lia).
  assert (Hin : In "firefox-default" (containers selectedTabs))
    by (simpl; right; right; left; reflexivity).
  assert (Hnd : NoDup (map Tab.id selectedTabs)).
  { repeat constructor; simpl; intros H; decompose [or] H; discriminate || assumption. }
  destruct (moveTabs_mixed_selection (mkSettings false [container_a])
              (sample_tab 21 true container_a) (Some 7) false
              (Some selectedTabs) (fun _ => Some 9) true selectedTabs
              eq_refl Hlen Hin Hnd) as [H1 H2].
  split; [exact H1|].
  exact (H2 (sample_tab 23 false "firefox-default")
            (or_intror (or_intror (or_introl eq_refl))) eq_refl).
Defined.

(** ** Switching back to the active tab *)

Example moveTabs_switch_example :
  Relocation.switching
    (Relocation.moveTabs (mkSettings true [])
       (sample_tab 32 true container_a) (Some 7) false
       (Some [sample_tab 31 false container_a; sample_tab 32 true container_a;
              sample_tab 33 false container_a])
       (fun _ => None) true)
  = [TabsUpdate 32 activate; TabsUpdate 31 highlight_inactive;
     TabsUpdate 33 highlight_inactive].
Proof. reflexivity. Qed.

(** C6, at the failing input.  With the forced-switch flag set and no active
    tab in the selection (a tab that is neither highlighted nor active, or a
    highlighted tab whose window answers the query with no tab at all), the
    first disjunct of line 145 lets the switch run without the guard on
    [activeTab] that the second disjunct has: the moves are issued, then
    reading [activeTab.id] on line 151 throws, and no tab is reactivated or
    highlighted. *)
Lemma moveTabs_forced_switch_without_active_tab :
  let tab := Tab.mk 41 1 0 false false false container_a "https://example.org/" "" in
  let r := Relocation.moveTabs (mkSettings true []) tab (Some 7) true
             None (fun _ => None) true in
  let r' := Relocation.moveTabs (mkSettings true []) (sample_tab 42 true container_a)
              (Some 7) true (Some []) (fun _ => None) true in
  (Relocation.selection tab None = Some [tab]
   /\ find Tab.active [tab] = None
   /\ Relocation.moves r = [[TabsMove [41] (Some 7) (-1)]]
   /\ Relocation.switching r = []
   /\ filter marks_active (Relocation.issued r) = []
   /\ Relocation.outcome r = Rejected TypeError)
  /\ (Relocation.issued r' = [TabsQueryHighlighted 1]
      /\ Relocation.outcome r' = Rejected TypeError).
Proof. cbv zeta. repeat split. Qed.

(** X27.  When the selection has an active tab and either the
    forced-switch flag is set or switch-after-move is configured and that
    tab's id is not zero, then, after the loop that issues the moves, the
    active tab is reactivated, and every other tab of the selection is
    marked inactive-but-highlighted only once that call has resolved; the
    reactivation is the only call of the switch that marks a tab active. *)
Theorem moveTabs_switch
    (settings : Settings) (tab : Tab.t) (targetWindowId : option Z)
    (switchToActiveTab : bool) (queried : option (list Tab.t))
    (newWindow : string -> option Z) (activated : bool)
    (selectedTabs : list Tab.t) (a : Tab.t) :
  Relocation.selection tab queried = Some selectedTabs ->
  find Tab.active selectedTabs = Some a ->
  switchToActiveTab = true
  \/ (switchToTabAfterMoving settings = true /\ Tab.id a <> 0) ->
  let r := Relocation.moveTabs settings tab targetWindowId switchToActiveTab
             queried newWindow activated in
  Relocation.switching r
  = TabsUpdate (Tab.id a) activate
    :: (if activated then highlight_others a selectedTabs else [])
  /\ filter marks_active (Relocation.switching r) = [TabsUpdate (Tab.id a) activate]
  /\ Relocation.outcome r = (if activated then Resolved else Rejected HostError).
Proof.
  intros Hsel Ha Hcond r.
  assert (Hc : switchToActiveTab
               || (switchToTabAfterMoving settings && Relocation.truthy (Tab.id a))
               = true).
  { destruct Hcond as [->|[-> Hid]]; [reflexivity|].
    unfold Relocation.truthy. destruct (Z.eqb_spec (Tab.id a) 0); [contradiction|].
    apply orb_true_r. }
  assert (Hr : r = Relocation.mkMoveRun (Relocation.selection_calls tab)
                     (Relocation.moves r)
                     (TabsUpdate (Tab.id a) activate
                      :: (if activated then highlight_others a selectedTabs else []))
                     (if activated then Resolved else Rejected HostError)).
  { unfold r, Relocation.moveTabs. rewrite Hsel, Ha.
    destruct (Relocation.plan selectedTabs) as [filteredTabs cookieIDs].
    rewrite Hc. now destruct activated. }
  rewrite Hr. cbn [Relocation.switching Relocation.outcome].
  split; [reflexivity|]. split; [|reflexivity].
  cbn [filter marks_active activate]. f_equal.
  destruct activated; [|reflexivity].
  unfold highlight_others.
  induction (filter (fun t => negb (Tab.id t =? Tab.id a)) selectedTabs)
    as [|t l IH]; [reflexivity|exact IH].
Qed.

Lemma moveTabs_switch_witness :
  let selectedTabs := [sample_tab 31 false container_a; sample_tab 32 true container_a;
                       sample_tab 33 false container_a] in
  let r := Relocation.moveTabs (mkSettings true []) (sample_tab 32 true container_a)
             (Some 7) false (Some selectedTabs) (fun _ => None) true in
  Relocation.switching r
  = [TabsUpdate 32 activate; TabsUpdate 31 highlight_inactive;
     TabsUpdate 33 highlight_inactive]
  /\ filter marks_active (Relocation.switching r) = [TabsUpdate 32 activate].
Proof.
  cbv zeta.
  assert (Hid : Tab.id (sample_tab 32 true container_a) <> 0) by discriminate.
  destruct (moveTabs_switch (mkSettings true []) (sample_tab 32 true container_a)
              (Some 7) false
              (Some [sample_tab 31 false container_a; sample_tab 32 true container_a;
                     sample_tab 33 false container_a])
              (fun _ => None) true _ (sample_tab 32 true container_a)
              eq_refl eq_refl (or_intror (conj eq_refl Hid))) as (H1 & H2 & _).
  exact (conj H1 H2).
Defined.

(** ** Reopening *)

Section ReopenFacts.

Variable protocol : string -> option string.

Lemma filter_allowed_survivors (selectedTabs : list Tab.t) :
  Forall (fun t => protocol (Tab.url t) <> None) selectedTabs ->
  Reopen.filter_allowed protocol selectedTabs = Some (survivors protocol selectedTabs).
Proof.
  induction 1 as [|t rest Ht _ IH]; simpl; [reflexivity|].
  unfold Reopen.allowed. destruct (protocol (Tab.url t)); [|contradiction].
  now rewrite IH.
Qed.

Lemma all_resolved_Some (A : Type) (xs : list A) :
  Reopen.all_resolved (map Some xs) = Some xs.
Proof. induction xs as [|x xs IH]; simpl; [reflexivity|now rewrite IH]. Qed.

Lemma all_resolved_In (A : Type) (answers : list (option A)) (xs : list A) :
  Reopen.all_resolved answers = Some xs -> ~ In None answers.
Proof.
  revert xs. induction answers as [|[x|] answers IH]; intros xs; simpl.
  - tauto.
  - destruct (Reopen.all_resolved answers); [|discriminate].
    intros _ [H|H]; [discriminate|]. now apply (IH l).
  - discriminate.
Qed.

Lemma ids_designate_active (l : list Tab.t) :
  map Tab.id (Reopen.designate_active l) = map Tab.id l.
Proof.
  unfold Reopen.designate_active. destruct (find Tab.active l); [reflexivity|].
  now destruct l.
Qed.

Lemma length_designate_active (l : list Tab.t) :
  length (Reopen.designate_active l) = length l.
Proof. now rewrite <- (length_map Tab.id), ids_designate_active, length_map. Qed.

Lemma create_designate_active (w : Z) (l : list Tab.t) :
  map (Reopen.create_call w) (Reopen.designate_active l) = recreations w l.
Proof.
  unfold Reopen.designate_active, recreations.
  destruct (find Tab.active l); [reflexivity|]. now destruct l.
Qed.

Lemma creates_of_selection_calls (tab : Tab.t) :
  filter is_create (Relocation.selection_calls tab) = [].
Proof. unfold Relocation.selection_calls. now destruct (Tab.highlighted tab). Qed.

Lemma creates_of_creating (w : Z) (l : list Tab.t) :
  filter is_create (map (Reopen.create_call w) l) = map (Reopen.create_call w) l.
Proof. induction l as [|t l IH]; simpl; [reflexivity|now rewrite IH]. Qed.

Lemma removes_of_selection_calls (tab : Tab.t) :
  filter is_remove (Relocation.selection_calls tab) = [].
Proof. unfold Relocation.selection_calls. now destruct (Tab.highlighted tab). Qed.

Lemma removes_of_creating (w : Z) (l : list Tab.t) :
  filter is_remove (map (Reopen.create_call w) l) = [].
Proof. induction l as [|t l IH]; simpl; [reflexivity|exact IH]. Qed.

Lemma updates_of_selection_calls (tab : Tab.t) :
  filter is_update (Relocation.selection_calls tab) = [].
Proof. unfold Relocation.selection_calls. now destruct (Tab.highlighted tab). Qed.

Lemma updates_of_creating (w : Z) (l : list Tab.t) :
  filter is_update (map (Reopen.create_call w) l) = [].
Proof. induction l as [|t l IH]; simpl; [reflexivity|exact IH]. Qed.

Lemma mutating_selection_calls (tab : Tab.t) :
  filter mutating (Relocation.selection_calls tab) = [].
Proof. unfold Relocation.selection_calls. now destruct (Tab.highlighted tab). Qed.

End ReopenFacts.

Example reopen_three_tabs :
  Reopen.reopenTabs scheme_of (page 1 true "about:config") 2
    (Some [page 1 true "about:config"; page 2 false "https://example.org/";
           page 3 false "http://example.com/"])
    (fun i => Some (fresh_tab i))
  = ([TabsQueryHighlighted 1;
      TabsCreate "https://example.org/" 2 true;
      TabsCreate "http://example.com/" 2 false;
      TabsUpdate 101 highlight_inactive;
      TabsRemove [2; 3]],
     Resolved).
Proof. reflexivity. Qed.

(** C4.  When the host rejects any of the creations a reopen has issued,
    the reopen itself rejects, and it issues neither the removal of the
    original tabs nor any highlight: creations are all it has asked for. *)
Theorem reopen_failed_creation_keeps_originals
    (protocol : string -> option string) (tab : Tab.t) (targetWindowId : Z)
    (queried : option (list Tab.t)) (created : nat -> option Tab.t) (i : nat) :
  let r := Reopen.reopenTabs protocol tab targetWindowId queried created in
  (i < length (filter is_create (fst r)))%nat ->
  created i = None ->
  snd r = Rejected HostError
  /\ filter is_remove (fst r) = []
  /\ filter is_update (fst r) = [].
Proof.
  unfold Reopen.reopenTabs.
  destruct (Relocation.selection tab queried) as [highlightedTabs|]; cbn zeta;
    [|cbn [fst snd]; rewrite creates_of_selection_calls; simpl; lia].
  destruct (Reopen.filter_allowed protocol highlightedTabs) as [[|t filtered]|];
    [cbn [fst snd]; rewrite creates_of_selection_calls; simpl; lia| |
     cbn [fst snd]; rewrite creates_of_selection_calls; simpl; lia].
  set (selectedTabs := Reopen.designate_active (t :: filtered)).
  destruct (Reopen.all_resolved _) as [newTabs|] eqn:E; cbn [fst snd].
  - rewrite !filter_app, creates_of_selection_calls, creates_of_creating.
    intros Hi Hnone. exfalso.
    apply all_resolved_In in E. apply E. rewrite <- Hnone.
    apply in_map, in_seq.
    revert Hi. rewrite !length_app, length_map. simpl.
    match goal with
    | |- context [filter is_create (map ?f ?l)] =>
        replace (filter is_create (map f l)) with (@nil HostCall)
          by (induction l; simpl; auto)
    end.
    simpl. lia.
  - intros _ _. split; [reflexivity|].
    rewrite !filter_app, removes_of_selection_calls, removes_of_creating,
      updates_of_selection_calls, updates_of_creating. auto.
Qed.

Lemma reopen_failed_creation_keeps_originals_witness :
  let r := Reopen.reopenTabs scheme_of (page 2 true "https://example.org/") 2
             (Some [page 2 true "https://example.org/"; page 3 false "http://example.com/"])
             (fun i => if Nat.eqb i 1 then None else Some (fresh_tab i)) in
  fst r = [TabsQueryHighlighted 1;
           TabsCreate "https://example.org/" 2 true;
           TabsCreate "http://example.com/" 2 false]
  /\ snd r = Rejected HostError
  /\ filter is_remove (fst r) = [].
Proof.
  cbv zeta. split; [reflexivity|].
  assert (Hi : (1 < length (filter is_create
                  (fst (Reopen.reopenTabs scheme_of (page 2 true "https://example.org/") 2
                          (Some [page 2 true "https://example.org/";
                                 page 3 false "http://example.com/"])
                          (fun i => if Nat.eqb i 1 then None else Some (fresh_tab i))))))%nat)
    by (simpl; lia).
  destruct (reopen_failed_creation_keeps_originals scheme_of
              (page 2 true "https://example.org/") 2
              (Some [page 2 true "https://example.org/"; page 3 false "http://example.com/"])
              (fun i => if Nat.eqb i 1 then None else Some (fresh_tab i)) 1%nat
              Hi eq_refl) as (H1 & H2 & _).
  exact (conj H1 H2).
Defined.

(** C5, as stated, fails: of three highlighted tabs the one showing
    [about:config] is filtered out, and the removal that ends the reopen
    names the two survivors only; the filtered tab [1] is named by no call
    and stays where it is. *)
Lemma reopen_leaves_filtered_tab :
  let selectedTabs := [page 1 true "about:config"; page 2 false "https://example.org/";
                       page 3 false "http://example.com/"] in
  let r := Reopen.reopenTabs scheme_of (page 1 true "about:config") 2
             (Some selectedTabs) (fun i => Some (fresh_tab i)) in
  snd r = Resolved
  /\ filter is_remove (fst r) = [TabsRemove [2; 3]]
  /\ existsb (names_tab 1) (fst r) = false
  /\ filter is_remove (fst r) <> [TabsRemove (map Tab.id selectedTabs)].
Proof. cbv zeta. repeat split. discriminate. Qed.

(** C5, amended.  For a selection whose URLs all parse: the tabs whose
    scheme is not http, https or ftp are filtered out; with no survivor the
    reopen resolves without a mutating call; otherwise it issues one
    creation per survivor in the target window, with the survivor's URL and
    active flag (the first survivor's set when no survivor is active), then,
    the creations resolved, the highlights of the created tabs that are not
    active and one removal, of the survivors only. *)
Theorem reopen_filters_and_recreates
    (protocol : string -> option string) (tab : Tab.t) (targetWindowId : Z)
    (queried : option (list Tab.t)) (created : nat -> option Tab.t)
    (selectedTabs newTabs : list Tab.t) :
  Relocation.selection tab queried = Some selectedTabs ->
  Forall (fun t => protocol (Tab.url t) <> None) selectedTabs ->
  map created (seq 0 (length (survivors protocol selectedTabs))) = map Some newTabs ->
  let r := Reopen.reopenTabs protocol tab targetWindowId queried created in
  snd r = Resolved
  /\ (survivors protocol selectedTabs = [] ->
      fst r = Relocation.selection_calls tab /\ filter mutating (fst r) = [])
  /\ (survivors protocol selectedTabs <> [] ->
      fst r = Relocation.selection_calls tab
              ++ recreations targetWindowId (survivors protocol selectedTabs)
              ++ highlight_created newTabs
              ++ [TabsRemove (map Tab.id (survivors protocol selectedTabs))]).
Proof.
  intros Hsel Hparse Hcreated. unfold Reopen.reopenTabs.
  rewrite Hsel, (filter_allowed_survivors _ _ Hparse).
  destruct (survivors protocol selectedTabs) as [|t rest] eqn:E; cbn zeta.
  - cbn [fst snd]. split; [reflexivity|]. split; [|congruence].
    intros _. split; [reflexivity|apply mutating_selection_calls].
  - rewrite length_designate_active, Hcreated, all_resolved_Some. cbn [fst snd].
    split; [reflexivity|]. split; [discriminate|]. intros _.
    now rewrite create_designate_active, ids_designate_active.
Qed.

Lemma reopen_filters_and_recreates_witness :
  let selectedTabs := [page 1 true "about:config"; page 2 false "https://example.org/";
                       page 3 false "http://example.com/"] in
  let r := Reopen.reopenTabs scheme_of (page 1 true "about:config") 2
             (Some selectedTabs) (fun i => Some (fresh_tab i)) in
  survivors scheme_of selectedTabs
  = [page 2 false "https://example.org/"; page 3 false "http://example.com/"]
  /\ fst r = [TabsQueryHighlighted 1]
             ++ [TabsCreate "https://example.org/" 2 true;
                 TabsCreate "http://example.com/" 2 false]
             ++ [TabsUpdate 101 highlight_inactive]
             ++ [TabsRemove [2; 3]].
Proof.
  cbv zeta. split; [reflexivity|].
  pose (selectedTabs := [page 1 true "about:config"; page 2 false "https://example.org/";
                         page 3 false "http://example.com/"]).
  assert (Hparse : Forall (fun t => scheme_of (Tab.url t) <> None) selectedTabs)
    by (repeat constructor; discriminate).
  assert (Hne : survivors scheme_of selectedTabs <> []) by discriminate.
  destruct (reopen_filters_and_recreates scheme_of (page 1 true "about:config") 2
              (Some selectedTabs) (fun i => Some (fresh_tab i))
              selectedTabs [fresh_tab 0; fresh_tab 1]
              eq_refl Hparse eq_refl) as (_ & _ & H).
  exact (H Hne).
Defined.

(** ** Dispatch *)

Lemma lastActiveWindow_second_to_last (s : JSSet.t) :
  Dispatch.lastActiveWindow s = second_to_last s.
Proof.
  unfold Dispatch.lastActiveWindow, second_to_last, js_index. simpl.
  destruct (rev s) as [|x [|y l]]; reflexivity.
Qed.

Lemma forced_shift_or_middle (info : Dispatch.OnClickData) :
  Dispatch.forced info = shift_or_middle info.
Proof.
  unfold Dispatch.forced, shift_or_middle.
  destruct (Dispatch.modifiers info) as [|m ms].
  - simpl. now destruct (Dispatch.button info =? 1).
  - replace (0 <? Z.of_nat (length (m :: ms))) with true
      by (symmetry; apply Z.ltb_lt; simpl length; lia).
    rewrite andb_true_l.
    destruct (includes "Shift" (m :: ms)); [reflexivity|].
    rewrite orb_false_l. now destruct (Dispatch.button info =? 1).
Qed.

Lemma click_loop_first_other (tab : Tab.t) (info : Dispatch.OnClickData)
    (last : option Z) (targetWindows : list Window.t) (s : JSSet.t) :
  snd (Dispatch.click_loop tab info last targetWindows s)
  = match first_other tab targetWindows with
    | Some w =>
        Some (Dispatch.mkInvocation tab
                (if gt0 last then last else Some (Window.id w))
                (Dispatch.forced info))
    | None => None
    end.
Proof.
  revert s. induction targetWindows as [|w rest IH]; intros s; simpl; [reflexivity|].
  unfold first_other in *. simpl.
  destruct (Window.id w =? Tab.windowId tab); simpl; [apply IH|reflexivity].
Qed.

Example click_single_window :
  Dispatch.onClicked (sample_tab 5 true "firefox-default")
    (Dispatch.mkClick 0 ["Shift"]) [normal_window 1] [2; 1]
  = ([2; 1], Some (Dispatch.mkInvocation (sample_tab 5 true "firefox-default") None false)).
Proof. reflexivity. Qed.

(** C9, as stated, fails twice.  A shift-click with a single normal window
    calls [moveTabs(tab, null)]: the target is a new window although the
    second-to-last entry [2] is a positive id, and the switch is not
    forced.  The move-tabs command with no second-to-last entry calls
    nothing, although another normal window [3] is live. *)
Lemma dispatch_without_fallback :
  let tab := sample_tab 5 true "firefox-default" in
  snd (Dispatch.onClicked tab (Dispatch.mkClick 0 ["Shift"]) [normal_window 1] [2; 1])
  = Some (Dispatch.mkInvocation tab None false)
  /\ second_to_last [2; 1] = Some 2
  /\ first_other tab [normal_window 1; normal_window 3] = Some (normal_window 3)
  /\ second_to_last [1] = None
  /\ Dispatch.onCommand_moveTabs [tab] [1] = None.
Proof. cbv zeta. repeat split. Qed.

(** C9, amended.  A toolbar click with exactly one live normal window calls
    [moveTabs] with the null target and no forced switch; with any other
    number of windows it calls [moveTabs] for the first window that is not
    the tab's own, if there is one, with the recency set's second-to-last
    entry as target when that is a positive id and that first other window
    otherwise, and with the switch forced exactly when shift is held or the
    middle button is used.  The move-tabs command calls [moveTabs] with the
    second-to-last entry when it is a positive id, never forcing the switch,
    and calls nothing otherwise. *)
Theorem dispatch_contract
    (tab : Tab.t) (info : Dispatch.OnClickData) (targetWindows : list Window.t)
    (current : list Tab.t) (s : JSSet.t) :
  snd (Dispatch.onClicked tab info targetWindows s)
  = click_contract tab info targetWindows s
  /\ Dispatch.onCommand_moveTabs current s = command_contract current s.
Proof.
  split.
  - unfold Dispatch.onClicked, click_contract.
    assert (Hloop :
      snd (Dispatch.click_loop tab info (Dispatch.lastActiveWindow s) targetWindows s)
      = match first_other tab targetWindows with
        | Some w =>
            Some (Dispatch.mkInvocation tab (Some (recent_or s (Window.id w)))
                                        (shift_or_middle info))
        | None => None
        end).
    { rewrite click_loop_first_other, lastActiveWindow_second_to_last,
        forced_shift_or_middle.
      destruct (first_other tab targetWindows) as [w|]; [|reflexivity].
      unfold recent_or, gt0. destruct (second_to_last s) as [x|]; [|reflexivity].
      now destruct (0 <? x). }
    destruct targetWindows as [|w1 [|w2 rest]]; try exact Hloop.
    + reflexivity.
    + replace (Z.of_nat (length (w1 :: w2 :: rest)) =? 1) with false; [exact Hloop|].
      symmetry. apply Z.eqb_neq. simpl length. lia.
  - unfold Dispatch.onCommand_moveTabs, command_contract.
    rewrite lastActiveWindow_second_to_last.
    destruct current as [|tab0 rest]; [reflexivity|].
    replace (0 <? Z.of_nat (length (tab0 :: rest))) with true
      by (symmetry; apply Z.ltb_lt; simpl length; lia).
    unfold gt0. destruct (second_to_last s) as [x|]; [|reflexivity].
    now destruct (0 <? x).
Qed.

(** ** Sorting *)

Lemma string_leb_trans (a b c : string) :
  String.leb a b = true -> String.leb b c = true -> String.leb a c = true.
Proof.
  unfold String.leb.
  destruct (String.compare a b) eqn:Hab; try discriminate;
    destruct (String.compare b c) eqn:Hbc; try discriminate; intros _ _.
  - apply String.compare_eq_iff in Hab, Hbc. subst.
    assert (H : String.compare c c = Eq)
      by (apply (OrderedTypeEx.String_as_OT.cmp_eq c c); reflexivity).
    now rewrite H.
  - apply String.compare_eq_iff in Hab. subst. now rewrite Hbc.
  - apply String.compare_eq_iff in Hbc. subst. now rewrite Hab.
  - apply OrderedTypeEx.String_as_OT.cmp_lt in Hab, Hbc.
    pose proof (OrderedTypeEx.String_as_OT.lt_trans _ _ _ Hab Hbc) as H.
    apply OrderedTypeEx.String_as_OT.cmp_lt in H.
    unfold OrderedTypeEx.String_as_OT.cmp in H. now rewrite H.
Qed.

Section SortingFacts.

Variable toLowerCase : string -> string.

#[local] Abbreviation le := (title_le toLowerCase).
#[local] Abbreviation insert := (Sorting.insert toLowerCase).
#[local] Abbreviation sort := (Sorting.sort toLowerCase).

(** The comparator is not positive exactly when the first title is not
    after the second. *)
Lemma compareTitles_le (a b : Tab.t) :
  (Sorting.compareTitles toLowerCase a b <=? 0)
  = String.leb (toLowerCase (Tab.title a)) (toLowerCase (Tab.title b)).
Proof.
  unfold Sorting.compareTitles, String.ltb, String.leb.
  rewrite (String.compare_antisym (toLowerCase (Tab.title a))).
  destruct (String.compare (toLowerCase (Tab.title b)) (toLowerCase (Tab.title a)));
    reflexivity.
Qed.

Lemma le_total (a b : Tab.t) : le a b \/ le b a.
Proof. apply String.leb_total. Qed.

Lemma le_trans (a b c : Tab.t) : le a b -> le b c -> le a c.
Proof. apply string_leb_trans. Qed.

Lemma insert_perm (x : Tab.t) (l : list Tab.t) : Permutation (x :: l) (insert x l).
Proof.
  induction l as [|y l IH]; simpl; [reflexivity|].
  destruct (Sorting.compareTitles toLowerCase x y <=? 0); [reflexivity|].
  rewrite perm_swap. now apply perm_skip.
Qed.

Lemma sort_perm (l : list Tab.t) : Permutation l (sort l).
Proof.
  induction l as [|x l IH]; simpl; [reflexivity|].
  rewrite <- insert_perm. now apply perm_skip.
Qed.

Lemma insert_sorted (x : Tab.t) (l : list Tab.t) :
  StronglySorted le l -> StronglySorted le (insert x l).
Proof.
  induction 1 as [|y l Hs IH Hy]; simpl.
  - repeat constructor.
  - rewrite compareTitles_le.
    destruct (String.leb _ _) eqn:E.
    + constructor; [now constructor|].
      constructor; [exact E|].
      eapply Forall_impl; [|exact Hy]. intros z Hz. exact (le_trans _ _ _ E Hz).
    + constructor; [exact IH|].
      assert (Hyx : le y x) by (destruct (le_total x y) as [H|H]; [congruence|exact H]).
      eapply Permutation_Forall; [apply insert_perm|]. now constructor.
Qed.

Lemma sort_sorted (l : list Tab.t) : StronglySorted le (sort l).
Proof.
  induction l as [|x l IH]; simpl; [constructor|now apply insert_sorted].
Qed.

Lemma le_refl (a : Tab.t) : le a a.
Proof. destruct (le_total a a); assumption. Qed.

End SortingFacts.

Example sort_titles :
  Sorting.sortSelectedTabs lower
    [titled 1 4 "zebra"; titled 2 6 "Apple"; titled 3 9 "mango"]
  = [TabsMove [2; 3; 1] None 6].
Proof. reflexivity. Qed.

(** C10.  With two highlighted tabs or fewer the sort command issues no
    call.  With more it issues one move, of the highlighted tabs ordered by
    the comparison of their lower-cased titles, placed from the index the
    tab with the first title had when the tabs were queried. *)
Theorem sortSelectedTabs_contract
    (toLowerCase : string -> string) (selectedTabs : list Tab.t) :
  ((length selectedTabs <= 2)%nat ->
   Sorting.sortSelectedTabs toLowerCase selectedTabs = [])
  /\ ((2 < length selectedTabs)%nat ->
      exists first rest,
        Sorting.sortSelectedTabs toLowerCase selectedTabs
        = [TabsMove (map Tab.id (first :: rest)) None (Tab.index first)]
        /\ Permutation selectedTabs (first :: rest)
        /\ StronglySorted (title_le toLowerCase) (first :: rest)
        /\ In first selectedTabs
        /\ forall t, In t selectedTabs -> title_le toLowerCase first t).
Proof.
  unfold Sorting.sortSelectedTabs. split; intros Hlen.
  - destruct (Z.ltb_spec 2 (Z.of_nat (length selectedTabs))); [lia|reflexivity].
  - destruct (Z.ltb_spec 2 (Z.of_nat (length selectedTabs))); [|lia].
    pose proof (sort_perm toLowerCase selectedTabs) as Hperm.
    pose proof (sort_sorted toLowerCase selectedTabs) as Hsorted.
    destruct (Sorting.sort toLowerCase selectedTabs) as [|first rest].
    + apply Permutation_length in Hperm. simpl in Hperm. lia.
    + exists first, rest. split; [reflexivity|]. split; [exact Hperm|].
      split; [exact Hsorted|]. split.
      * apply (Permutation_in _ (Permutation_sym Hperm)). now left.
      * intros t Ht. apply (Permutation_in _ Hperm) in Ht.
        destruct Ht as [<-|Ht]; [apply le_refl|].
        apply StronglySorted_inv in Hsorted. destruct Hsorted as [_ Hall].
        rewrite Forall_forall in Hall. now apply Hall.
Qed.

Lemma sortSelectedTabs_contract_witness :
  Sorting.sortSelectedTabs lower [titled 1 4 "zebra"; titled 2 6 "Apple"] = []
  /\ exists first rest,
       Sorting.sortSelectedTabs lower
         [titled 1 4 "zebra"; titled 2 6 "Apple"; titled 3 9 "mango"]
       = [TabsMove (map Tab.id (first :: rest)) None (Tab.index first)]
       /\ Permutation [titled 1 4 "zebra"; titled 2 6 "Apple"; titled 3 9 "mango"]
                      (first :: rest).
Proof.
  split.
  - apply (proj1 (sortSelectedTabs_contract lower
                    [titled 1 4 "zebra"; titled 2 6 "Apple"])).
    simpl. lia.
  - assert (Hlen : (2 < length [titled 1 4 "zebra"; titled 2 6 "Apple";
                                titled 3 9 "mango"])%nat) by (simpl; lia).
    destruct (proj2 (sortSelectedTabs_contract lower
                       [titled 1 4 "zebra"; titled 2 6 "Apple"; titled 3 9 "mango"])
                    Hlen) as (first & rest & H1 & H2 & _).
    exists first, rest. exact (conj H1 H2).
Defined.

(** ** Menu sessions *)

Section HostFacts.

Import Menus.

Lemma menuid_eqb_eq (a b : MenuId) : menuid_eqb a b = true <-> a = b.
Proof.
  destruct a as [x|x], b as [y|y]; simpl; try (split; discriminate).
  - rewrite String.eqb_eq. split; congruence.
  - rewrite Z.eqb_eq. split; congruence.
Qed.

Lemma menuid_eqb_refl (a : MenuId) : menuid_eqb a a = true.
Proof. now apply menuid_eqb_eq. Qed.

(** Enabling or disabling by name leaves the submenu entries alone. *)
Lemma update_entries (name : string) (b : bool) (h : Host) :
  top_level_names (items h) ->
  submenu_entries (host_update name b h) = submenu_entries h.
Proof.
  unfold submenu_entries, host_update, top_level_names. simpl.
  induction 1 as [|i l Hi _ IH]; simpl; [reflexivity|].
  rewrite IH. destruct (menuid_eqb (item_id i) (Named name)) eqn:E; [|reflexivity].
  apply menuid_eqb_eq in E. simpl.
  destruct Hi as [Hi|Hi]; [rewrite E in Hi; contradiction|].
  now rewrite Hi.
Qed.

Lemma update_top_level (name : string) (b : bool) (h : Host) :
  top_level_names (items h) -> top_level_names (items (host_update name b h)).
Proof.
  unfold host_update, top_level_names. simpl. intros H.
  apply Forall_map. eapply Forall_impl; [|exact H]. intros i Hi.
  now destruct (menuid_eqb (item_id i) (Named name)).
Qed.

Lemma update_registered (name parent : string) (b : bool) (h : Host) :
  registered parent (host_update name b h) = registered parent h.
Proof.
  unfold registered, host_update. simpl.
  induction (items h) as [|i l IH]; simpl; [reflexivity|].
  rewrite IH. now destruct (menuid_eqb (item_id i) (Named name)).
Qed.

Lemma remove_all_items (ids : list MenuId) (h : Host) :
  remove_all ids h
  = mkHost (filter (fun i => negb (listed ids i)) (items h)) (counter h) (refreshes h).
Proof.
  unfold remove_all. revert h. induction ids as [|id ids IH]; intros h; simpl.
  - destruct h as [l c r]. simpl. f_equal.
    symmetry. apply forallb_filter_id. now apply forallb_forall.
  - rewrite IH. unfold host_remove. simpl. f_equal.
    rewrite filter_filter. apply filter_ext. intros i.
    unfold listed. simpl. now rewrite negb_orb.
Qed.

Lemma filter_comm (A : Type) (p q : A -> bool) (l : list A) :
  filter p (filter q l) = filter q (filter p l).
Proof.
  rewrite !filter_filter. apply filter_ext. intros x. apply andb_comm.
Qed.

Lemma remove_all_entries (ids : list MenuId) (h : Host) :
  submenu_entries (remove_all ids h) = without ids (submenu_entries h).
Proof.
  rewrite remove_all_items. unfold submenu_entries, without. simpl.
  apply filter_comm.
Qed.

Lemma remove_all_top_level (ids : list MenuId) (h : Host) :
  top_level_names (items h) -> top_level_names (items (remove_all ids h)).
Proof.
  rewrite remove_all_items. simpl. unfold top_level_names. intros H.
  rewrite Forall_forall in *. intros i Hi. apply filter_In in Hi. now apply H.
Qed.

Lemma listed_named (ids : list MenuId) (i : Item) (name : string) :
  Forall is_issued ids -> item_id i = Named name -> listed ids i = false.
Proof.
  intros Hids E. unfold listed. rewrite E.
  induction Hids as [|id ids Hid _ IH]; simpl; [reflexivity|].
  rewrite IH. now destruct id.
Qed.

Lemma remove_all_registered (ids : list MenuId) (parent : string) (h : Host) :
  Forall is_issued ids ->
  registered parent (remove_all ids h) = registered parent h.
Proof.
  intros Hids. rewrite remove_all_items. unfold registered. simpl.
  induction (items h) as [|i l IH]; simpl; [reflexivity|].
  destruct (menuid_eqb (item_id i) (Named parent)) eqn:E.
  - apply menuid_eqb_eq in E. rewrite (listed_named _ _ _ Hids E). simpl.
    apply menuid_eqb_eq in E. now rewrite E.
  - destruct (listed ids i); simpl; [exact IH|]. now rewrite E.
Qed.

Lemma shown_loop_app (tab : Tab.t) (targetWindows : list Window.t)
    (creating : list CreateProperties) (a b : Z) :
  fst (fst (shown_loop tab targetWindows creating a b))
  = creating ++ requests tab targetWindows.
Proof.
  unfold requests. revert creating a b.
  induction targetWindows as [|w rest IH]; intros creating a b; simpl.
  - now rewrite app_nil_r.
  - destruct (Window.id w =? Tab.windowId tab); [apply IH|].
    destruct (Bool.eqb (Tab.incognito tab) (Window.incognito w));
      rewrite IH, (IH [_]), <- app_assoc; reflexivity.
Qed.

Lemma requests_dynamic (tab : Tab.t) (targetWindows : list Window.t) :
  Forall dynamic (requests tab targetWindows).
Proof.
  unfold requests. induction targetWindows as [|w rest IH]; simpl; [constructor|].
  destruct (Window.id w =? Tab.windowId tab); [exact IH|].
  destruct (Bool.eqb (Tab.incognito tab) (Window.incognito w));
    rewrite shown_loop_app; simpl; constructor; try exact IH;
    split; simpl; eauto.
Qed.

Lemma entries_from_have_parent (c : Z) (ps : list CreateProperties) :
  Forall dynamic ps -> filter has_parent (entries_from c ps) = entries_from c ps.
Proof.
  intros H. revert c. induction H as [|p ps [_ [parent Hp]] _ IH]; intros c; simpl;
    [reflexivity|].
  unfold has_parent at 1. simpl. now rewrite Hp, IH.
Qed.

Lemma entries_from_issued (c : Z) (ps : list CreateProperties) :
  Forall (fun i => is_issued (item_id i)) (entries_from c ps).
Proof.
  revert c. induction ps as [|p ps IH]; intros c; simpl; constructor; simpl; auto.
Qed.

Lemma registered_app (parent : string) (l : list Item) (c : Z) (r : nat)
    (created : list Item) :
  Forall (fun i => is_issued (item_id i)) created ->
  registered parent (mkHost (l ++ created) c r) = registered parent (mkHost l c r).
Proof.
  intros H. unfold registered. simpl. rewrite existsb_app.
  replace (existsb _ created) with false; [apply orb_false_r|].
  symmetry. induction H as [|i created Hi _ IH]; simpl; [reflexivity|].
  rewrite IH. now destruct (item_id i).
Qed.

(** The host serving requests it accepts: one entry each, numbered on from
    its counter, all promises resolving. *)
Lemma create_all_accepted (ps : list CreateProperties) (h : Host) :
  Forall dynamic ps ->
  forallb (accepts h) ps = true ->
  create_all ps h
  = (map (fun i => (item_id i, true)) (entries_from (counter h) ps),
     mkHost (items h ++ entries_from (counter h) ps)
            (counter h + Z.of_nat (length ps)) (refreshes h)).
Proof.
  intros Hdyn. revert h.
  induction Hdyn as [|p ps [Hid [parent Hp]] _ IH]; intros h Hacc.
  - simpl. rewrite app_nil_r, Z.add_0_r. now destruct h.
  - cbn [forallb] in Hacc. apply andb_true_iff in Hacc. destruct Hacc as [Hp1 Hps].
    cbn [create_all]. unfold host_create. rewrite Hp1, Hid.
    set (h1 := mkHost (items h ++ [item_of (Issued (counter h + 1)) p])
                      (counter h + 1) (refreshes h)).
    assert (Hacc1 : forallb (accepts h1) ps = true).
    { rewrite forallb_forall in *. intros q Hq. specialize (Hps q Hq).
      unfold accepts in *. destruct (cp_parentId q) as [par|]; [|reflexivity].
      unfold h1. rewrite registered_app; [now destruct h|].
      repeat constructor. }
    rewrite (IH h1 Hacc1). unfold h1. simpl. rewrite <- app_assoc. simpl.
    do 2 f_equal. lia.
Qed.

End HostFacts.

Section Reachable.

Import Menus.

Lemma take_windows_rest (m : Z) (l rest : list Suspended) (tab : Tab.t) :
  take_windows m l = Some (tab, rest) -> Forall holds_issued l -> Forall holds_issued rest.
Proof.
  revert rest. induction l as [|s l IH]; intros rest; simpl; [discriminate|].
  intros H Hl. inversion Hl as [|? ? Hs Hl']; subst.
  destruct s as [m' tab'|m' c].
  - destruct (m' =? m); [injection H as _ <-; exact Hl'|].
    destruct (take_windows m l) as [[t r]|]; [|discriminate].
    injection H as <- <-. constructor; [exact Hs|]. now apply IH.
  - destruct (take_windows m l) as [[t r]|]; [|discriminate].
    injection H as <- <-. constructor; [exact Hs|]. now apply IH.
Qed.

Lemma take_menus_rest (m : Z) (l rest : list Suspended) (c : list (MenuId * bool)) :
  take_menus m l = Some (c, rest) -> Forall holds_issued l ->
  Forall holds_issued rest /\ Forall (fun r => is_issued (fst r)) c.
Proof.
  revert rest. induction l as [|s l IH]; intros rest; simpl; [discriminate|].
  intros H Hl. inversion Hl as [|? ? Hs Hl']; subst.
  destruct s as [m' tab'|m' c'].
  - destruct (take_menus m l) as [[c0 r]|]; [|discriminate].
    injection H as <- <-. destruct (IH r eq_refl Hl') as [H1 H2].
    split; [now constructor|exact H2].
  - destruct (m' =? m); [injection H as <- <-; now split|].
    destruct (take_menus m l) as [[c0 r]|]; [|discriminate].
    injection H as <- <-. destruct (IH r eq_refl Hl') as [H1 H2].
    split; [now constructor|exact H2].
Qed.

Lemma settled_ids_issued (c : list (MenuId * bool)) (ids : list MenuId) :
  settled_ids c = Some ids -> Forall (fun r => is_issued (fst r)) c ->
  Forall is_issued ids.
Proof.
  unfold settled_ids. destruct (forallb snd c); [|discriminate].
  intros [= <-] H. now apply Forall_map.
Qed.

(** Whatever the host answers, serving an [onMenuShown]'s requests issues
    numbers only: it registers no name. *)
Lemma create_all_names (ps : list CreateProperties) (h : Host) :
  Forall dynamic ps ->
  Forall (fun r => is_issued (fst r)) (fst (create_all ps h))
  /\ (forall name, registered name (snd (create_all ps h)) = registered name h)
  /\ (top_level_names (items h) -> top_level_names (items (snd (create_all ps h)))).
Proof.
  intros Hdyn. revert h.
  induction Hdyn as [|p ps [Hid _] _ IH]; intros h; cbn [create_all].
  - simpl. auto.
  - unfold host_create. rewrite Hid. destruct (accepts h p); cbv beta iota.
    + set (h1 := mkHost (items h ++ [item_of (Issued (counter h + 1)) p])
                        (counter h + 1) (refreshes h)).
      destruct (IH h1) as (H1 & H2 & H3).
      destruct (create_all ps h1) as [rs h2]. cbn [fst snd] in *.
      split; [constructor; [exact I|exact H1]|]. split.
      * intros name. rewrite H2. unfold h1.
        rewrite registered_app; [now destruct h|repeat constructor].
      * intros Htop. apply H3. unfold h1. simpl.
        apply Forall_app. split; [exact Htop|]. repeat constructor.
    + set (h1 := mkHost (items h) (counter h + 1) (refreshes h)).
      destruct (IH h1) as (H1 & H2 & H3).
      destruct (create_all ps h1) as [rs h2]. cbn [fst snd] in *.
      split; [constructor; [exact I|exact H1]|]. split.
      * intros name. now rewrite H2.
      * exact H3.
Qed.

(** No step registers or removes a name: the parents registered stay the
    parents registered, whatever happens. *)
Lemma step_keeps_names (st : State) (e : Event) :
  steady st ->
  steady (step st e)
  /\ forall name, registered name (host (step st e)) = registered name (host st).
Proof.
  intros [Htop Hwm Hsus]. destruct e as [tab|m targetWindows|m|]; simpl.
  - split; [|reflexivity]. constructor; simpl; auto.
    apply Forall_app. split; [exact Hsus|]. repeat constructor.
  - destruct (take_windows m (suspended st)) as [[tab rest]|] eqn:Etake;
      [|split; [now constructor|reflexivity]].
    unfold shown_build.
    pose proof (shown_loop_app tab targetWindows [] 0 0) as Hreq.
    destruct (shown_loop tab targetWindows [] 0 0) as [[creating a] b].
    simpl in Hreq. subst creating.
    destruct (create_all_names _ (host st) (requests_dynamic tab targetWindows))
      as (H1 & H2 & H3).
    destruct (create_all (requests tab targetWindows) (host st)) as [rs h1].
    cbn [fst snd] in *. cbv beta iota. split.
    + constructor; cbn [globals host suspended].
      * repeat apply update_top_level. now apply H3.
      * exact Hwm.
      * apply Forall_app. split; [eapply take_windows_rest; eauto|].
        repeat constructor. exact H1.
    + intros name. cbn [host]. now rewrite !update_registered.
  - destruct (take_menus m (suspended st)) as [[creatingMenus rest]|] eqn:Etake;
      [|split; [now constructor|reflexivity]].
    destruct (take_menus_rest _ _ _ _ Etake Hsus) as [Hrest Hc].
    unfold shown_finish.
    destruct (settled_ids creatingMenus) as [ids|] eqn:Eids;
      [|split; [now constructor|reflexivity]].
    pose proof (settled_ids_issued _ _ Eids Hc) as Hids.
    destruct (negb (m =? lastMenuInstanceId (globals st))); simpl.
    + split; [|intros name; now apply remove_all_registered].
      constructor; simpl; auto. now apply remove_all_top_level.
    + split; [now constructor|reflexivity].
  - split.
    + constructor; simpl; auto.
      now apply remove_all_top_level; repeat apply update_top_level.
    + intros name. rewrite remove_all_registered by exact Hwm.
      now rewrite !update_registered.
Qed.



End Reachable.

Section ViewFacts.

Import Menus.

Lemma accepts_by_registered (reg : string -> bool) (h : Host)
    (ps : list CreateProperties) :
  (forall name, registered name h = reg name) ->
  forallb (accepts h) ps = forallb (accepts_by reg) ps.
Proof.
  intros Hreg. induction ps as [|p ps IH]; simpl; [reflexivity|].
  rewrite IH. unfold accepts, accepts_by.
  destruct (cp_parentId p); [now rewrite Hreg|reflexivity].
Qed.

(** Lines 205-232 on a host that accepts what is asked. *)
Lemma shown_build_accepted (tab : Tab.t) (targetWindows : list Window.t) (h : Host) :
  top_level_names (items h) ->
  accepted h tab targetWindows = true ->
  let created := entries_from (counter h) (requests tab targetWindows) in
  let h' := snd (shown_build tab targetWindows h) in
  fst (shown_build tab targetWindows h) = map (fun i => (item_id i, true)) created
  /\ submenu_entries h' = submenu_entries h ++ created
  /\ counter h' = counter h + Z.of_nat (length (requests tab targetWindows))
  /\ top_level_names (items h')
  /\ forall name, registered name h' = registered name h.
Proof.
  intros Htop Hacc. unfold shown_build.
  pose proof (shown_loop_app tab targetWindows [] 0 0) as Hreq.
  destruct (shown_loop tab targetWindows [] 0 0) as [[creating a] b].
  simpl in Hreq. subst creating.
  pose proof (requests_dynamic tab targetWindows) as Hdyn.
  rewrite (create_all_accepted _ h Hdyn Hacc). cbn zeta. cbn [fst snd].
  set (created := entries_from (counter h) (requests tab targetWindows)).
  set (h1 := mkHost (items h ++ created) _ _).
  assert (Htop1 : top_level_names (items h1)).
  { unfold h1, top_level_names. simpl. apply Forall_app. split; [exact Htop|].
    eapply Forall_impl; [|apply entries_from_issued]. intros i Hi. now left. }
  split; [reflexivity|]. split; [|split; [|split]].
  - rewrite !update_entries by (try apply update_top_level; exact Htop1).
    unfold submenu_entries, h1. simpl. rewrite filter_app. f_equal.
    now apply entries_from_have_parent.
  - reflexivity.
  - now repeat apply update_top_level.
  - intros name. rewrite !update_registered. unfold h1.
    rewrite registered_app by apply entries_from_issued. now destruct h.
Qed.

Lemma view_step_sound (reg : string -> bool) (st : State) (e : Event) (v' : View) :
  steady st ->
  (forall name, registered name (host st) = reg name) ->
  view_step reg (view st) e = Some v' ->
  view (step st e) = v'.
Proof.
  intros [Htop Hwm Hsus] Hreg. destruct e as [tab|m targetWindows|m|]; simpl.
  - now intros [= <-].
  - destruct (take_windows m (suspended st)) as [[tab rest]|] eqn:Etake;
      [|now intros [= <-]].
    rewrite <- (accepts_by_registered reg (host st) _ Hreg).
    destruct (forallb _ _) eqn:Hacc; [|discriminate]. intros [= <-].
    destruct (shown_build_accepted tab targetWindows (host st) Htop Hacc)
      as (H1 & H2 & H3 & _).
    destruct (shown_build tab targetWindows (host st)) as [creatingMenus h'].
    simpl in *. subst creatingMenus. unfold view. simpl. now rewrite H2, H3.
  - destruct (take_menus m (suspended st)) as [[creatingMenus rest]|] eqn:Etake;
      [|now intros [= <-]].
    unfold shown_finish.
    destruct (settled_ids creatingMenus) as [ids|]; [|now intros [= <-]].
    destruct (negb (m =? lastMenuInstanceId (globals st))); intros [= <-];
      [|reflexivity].
    unfold view. simpl. rewrite remove_all_entries, remove_all_items. reflexivity.
  - intros [= <-]. unfold view. simpl.
    rewrite remove_all_entries, !update_entries
      by (try apply update_top_level; exact Htop).
    rewrite remove_all_items. reflexivity.
Qed.

Lemma view_run_sound (reg : string -> bool) (events : list Event) (st : State)
    (v' : View) :
  steady st ->
  (forall name, registered name (host st) = reg name) ->
  view_run reg events (view st) = Some v' ->
  view (run events st) = v'.
Proof.
  revert st. induction events as [|e events IH]; intros st Hst Hreg; simpl.
  - now intros [= <-].
  - destruct (view_step reg (view st) e) as [v1|] eqn:E; [|discriminate].
    rewrite <- (view_step_sound reg st e v1 Hst Hreg E).
    destruct (step_keeps_names st e Hst) as [Hst1 Hreg1].
    apply IH; [exact Hst1|]. intros name. now rewrite Hreg1.
Qed.

End ViewFacts.

Section Freshness.

Import Menus.

Lemma without_app (ids : list MenuId) (l1 l2 : list Item) :
  without ids (l1 ++ l2) = without ids l1 ++ without ids l2.
Proof. apply filter_app. Qed.

Lemma without_self (l : list Item) : without (ids_of l) l = [].
Proof.
  unfold without, ids_of.
  assert (H : forall l0, incl l l0 ->
              filter (fun i => negb (listed (map item_id l0) i)) l = []).
  { induction l as [|i l IH]; intros l0 Hincl; simpl; [reflexivity|].
    replace (listed (map item_id l0) i) with true.
    - simpl. apply IH. intros x Hx. apply Hincl. now right.
    - symmetry. unfold listed. apply existsb_exists. exists (item_id i).
      split; [apply in_map, Hincl; now left|apply menuid_eqb_refl]. }
  apply H, incl_refl.
Qed.

Lemma without_unlisted (ids : list MenuId) (l : list Item) :
  Forall (fun i => listed ids i = false) l -> without ids l = l.
Proof.
  intros H. unfold without. apply forallb_filter_id. apply forallb_forall.
  rewrite Forall_forall in H. intros i Hi. now rewrite (H i Hi).
Qed.

Lemma entries_from_numbers (c : Z) (ps : list CreateProperties) :
  Forall (fun i => exists n, item_id i = Issued n /\ c < n <= c + Z.of_nat (length ps))
         (entries_from c ps).
Proof.
  revert c. induction ps as [|p ps IH]; intros c; simpl length; simpl entries_from;
    constructor.
  - exists (c + 1). simpl. split; [reflexivity|lia].
  - eapply Forall_impl; [|apply IH]. intros i [n [E Hn]]. exists n. split; [exact E|lia].
Qed.

Lemma listed_outside (a : Z) (ps : list CreateProperties) (i : Item) :
  match item_id i with
  | Issued n => n <= a \/ a + Z.of_nat (length ps) < n
  | Named _ => True
  end ->
  listed (ids_of (entries_from a ps)) i = false.
Proof.
  intros Hi. unfold listed, ids_of.
  destruct (existsb _ _) eqn:E; [|reflexivity]. exfalso.
  apply existsb_exists in E. destruct E as [id [Hid E]].
  apply menuid_eqb_eq in E. apply in_map_iff in Hid. destruct Hid as [j [Ej Hj]].
  pose proof (entries_from_numbers a ps) as H. rewrite Forall_forall in H.
  destruct (H j Hj) as [n [En Hn]]. rewrite E, <- Ej, En in Hi. lia.
Qed.

(** Removing a session's entries leaves what was there before it alone. *)
Lemma without_entries_older (c0 c : Z) (ps : list CreateProperties) (l : list Item) :
  numbered_upto c0 l -> c0 <= c -> without (ids_of (entries_from c ps)) l = l.
Proof.
  intros Hl Hc. apply without_unlisted. eapply Forall_impl; [|exact Hl].
  intros i Hi. apply (listed_outside c). cbv beta in Hi.
  destruct (item_id i); [exact I|lia].
Qed.

(** Removing a session's entries leaves another session's alone. *)
Lemma without_entries_other (c1 c2 : Z) (ps1 ps2 : list CreateProperties) :
  c1 + Z.of_nat (length ps1) <= c2 \/ c2 + Z.of_nat (length ps2) <= c1 ->
  without (ids_of (entries_from c1 ps1)) (entries_from c2 ps2) = entries_from c2 ps2.
Proof.
  intros Hc. apply without_unlisted.
  eapply Forall_impl; [|apply entries_from_numbers].
  intros i [n [E Hn]]. apply (listed_outside c1). rewrite E. lia.
Qed.

(** Removing the registered ids leaves entries issued later alone. *)
Lemma without_registered_newer (c0 c : Z) (ids : list MenuId)
    (ps : list CreateProperties) :
  Forall (issued_upto c0) ids -> c0 <= c ->
  without ids (entries_from c ps) = entries_from c ps.
Proof.
  intros Hids Hc. apply without_unlisted.
  eapply Forall_impl; [|apply entries_from_numbers].
  intros i [n [E Hn]]. unfold listed. rewrite E.
  destruct (existsb _ _) eqn:Ex; [|reflexivity]. exfalso.
  apply existsb_exists in Ex. destruct Ex as [id [Hid Eid]].
  apply menuid_eqb_eq in Eid. subst id.
  rewrite Forall_forall in Hids. specialize (Hids _ Hid). simpl in Hids. lia.
Qed.

Lemma numbered_upto_without (c : Z) (ids : list MenuId) (l : list Item) :
  numbered_upto c l -> numbered_upto c (without ids l).
Proof.
  unfold numbered_upto, without. rewrite !Forall_forall. intros H i Hi.
  apply filter_In in Hi. now apply H.
Qed.

Lemma settled_ids_created (l : list Item) :
  settled_ids (map (fun i => (item_id i, true)) l) = Some (ids_of l).
Proof.
  unfold settled_ids, ids_of.
  replace (forallb snd (map (fun i => (item_id i, true)) l)) with true.
  - now rewrite map_map.
  - symmetry. apply forallb_forall. intros r Hr.
    apply in_map_iff in Hr. now destruct Hr as [i [<- _]].
Qed.

Lemma describe_entries (c : Z) (tab : Tab.t) (targetWindows : list Window.t) :
  map describe (entries_from c (requests tab targetWindows)) = requests tab targetWindows.
Proof.
  assert (H : Forall (fun p => cp_id p = None /\ cp_enabled p = None)
                     (requests tab targetWindows)).
  { unfold requests. induction targetWindows as [|w rest IH]; simpl; [constructor|].
    destruct (Window.id w =? Tab.windowId tab); [exact IH|].
    destruct (Bool.eqb (Tab.incognito tab) (Window.incognito w));
      rewrite shown_loop_app; simpl; constructor; try exact IH; split; reflexivity. }
  revert c. induction H as [|p ps [H1 H2] _ IH]; intros c; simpl; [reflexivity|].
  rewrite IH. f_equal. destruct p as [i par t en oc]. simpl in *. subst.
  reflexivity.
Qed.

Lemma idle_steady (st : State) : idle st -> steady st.
Proof.
  intros [Hs Hc Hr]. constructor.
  - eapply Forall_impl; [|exact Hc]. intros i Hi. cbv beta in *.
    destruct (item_id i); [now right|left; exact I].
  - eapply Forall_impl; [|exact Hr]. intros id Hid. destruct id; [exact Hid|exact I].
  - rewrite Hs. constructor.
Qed.

Lemma idle_numbered (st : State) :
  idle st -> numbered_upto (counter (host st)) (submenu_entries (host st)).
Proof.
  intros [_ Hc _]. unfold numbered_upto, submenu_entries.
  rewrite Forall_forall in *. intros i Hi. apply filter_In in Hi.
  destruct Hi as [Hi _]. specialize (Hc i Hi). cbv beta in Hc.
  destruct (item_id i); [exact I|exact Hc].
Qed.

End Freshness.

Section Overlap.

Import Menus.

Lemma eqb_next_l (n : Z) : (n =? n + 1) = false.
Proof. apply Z.eqb_neq. lia. Qed.

Lemma eqb_next_r (n : Z) : (n + 1 =? n) = false.
Proof. apply Z.eqb_neq. lia. Qed.

Ltac view_compute :=
  repeat (cbn [view_run view_step view v_globals v_entries v_counter v_suspended
               take_windows take_menus app negb
               globals host suspended
               windowMenuIds lastMenuInstanceId nextMenuInstanceId];
          rewrite ?Z.eqb_refl, ?eqb_next_l, ?eqb_next_r, ?settled_ids_created).

Ltac interleavings :=
  repeat match goal with
         | H : Interleave _ _ _ |- _ => inversion H; subst; clear H
         end.

Ltac tidy c0 :=
  repeat first
    [ rewrite without_app
    | rewrite without_self
    | rewrite without_entries_other by lia
    | rewrite (without_entries_older c0)
        by (try apply numbered_upto_without; (assumption || lia))
    | rewrite (without_registered_newer c0) by (assumption || lia) ];
  rewrite ?app_nil_r, <- ?app_assoc; cbn [app].

Ltac settle c0 c1 :=
  cbn [v_entries v_globals v_suspended windowMenuIds lastMenuInstanceId];
  first [ exists c0; split; [tidy c0; reflexivity|]; now auto
        | exists c1; split; [tidy c0; reflexivity|]; now auto ].

(** X26.  Take an idle state, and two menu-shown sessions of which the newer
    is shown (after the menu was hidden, or not) while the older one has not
    settled, all creations being accepted by the host.  However the host
    orders its answers, once both have settled the submenu holds what it
    held before (less what hiding removed) followed by exactly the newer
    session's entries, one per request; those are the ids registered as
    live; the older session has removed what it created and registered
    nothing. *)
Theorem overlapping_sessions_settle
    (st0 : State) (tab1 tab2 : Tab.t) (wins1 wins2 : list Window.t)
    (hidden : bool) (schedule : list Event) :
  idle st0 ->
  accepted (host st0) tab1 wins1 = true ->
  accepted (host st0) tab2 wins2 = true ->
  let m1 := nextMenuInstanceId (globals st0) in
  let m2 := m1 + 1 in
  overlapping [WindowsAnswered m1 wins1; MenusSettled m1]
              (if hidden then [MenuHidden] else [])
              (MenuShown tab2)
              [WindowsAnswered m2 wins2; MenusSettled m2]
              schedule ->
  let st := run (MenuShown tab1 :: schedule) st0 in
  let before := if hidden
                then without (windowMenuIds (globals st0)) (submenu_entries (host st0))
                else submenu_entries (host st0) in
  exists created,
    submenu_entries (host st) = before ++ created
    /\ map describe created = requests tab2 wins2
    /\ windowMenuIds (globals st) = ids_of created
    /\ lastMenuInstanceId (globals st) = m2
    /\ suspended st = [].
Proof.
  intros Hidle Hacc1 Hacc2 m1 m2 Hover st before.
  pose proof (idle_steady _ Hidle) as Hsteady.
  pose proof (idle_numbered _ Hidle) as Hbase.
  destruct Hidle as [Hsus _ Hwm].
  destruct st0 as [[wm0 last0 n] h0 sus0].
  cbn [globals host suspended windowMenuIds nextMenuInstanceId] in *.
  subst sus0 m1 m2.
  set (reg := fun name => registered name h0).
  assert (Hreg : forall name, registered name h0 = reg name) by reflexivity.
  change (forallb (accepts_by reg) (requests tab1 wins1) = true) in Hacc1.
  change (forallb (accepts_by reg) (requests tab2 wins2) = true) in Hacc2.
  set (c0 := counter h0) in *.
  set (base := submenu_entries h0) in *.
  assert (Hfinish :
    forall v,
      view_run reg (MenuShown tab1 :: schedule)
               (mkView (mkGlobals wm0 last0 n) base c0 []) = Some v ->
      (exists c,
         v_entries v = before ++ entries_from c (requests tab2 wins2)
         /\ windowMenuIds (v_globals v) = ids_of (entries_from c (requests tab2 wins2))
         /\ lastMenuInstanceId (v_globals v) = n + 1
         /\ v_suspended v = []) ->
      exists created,
        submenu_entries (host st) = before ++ created
        /\ map describe created = requests tab2 wins2
        /\ windowMenuIds (globals st) = ids_of created
        /\ lastMenuInstanceId (globals st) = n + 1
        /\ suspended st = []).
  { intros v Hv (c & H1 & H2 & H3 & H4).
    apply (view_run_sound reg _ _ _ Hsteady Hreg) in Hv. subst v.
    exists (entries_from c (requests tab2 wins2)).
    split; [exact H1|]. split; [apply describe_entries|]. auto. }
  destruct Hover as (done & pending & pre & post & Hsplit & Hne & Hpre & Hpost & ->).
  destruct done as [|d1 [|d2 done]]; cbn [app] in Hsplit.
  - subst pending. destruct hidden; interleavings;
      (eapply Hfinish;
       [view_compute; rewrite ?Hacc1, ?Hacc2; view_compute;
        rewrite ?Hacc1, ?Hacc2; view_compute; reflexivity|]);
      subst before; settle c0 (c0 + Z.of_nat (length (requests tab1 wins1))).
  - injection Hsplit as <- <-. destruct hidden; interleavings;
      (eapply Hfinish;
       [view_compute; rewrite ?Hacc1, ?Hacc2; view_compute;
        rewrite ?Hacc1, ?Hacc2; view_compute; reflexivity|]);
      subst before; settle c0 (c0 + Z.of_nat (length (requests tab1 wins1))).
  - exfalso. injection Hsplit as _ _ Hrest.
    destruct done; [|discriminate]. destruct pending; [|discriminate].
    now apply Hne.
Qed.

End Overlap.

Section Builds.

Import Menus.

Lemma shown_loop_counts (tab : Tab.t) (targetWindows : list Window.t)
    (creating : list CreateProperties) (a b : Z) :
  shown_loop tab targetWindows creating a b
  = (creating ++ expected_requests tab targetWindows,
     a + move_targets tab targetWindows,
     b + reopen_targets tab targetWindows).
Proof.
  unfold expected_requests, move_targets, reopen_targets, other_windows.
  revert creating a b.
  induction targetWindows as [|w rest IH]; intros creating a b; simpl.
  - now rewrite app_nil_r, !Z.add_0_r.
  - destruct (Window.id w =? Tab.windowId tab); simpl; [apply IH|].
    fold (same_privacy tab w).
    destruct (same_privacy tab w); rewrite IH; simpl; rewrite <- ?app_assoc; simpl;
      rewrite ?Zpos_P_of_succ_nat; repeat (f_equal; try lia).
Qed.

Lemma requests_expected (tab : Tab.t) (targetWindows : list Window.t) :
  requests tab targetWindows = expected_requests tab targetWindows.
Proof. unfold requests. now rewrite shown_loop_counts. Qed.

End Builds.

Example menu_three_windows :
  let tab := Tab.mk 5 1 0 true true false "firefox-default" "https://example.org/" "" in
  Menus.host
    (Menus.run [Menus.MenuShown tab;
                Menus.WindowsAnswered 1 [titled_window 1 false "one";
                                         titled_window 3 false "three"];
                Menus.MenusSettled 1] started)
  = Menus.mkHost
      [Menus.mkItem (Menus.Named "move-menu") None "Tab Mover" true None;
       Menus.mkItem (Menus.Issued 1) (Some "move-menu") "three" true
                    (Some (Menus.MoveTabsTo 3))]
      1 1.
Proof. reflexivity. Qed.

Lemma overlapping_sessions_settle_witness :
  let tab := Tab.mk 5 1 0 true true false "firefox-default" "https://example.org/" "" in
  let snapshot := [titled_window 1 false "one"; titled_window 3 false "three"] in
  let st := Menus.run [Menus.MenuShown tab; Menus.MenuHidden; Menus.MenuShown tab;
                       Menus.WindowsAnswered 2 snapshot; Menus.WindowsAnswered 1 snapshot;
                       Menus.MenusSettled 2; Menus.MenusSettled 1] started in
  exists created,
    Menus.submenu_entries (Menus.host st) = created
    /\ map describe created = [move_request (titled_window 3 false "three")]
    /\ Menus.windowMenuIds (Menus.globals st) = ids_of created.
Proof.
  cbv zeta.
  assert (Hidle : idle started).
  { constructor; [reflexivity| |constructor].
    repeat constructor. }
  assert (Hover :
    overlapping [Menus.WindowsAnswered 1 [titled_window 1 false "one";
                                          titled_window 3 false "three"];
                 Menus.MenusSettled 1]
                [Menus.MenuHidden]
                (Menus.MenuShown
                   (Tab.mk 5 1 0 true true false "firefox-default"
                           "https://example.org/" ""))
                [Menus.WindowsAnswered 2 [titled_window 1 false "one";
                                          titled_window 3 false "three"];
                 Menus.MenusSettled 2]
                [Menus.MenuHidden;
                 Menus.MenuShown
                   (Tab.mk 5 1 0 true true false "firefox-default"
                           "https://example.org/" "");
                 Menus.WindowsAnswered 2 [titled_window 1 false "one";
                                          titled_window 3 false "three"];
                 Menus.WindowsAnswered 1 [titled_window 1 false "one";
                                          titled_window 3 false "three"];
                 Menus.MenusSettled 2; Menus.MenusSettled 1]).
  { exists [], [Menus.WindowsAnswered 1 [titled_window 1 false "one";
                                         titled_window 3 false "three"];
                Menus.MenusSettled 1],
           [Menus.MenuHidden],
           [Menus.WindowsAnswered 2 [titled_window 1 false "one";
                                     titled_window 3 false "three"];
            Menus.WindowsAnswered 1 [titled_window 1 false "one";
                                     titled_window 3 false "three"];
            Menus.MenusSettled 2; Menus.MenusSettled 1].
    split; [reflexivity|]. split; [discriminate|].
    split; [apply interleave_right, interleave_nil|].
    split; [|reflexivity].
    apply interleave_right, interleave_left, interleave_right, interleave_left,
      interleave_nil. }
  destruct (overlapping_sessions_settle started
              (Tab.mk 5 1 0 true true false "firefox-default" "https://example.org/" "")
              (Tab.mk 5 1 0 true true false "firefox-default" "https://example.org/" "")
              [titled_window 1 false "one"; titled_window 3 false "three"]
              [titled_window 1 false "one"; titled_window 3 false "three"]
              true _ Hidle eq_refl eq_refl Hover)
    as (created & H1 & H2 & H3 & _).
  exists created. split; [exact H1|]. split; [exact H2|exact H3].
Defined.

(** C2, at the failing input.  Started as the script starts, with a private
    window [2] open next to the tab's window [1] and a third window [3], the
    menu is shown, hidden and shown again before the first session's window
    list arrives.  Each session asks for an entry under ["reopen-menu"],
    which the host refuses, so each [onMenuShown] throws at the [await] of
    line 233, before the comparison of instance ids on line 235: the stale
    session does not remove the entry it has created for window [3], and
    neither session records an id or refreshes the menu.  The submenu lists
    window [3] twice, and hiding the menu removes neither entry.

    With every creation accepted the stale session still acts on the menu:
    answered last, for a window list without a target, it disables
    ["move-menu"] (lines 229-232 run before the comparison), over the entry
    the newer session has registered. *)
Lemma overlapping_sessions_leave_stale_entry :
  let tab := Tab.mk 5 1 0 true true false "firefox-default" "https://example.org/" "" in
  let snapshot := [titled_window 1 false "one"; titled_window 2 true "two";
                   titled_window 3 false "three"] in
  let entry (n : Z) := Menus.mkItem (Menus.Issued n) (Some "move-menu") "three" true
                                    (Some (Menus.MoveTabsTo 3)) in
  let st := Menus.run [Menus.MenuShown tab; Menus.MenuHidden; Menus.MenuShown tab;
                       Menus.WindowsAnswered 1 snapshot; Menus.WindowsAnswered 2 snapshot;
                       Menus.MenusSettled 1; Menus.MenusSettled 2] started in
  let st' := Menus.run [Menus.MenuShown tab; Menus.MenuShown tab;
                        Menus.WindowsAnswered 2 [titled_window 1 false "one";
                                                 titled_window 3 false "three"];
                        Menus.WindowsAnswered 1 [titled_window 1 false "one"];
                        Menus.MenusSettled 2; Menus.MenusSettled 1] started in
  (requests tab snapshot
   = [reopen_request (titled_window 2 true "two");
      move_request (titled_window 3 false "three")]
   /\ Menus.suspended st = []
   /\ Menus.lastMenuInstanceId (Menus.globals st) = 2
   /\ Menus.submenu_entries (Menus.host st) = [entry 2; entry 4]
   /\ Menus.windowMenuIds (Menus.globals st) = []
   /\ Menus.refreshes (Menus.host st) = 0%nat
   /\ Menus.submenu_entries (Menus.host (Menus.run [Menus.MenuHidden] st))
      = [entry 2; entry 4])
  /\ (Menus.suspended st' = []
      /\ Menus.windowMenuIds (Menus.globals st') = [Menus.Issued 1]
      /\ Menus.items (Menus.host st')
         = [Menus.mkItem (Menus.Named "move-menu") None "Tab Mover" false None;
            entry 1]).
Proof. cbv zeta. repeat split. Qed.


Section BuildContract.

Import Menus.



End BuildContract.


(** * Further properties of the script *)

(** ** The recency set, seeded, focused and cleared *)

Lemma add_In (x y : Z) (s : JSSet.t) : In y (JSSet.add x s) <-> y = x \/ In y s.
Proof.
  unfold JSSet.add. destruct (JSSet.has x s) eqn:E.
  - apply has_In in E. split; [tauto|]. intros [->|H]; assumption.
  - rewrite in_app_iff. simpl. intuition.
Qed.

Lemma NoDup_add (x : Z) (s : JSSet.t) : NoDup s -> NoDup (JSSet.add x s).
Proof.
  intros H. unfold JSSet.add. destruct (JSSet.has x s) eqn:E; [exact H|].
  apply NoDup_app; [exact H|repeat constructor; intros []|].
  intros y Hy [<-|[]]. apply has_In in Hy. congruence.
Qed.

Lemma seed_from (windows : list Window.t) (s : JSSet.t) :
  NoDup s ->
  let s' := fold_left (fun s w => JSSet.add (Window.id w) s) windows s in
  NoDup s' /\ forall x, In x s' <-> In x s \/ In x (map Window.id windows).
Proof.
  revert s. induction windows as [|w rest IH]; intros s Hs; simpl.
  - split; [exact Hs|]. tauto.
  - destruct (IH (JSSet.add (Window.id w) s) (NoDup_add _ _ Hs)) as [H1 H2].
    split; [exact H1|]. intros x. rewrite H2, add_In. intuition.
Qed.

(** X1.  The set seeded at startup holds the id of every window the host
    enumerates, and of no other, each exactly once. *)
Theorem seed_each_window_once (windows : list Window.t) :
  NoDup (Tracker.seed windows)
  /\ forall x, In x (Tracker.seed windows) <-> In x (map Window.id windows).
Proof.
  destruct (seed_from windows [] (NoDup_nil Z)) as [H1 H2].
  split; [exact H1|]. intros x. unfold Tracker.seed. rewrite H2. simpl. tauto.
Qed.

Lemma delete_idempotent (x : Z) (s : JSSet.t) :
  JSSet.delete x (JSSet.delete x s) = JSSet.delete x s.
Proof.
  unfold JSSet.delete. rewrite filter_filter. apply filter_ext.
  intros y. now destruct (negb (y =? x)).
Qed.

Lemma delete_absent (x : Z) (s : JSSet.t) : ~ In x s -> JSSet.delete x s = s.
Proof.
  intros H. unfold JSSet.delete. apply forallb_filter_id, forallb_forall.
  intros y Hy. destruct (Z.eqb_spec y x); [subst; contradiction|reflexivity].
Qed.

Lemma delete_moved (x : Z) (s : JSSet.t) :
  JSSet.delete x (JSSet.delete x s ++ [x]) = JSSet.delete x s.
Proof.
  unfold JSSet.delete at 1. rewrite filter_app. simpl. rewrite Z.eqb_refl. simpl.
  rewrite app_nil_r. apply delete_idempotent.
Qed.

(** X2.  Focusing a window and then closing it leaves the recency set as
    if the window had only been closed: whatever the focus event did to the
    set is undone but for the removal of that window. *)
Theorem focus_then_remove (id : Z) (fetched : option Window.t) (s : JSSet.t) :
  fst (Tracker.onRemoved id (fst (Tracker.onFocusChanged id fetched s)))
  = fst (Tracker.onRemoved id s).
Proof.
  unfold Tracker.onRemoved, Tracker.onFocusChanged. cbn [fst].
  destruct (id =? WINDOW_ID_NONE); [reflexivity|].
  destruct fetched as [window|]; [|reflexivity].
  destruct (negb _); [reflexivity|].
  destruct (0 <? id); [|reflexivity].
  destruct (strict_neq _ id); [|reflexivity].
  cbn [fst]. rewrite add_delete. apply delete_moved.
Qed.

(** X3.  Closing a window the set does not hold changes nothing, and a
    second removal event for the same window changes nothing more. *)
Theorem remove_absent_window (id : Z) (s : JSSet.t) :
  ~ In id s ->
  fst (Tracker.onRemoved id s) = s
  /\ fst (Tracker.onRemoved id (fst (Tracker.onRemoved id s)))
     = fst (Tracker.onRemoved id s).
Proof.
  intros H. unfold Tracker.onRemoved. cbn [fst].
  split; [now apply delete_absent|apply delete_idempotent].
Qed.

Lemma remove_absent_window_witness :
  fst (Tracker.onRemoved 9 [1; 2; 3]) = [1; 2; 3].
Proof.
  assert (H : ~ In 9 [1; 2; 3]).
  { simpl. intros H. decompose [or] H; discriminate || assumption. }
  exact (proj1 (remove_absent_window 9 [1; 2; 3] H)).
Defined.

Lemma most_recent_delete (p id : Z) (s : JSSet.t) :
  most_recent s = Some p -> p <> id -> most_recent (JSSet.delete id s) = Some p.
Proof.
  intros Hp Hne. destruct s as [|x s] using rev_ind; [discriminate|].
  rewrite last_snoc in Hp. injection Hp as ->.
  unfold JSSet.delete. rewrite filter_app. simpl.
  destruct (Z.eqb_spec p id); [contradiction|]. simpl. apply last_snoc.
Qed.

Lemma second_to_last_snoc (s : JSSet.t) (x : Z) :
  second_to_last (s ++ [x]) = most_recent s.
Proof.
  unfold second_to_last. rewrite rev_app_distr. simpl.
  destruct s as [|y s] using rev_ind; [reflexivity|].
  rewrite rev_app_distr. simpl. symmetry. apply last_snoc.
Qed.

(** X4.  After the focus moves from window [p] to another normal window,
    the badge refresh is keyed on [p], and a click on the toolbar button,
    with more than one normal window of which one is not the tab's own,
    moves the tab to [p]: the window the user came from. *)
Theorem focus_then_click_target
    (s : JSSet.t) (id p : Z) (window : Window.t) (tab : Tab.t)
    (info : Dispatch.OnClickData) (targetWindows : list Window.t) (other : Window.t) :
  most_recent s = Some p ->
  0 < p -> 0 < id -> id <> p ->
  Window.type window = "normal" ->
  length targetWindows <> 1%nat ->
  first_other tab targetWindows = Some other ->
  let focused := Tracker.onFocusChanged id (Some window) s in
  snd focused = [Some p]
  /\ most_recent (fst focused) = Some id
  /\ snd (Dispatch.onClicked tab info targetWindows (fst focused))
     = Some (Dispatch.mkInvocation tab (Some p) (shift_or_middle info)).
Proof.
  intros Hp Hpos Hid Hne Htype Hlen Hother focused.
  assert (Hf : focused = (JSSet.delete id s ++ [id], [Some p])).
  { unfold focused.
    rewrite (onFocusChanged_contract id (Some window) s (or_intror Hid)).
    unfold focus_contract.
    destruct (Z.eq_dec id WINDOW_ID_NONE) as [E|_];
      [unfold WINDOW_ID_NONE in E; lia|].
    destruct (string_dec (Window.type window) "normal"); [|contradiction].
    rewrite Hp. destruct (Z.eq_dec p id); [congruence|].
    now rewrite delete_remove. }
  rewrite Hf. cbn [fst snd]. split; [reflexivity|]. split; [apply last_snoc|].
  unfold Dispatch.onClicked.
  replace (Z.of_nat (length targetWindows) =? 1) with false
    by (symmetry; apply Z.eqb_neq; lia).
  rewrite click_loop_first_other, Hother, lastActiveWindow_second_to_last,
    second_to_last_snoc, (most_recent_delete p id s Hp) by congruence.
  unfold gt0. destruct (Z.ltb_spec 0 p); [|lia].
  now rewrite forced_shift_or_middle.
Qed.

Lemma focus_then_click_target_witness :
  let focused := Tracker.onFocusChanged 3 (Some (normal_window 3)) [1; 3; 2] in
  snd focused = [Some 2]
  /\ snd (Dispatch.onClicked (sample_tab 5 true "firefox-default")
            (Dispatch.mkClick 0 []) [normal_window 1; normal_window 2; normal_window 3]
            (fst focused))
     = Some (Dispatch.mkInvocation (sample_tab 5 true "firefox-default") (Some 2) false).
Proof.
  cbv zeta.
  assert (H0 : 0 < 2) by reflexivity.
  assert (H1 : 0 < 3) by reflexivity.
  assert (H2 : 3 <> 2) by discriminate.
  assert (H3 : length [normal_window 1; normal_window 2; normal_window 3] <> 1%nat)
    by discriminate.
  destruct (focus_then_click_target [1; 3; 2] 3 2 (normal_window 3)
              (sample_tab 5 true "firefox-default") (Dispatch.mkClick 0 [])
              [normal_window 1; normal_window 2; normal_window 3] (normal_window 2)
              eq_refl H0 H1 H2 eq_refl H3 eq_refl) as (A & _ & B).
  exact (conj A B).
Defined.

Lemma click_loop_set (tab : Tab.t) (info : Dispatch.OnClickData) (last : option Z)
    (targetWindows : list Window.t) (s : JSSet.t) :
  let s' := fst (Dispatch.click_loop tab info last targetWindows s) in
  s' = s \/ s' = JSSet.delete (Tab.windowId tab) s.
Proof.
  revert s. induction targetWindows as [|w rest IH]; intros s; simpl; [now left|].
  destruct (Z.eqb_spec (Window.id w) (Tab.windowId tab)) as [E|_]; [|now left].
  destruct (Z.of_nat (length (Window.tabs w)) =? 1); [|apply IH].
  rewrite E. destruct (IH (JSSet.delete (Tab.windowId tab) s)) as [-> | ->].
  - now right.
  - right. apply delete_idempotent.
Qed.

(** X5.  A click on the toolbar button never adds a window to the recency
    set and never drops one other than the clicked tab's own: the set is
    unchanged, or has lost exactly the tab's window. *)
Theorem click_only_forgets_own_window
    (tab : Tab.t) (info : Dispatch.OnClickData) (targetWindows : list Window.t)
    (s : JSSet.t) :
  let s' := fst (Dispatch.onClicked tab info targetWindows s) in
  (s' = s \/ s' = JSSet.delete (Tab.windowId tab) s)
  /\ (forall x, In x s' -> In x s)
  /\ (forall x, In x s -> In x s' \/ x = Tab.windowId tab).
Proof.
  cbv zeta.
  assert (H : fst (Dispatch.onClicked tab info targetWindows s) = s
              \/ fst (Dispatch.onClicked tab info targetWindows s)
                 = JSSet.delete (Tab.windowId tab) s).
  { unfold Dispatch.onClicked.
    destruct (Z.of_nat (length targetWindows) =? 1); [now left|].
    apply click_loop_set. }
  split; [exact H|].
  destruct H as [-> | ->]; split; intros x Hx; auto.
  - apply delete_In in Hx. tauto.
  - destruct (Z.eq_dec x (Tab.windowId tab)); [now right|].
    left. apply delete_In. now split.
Qed.

(** ** Moves, bucket by bucket *)

Lemma existsb_eqb_In (x : Z) (l : list Z) : existsb (Z.eqb x) l = true <-> In x l.
Proof.
  rewrite existsb_exists. split.
  - intros [y [Hy E]]. apply Z.eqb_eq in E. now subst.
  - intros H. exists x. split; [assumption|apply Z.eqb_refl].
Qed.

Lemma pop_cases (tabs : list Z) :
  (tabs = [] /\ Relocation.pop tabs = (None, []))
  \/ exists rest x, tabs = rest ++ [x] /\ Relocation.pop tabs = (Some x, rest).
Proof.
  unfold Relocation.pop. destruct tabs as [|y tabs] using rev_ind; [now left|].
  right. exists tabs, y. split; [reflexivity|].
  rewrite map_app. cbn [map]. rewrite last_last, removelast_last. reflexivity.
Qed.

Lemma moveToWindow_names_iff (x : Z) (target : option Z) (tabs : list Z)
    (newWindow : option Z) :
  (lt1 target = true -> newWindow <> None) ->
  existsb (names_tab x) (Relocation.moveToWindow target tabs newWindow) = true
  <-> In x tabs.
Proof.
  intros Hnew. split; [apply moveToWindow_names|]. intros Hx.
  unfold Relocation.moveToWindow. destruct (lt1 target).
  - destruct newWindow as [w|]; [|now exfalso; apply Hnew].
    destruct (pop_cases tabs) as [[-> _]|(rest & y & -> & ->)]; [destruct Hx|].
    simpl. apply in_app_or in Hx. destruct Hx as [Hx|[<-|[]]].
    + apply existsb_eqb_In in Hx. rewrite Hx. now rewrite orb_true_r.
    + now rewrite Z.eqb_refl.
  - simpl. apply existsb_eqb_In in Hx. now rewrite Hx.
Qed.

(** X6.  When the host answers the window creation (or none is needed), the
    calls of one [moveToWindow] name exactly the tabs of its bucket: the one
    popped to seed the new window and the rest that follow it. *)
Theorem moveToWindow_names_its_bucket
    (x : Z) (targetWindowId : option Z) (tabs : list Z) (newWindow : option Z) :
  (lt1 targetWindowId = true -> newWindow <> None) ->
  existsb (names_tab x) (Relocation.moveToWindow targetWindowId tabs newWindow) = true
  <-> In x tabs.
Proof. apply moveToWindow_names_iff. Qed.

Lemma moveToWindow_names_its_bucket_witness :
  existsb (names_tab 4) (Relocation.moveToWindow (Some 0) [4; 5; 6] (Some 9)) = true
  <-> In 4 [4; 5; 6].
Proof.
  apply moveToWindow_names_its_bucket. intros _. discriminate.
Defined.

Lemma containers_In (selectedTabs : list Tab.t) (k : string) :
  In k (containers selectedTabs)
  <-> exists t, In t selectedTabs /\ Tab.cookieStoreId t = k.
Proof.
  induction selectedTabs as [|t rest IH]; simpl.
  - split; [tauto|]. now intros [t [[] _]].
  - rewrite filter_In, IH. split.
    + intros [<-|[[t' [Ht' E]] _]]; [exists t; auto|exists t'; auto].
    + intros [t' [[->|Ht'] E]]; [now left|].
      destruct (String.eqb_spec k (Tab.cookieStoreId t)) as [->|Hne]; [now left|].
      right. split; [now exists t'|reflexivity].
Qed.

Lemma bucket_of_own (t : Tab.t) (selectedTabs : list Tab.t) :
  In t selectedTabs -> In (Tab.id t) (bucket_of (Tab.cookieStoreId t) selectedTabs).
Proof.
  intros Ht. unfold bucket_of. apply in_map, filter_In.
  split; [exact Ht|apply String.eqb_refl].
Qed.

(** X7.  When the selection lies in one container, or holds no uncontained
    tab, and the host answers every window creation, every tab of the
    selection is named by one of the moves: nothing is left behind. *)
Theorem moveTabs_unmixed_moves_all
    (settings : Settings) (tab : Tab.t) (targetWindowId : option Z)
    (switchToActiveTab : bool) (queried : option (list Tab.t))
    (newWindow : string -> option Z) (activated : bool)
    (selectedTabs : list Tab.t) :
  Relocation.selection tab queried = Some selectedTabs ->
  (length (containers selectedTabs) <= 1)%nat
  \/ ~ In "firefox-default" (containers selectedTabs) ->
  (forall k, newWindow k <> None) ->
  every_tab_moved selectedTabs
    (Relocation.moveTabs settings tab targetWindowId switchToActiveTab
                         queried newWindow activated).
Proof.
  intros Hsel Hplain Hnew t Ht.
  rewrite (moves_of_run _ _ _ _ _ _ _ _ Hsel), plan_plain by assumption.
  cbn [fst snd]. apply existsb_exists.
  assert (Hin : existsb (names_tab (Tab.id t))
                  (Relocation.moveToWindow
                     (destination settings targetWindowId (Tab.cookieStoreId t))
                     (Relocation.bucket_get (Tab.cookieStoreId t)
                        (Relocation.group selectedTabs))
                     (newWindow (Tab.cookieStoreId t))) = true).
  { apply moveToWindow_names_iff; [intros _; apply Hnew|].
    rewrite get_group. now apply bucket_of_own. }
  apply existsb_exists in Hin. destruct Hin as [c [Hc Hn]].
  exists c. split; [|exact Hn].
  apply in_concat. eexists. split; [|exact Hc].
  apply in_map_iff. exists (Tab.cookieStoreId t). split; [reflexivity|].
  apply containers_In. now exists t.
Qed.

Lemma moveTabs_unmixed_moves_all_witness :
  every_tab_moved
    [sample_tab 21 true container_a; sample_tab 22 false container_b;
     sample_tab 23 false container_a]
    (Relocation.moveTabs (mkSettings false [container_a])
       (sample_tab 21 true container_a) (Some 7) false
       (Some [sample_tab 21 true container_a; sample_tab 22 false container_b;
              sample_tab 23 false container_a])
       (fun _ => Some 9) true).
Proof.
  apply moveTabs_unmixed_moves_all.
  - reflexivity.
  - right. simpl. intros H. decompose [or] H; discriminate || assumption.
  - intros k. discriminate.
Defined.

Lemma get_deleted (d : string) (o : Relocation.Buckets) :
  Relocation.bucket_get d (Relocation.bucket_delete d o) = [].
Proof.
  induction o as [|[k' vs] o IH]; [reflexivity|].
  unfold Relocation.bucket_delete in *. cbn [filter fst].
  destruct (String.eqb_spec k' d); cbn [negb]; [exact IH|].
  cbn [Relocation.bucket_get]. destruct (String.eqb_spec d k'); [congruence|exact IH].
Qed.

Lemma bucket_get_plan (x : Z) (k : string) (selectedTabs : list Tab.t) :
  In x (Relocation.bucket_get k (fst (Relocation.plan selectedTabs))) ->
  In x (map Tab.id selectedTabs).
Proof.
  assert (Hsub : forall k', In x (bucket_of k' selectedTabs) ->
                            In x (map Tab.id selectedTabs)).
  { intros k' H. apply bucket_of_In in H. destruct H as [t (Ht & <- & _)].
    now apply in_map. }
  unfold Relocation.plan.
  destruct (_ && _); cbn [fst]; [|rewrite get_group; apply Hsub].
  destruct (String.eqb_spec k "firefox-default") as [->|Hne].
  - now rewrite get_deleted.
  - rewrite get_bucket_delete, get_group by assumption. apply Hsub.
Qed.

(** X8.  Whatever the settings, the target and the host's answers, no call
    of a [moveTabs] run names a tab outside the resolved selection. *)
Theorem moveTabs_names_only_selection
    (settings : Settings) (tab : Tab.t) (targetWindowId : option Z)
    (switchToActiveTab : bool) (queried : option (list Tab.t))
    (newWindow : string -> option Z) (activated : bool)
    (selectedTabs : list Tab.t) (x : Z) :
  Relocation.selection tab queried = Some selectedTabs ->
  existsb (names_tab x)
    (Relocation.issued
       (Relocation.moveTabs settings tab targetWindowId switchToActiveTab
                            queried newWindow activated)) = true ->
  In x (map Tab.id selectedTabs).
Proof.
  intros Hsel H. unfold Relocation.issued in H.
  rewrite !existsb_app in H. apply orb_true_iff in H. destruct H as [H|H].
  - exfalso. revert H. unfold Relocation.moveTabs. rewrite Hsel.
    destruct (Relocation.plan selectedTabs) as [o ks].
    assert (Hq : existsb (names_tab x) (Relocation.selection_calls tab) = false)
      by (unfold Relocation.selection_calls; now destruct (Tab.highlighted tab)).
    destruct (switchToActiveTab || _); [|simpl; now rewrite Hq].
    destruct (find Tab.active selectedTabs); [|simpl; now rewrite Hq].
    destruct activated; simpl; now rewrite Hq.
  - apply orb_true_iff in H. destruct H as [H|H].
    + rewrite (moves_of_run _ _ _ _ _ _ _ _ Hsel) in H.
      apply existsb_exists in H. destruct H as [c [Hc Hn]].
      apply in_concat in Hc. destruct Hc as [calls [Hcalls Hc]].
      apply in_map_iff in Hcalls. destruct Hcalls as [k [<- _]].
      apply (bucket_get_plan x k). eapply moveToWindow_names.
      apply existsb_exists. exists c. split; [exact Hc|exact Hn].
    + revert H. unfold Relocation.moveTabs. rewrite Hsel.
      destruct (Relocation.plan selectedTabs) as [o ks].
      destruct (switchToActiveTab || _); [|discriminate].
      destruct (find Tab.active selectedTabs) as [a|] eqn:Ea; [|discriminate].
      apply find_some in Ea. destruct Ea as [Ha _].
      assert (Hfirst : (x =? Tab.id a) = true -> In x (map Tab.id selectedTabs)).
      { intros E. apply Z.eqb_eq in E. subst. now apply in_map. }
      destruct activated; cbn [Relocation.switching existsb names_tab];
        rewrite ?orb_false_r; [|exact Hfirst].
      intros H. apply orb_true_iff in H. destruct H as [H|H]; [auto|].
      apply existsb_exists in H. destruct H as [c [Hc Hn]].
      apply in_map_iff in Hc. destruct Hc as [t [<- Ht]].
      apply filter_In in Ht. destruct Ht as [Ht _].
      simpl in Hn. apply Z.eqb_eq in Hn. subst. now apply in_map.
Qed.

Lemma moveTabs_names_only_selection_witness :
  In 11 (map Tab.id [sample_tab 11 true container_a; sample_tab 12 false "firefox-default"]).
Proof.
  apply (moveTabs_names_only_selection no_settings (sample_tab 11 true container_a)
           (Some 7) false
           (Some [sample_tab 11 true container_a; sample_tab 12 false "firefox-default"])
           (fun _ => None) true); reflexivity.
Defined.

Lemma bucket_of_cons (k : string) (t : Tab.t) (rest : list Tab.t) :
  bucket_of k (t :: rest)
  = (if String.eqb (Tab.cookieStoreId t) k then [Tab.id t] else []) ++ bucket_of k rest.
Proof. unfold bucket_of. simpl. now destruct (String.eqb _ k). Qed.

Lemma bucket_of_absent (k : string) (selectedTabs : list Tab.t) :
  ~ In k (containers selectedTabs) -> bucket_of k selectedTabs = [].
Proof.
  intros H. unfold bucket_of.
  induction selectedTabs as [|t rest IH]; simpl; [reflexivity|].
  destruct (String.eqb_spec (Tab.cookieStoreId t) k) as [E|_].
  - exfalso. apply H. simpl. now left.
  - apply IH. intros Hk. apply H. apply containers_In in Hk.
    destruct Hk as [t' [Ht' E]]. apply containers_In. exists t'. split; [now right|exact E].
Qed.

Lemma concat_pull (c : string) (f : string -> list Z) (l : list string) :
  NoDup l -> In c l ->
  Permutation (f c ++ concat (map f (filter (fun k => negb (String.eqb k c)) l)))
              (concat (map f l)).
Proof.
  induction l as [|k l IH]; simpl; [tauto|]. intros Hnd Hin.
  inversion Hnd as [|? ? Hk Hnd']; subst.
  destruct (String.eqb_spec k c) as [->|Hne]; simpl.
  - apply Permutation_app_head.
    replace (filter (fun k => negb (String.eqb k c)) l) with l; [reflexivity|].
    symmetry. apply forallb_filter_id, forallb_forall. intros k Hkl.
    destruct (String.eqb_spec k c); [subst; contradiction|reflexivity].
  - destruct Hin as [Hin|Hin]; [contradiction|].
    rewrite <- (IH Hnd' Hin), !app_assoc.
    apply Permutation_app_tail, Permutation_app_comm.
Qed.

(** X9.  Grouping by container loses and duplicates nothing: the buckets,
    taken container by container, hold the ids of the selection's tabs,
    each as often as the selection does. *)
Theorem buckets_partition_selection (selectedTabs : list Tab.t) :
  Permutation
    (concat (map (fun k => Relocation.bucket_get k (Relocation.group selectedTabs))
                 (Relocation.keys (Relocation.group selectedTabs))))
    (map Tab.id selectedTabs).
Proof.
  rewrite keys_group.
  rewrite (map_ext _ (fun k => bucket_of k selectedTabs)) by (intros; apply get_group).
  induction selectedTabs as [|t rest IH]; [reflexivity|].
  cbn [containers map concat]. set (c := Tab.cookieStoreId t).
  rewrite bucket_of_cons. fold c. rewrite String.eqb_refl. cbn [app map].
  apply perm_skip.
  rewrite (map_ext_in _ (fun k => bucket_of k rest)).
  - rewrite <- IH. destruct (in_dec string_dec c (containers rest)) as [Hin|Hout].
    + apply (concat_pull c (fun k => bucket_of k rest));
        [apply NoDup_containers|exact Hin].
    + rewrite (bucket_of_absent c rest Hout). cbn [app].
      replace (filter (fun k => negb (String.eqb k c)) (containers rest))
        with (containers rest); [reflexivity|].
      symmetry. apply forallb_filter_id, forallb_forall. intros k Hk.
      destruct (String.eqb_spec k c); [subst; contradiction|reflexivity].
  - intros k Hk. apply filter_In in Hk. destruct Hk as [_ Hk].
    rewrite bucket_of_cons. fold c.
    destruct (String.eqb_spec c k) as [->|_]; [|reflexivity].
    now rewrite String.eqb_refl in Hk.
Qed.

(** ** Reopening: what can go wrong, and what never does *)

Lemma filter_allowed_unparsable (protocol : string -> option string)
    (selectedTabs : list Tab.t) (t : Tab.t) :
  In t selectedTabs -> protocol (Tab.url t) = None ->
  Reopen.filter_allowed protocol selectedTabs = None.
Proof.
  intros Ht Hp. induction selectedTabs as [|t' rest IH]; [destruct Ht|].
  simpl. unfold Reopen.allowed at 1. destruct Ht as [->|Ht].
  - now rewrite Hp.
  - destruct (protocol (Tab.url t')); [|reflexivity]. now rewrite (IH Ht).
Qed.

(** X10.  When the URL of any tab of the selection does not parse, the
    reopen throws before it has asked the host for anything but the
    selection: no tab is created, highlighted or removed. *)
Theorem reopen_unparsable_url
    (protocol : string -> option string) (tab : Tab.t) (targetWindowId : Z)
    (queried : option (list Tab.t)) (created : nat -> option Tab.t)
    (selectedTabs : list Tab.t) (t : Tab.t) :
  Relocation.selection tab queried = Some selectedTabs ->
  In t selectedTabs ->
  protocol (Tab.url t) = None ->
  let r := Reopen.reopenTabs protocol tab targetWindowId queried created in
  snd r = Rejected TypeError /\ filter mutating (fst r) = [].
Proof.
  intros Hsel Ht Hp. unfold Reopen.reopenTabs.
  rewrite Hsel, (filter_allowed_unparsable _ _ _ Ht Hp). cbn [fst snd].
  split; [reflexivity|apply mutating_selection_calls].
Qed.

Lemma reopen_unparsable_url_witness :
  let r := Reopen.reopenTabs scheme_of (page 1 true "https://example.org/") 2
             (Some [page 1 true "https://example.org/"; page 2 false "no scheme here"])
             (fun i => Some (fresh_tab i)) in
  snd r = Rejected TypeError /\ filter mutating (fst r) = [].
Proof.
  apply (reopen_unparsable_url scheme_of (page 1 true "https://example.org/") 2
           (Some [page 1 true "https://example.org/"; page 2 false "no scheme here"])
           (fun i => Some (fresh_tab i)) _ (page 2 false "no scheme here") eq_refl).
  - right. left. reflexivity.
  - reflexivity.
Defined.

Lemma not_remove_selection_calls (tab : Tab.t) (ids : list Z) :
  ~ In (TabsRemove ids) (Relocation.selection_calls tab).
Proof.
  unfold Relocation.selection_calls. destruct (Tab.highlighted tab); simpl;
    intros H; decompose [or] H; discriminate || assumption.
Qed.

Lemma not_remove_creating (w : Z) (l : list Tab.t) (ids : list Z) :
  ~ In (TabsRemove ids) (map (Reopen.create_call w) l).
Proof. rewrite in_map_iff. intros [t [E _]]. discriminate. Qed.

Lemma all_resolved_each (A : Type) (f : nat -> option A) (n : nat) (xs : list A) :
  Reopen.all_resolved (map f (seq 0 n)) = Some xs ->
  forall i, (i < n)%nat -> f i <> None.
Proof.
  intros H i Hi E. apply all_resolved_In in H. apply H. rewrite <- E.
  apply in_map, in_seq. lia.
Qed.

(** X11.  A reopen issues the removal of original tabs only after it has
    issued one creation per tab it removes and the host has resolved every
    one of them; it then resolves. *)
Theorem reopen_removes_only_recreated
    (protocol : string -> option string) (tab : Tab.t) (targetWindowId : Z)
    (queried : option (list Tab.t)) (created : nat -> option Tab.t) (ids : list Z) :
  let r := Reopen.reopenTabs protocol tab targetWindowId queried created in
  In (TabsRemove ids) (fst r) ->
  snd r = Resolved
  /\ length (filter is_create (fst r)) = length ids
  /\ forall i, (i < length ids)%nat -> created i <> None.
Proof.
  unfold Reopen.reopenTabs.
  destruct (Relocation.selection tab queried) as [highlightedTabs|]; cbn zeta;
    [|cbn [fst snd]; intros H; now apply not_remove_selection_calls in H].
  destruct (Reopen.filter_allowed protocol highlightedTabs) as [[|t filtered]|];
    [cbn [fst snd]; intros H; now apply not_remove_selection_calls in H| |
     cbn [fst snd]; intros H; now apply not_remove_selection_calls in H].
  set (selectedTabs := Reopen.designate_active (t :: filtered)).
  destruct (Reopen.all_resolved _) as [newTabs|] eqn:E; cbn [fst snd]; intros H.
  - apply in_app_or in H. destruct H as [H|H];
      [now apply not_remove_selection_calls in H|].
    apply in_app_or in H. destruct H as [H|H]; [now apply not_remove_creating in H|].
    apply in_app_or in H. destruct H as [H|[H|[]]].
    { apply in_map_iff in H. destruct H as [x [Hx _]]. discriminate. }
    injection H as <-. split; [reflexivity|]. rewrite length_map. split.
    + rewrite !filter_app, creates_of_selection_calls, creates_of_creating.
      rewrite !length_app, length_map. simpl.
      match goal with
      | |- context [filter is_create (map ?f ?l)] =>
          replace (filter is_create (map f l)) with (@nil HostCall)
            by (induction l; simpl; auto)
      end.
      simpl. lia.
    + now apply (all_resolved_each _ created _ newTabs).
  - exfalso. apply in_app_or in H. destruct H as [H|H];
      [now apply not_remove_selection_calls in H|now apply not_remove_creating in H].
Qed.

Lemma reopen_removes_only_recreated_witness :
  let r := Reopen.reopenTabs scheme_of (page 1 true "about:config") 2
             (Some [page 1 true "about:config"; page 2 false "https://example.org/";
                    page 3 false "http://example.com/"])
             (fun i => Some (fresh_tab i)) in
  snd r = Resolved /\ length (filter is_create (fst r)) = 2%nat.
Proof.
  cbv zeta.
  destruct (reopen_removes_only_recreated scheme_of (page 1 true "about:config") 2
              (Some [page 1 true "about:config"; page 2 false "https://example.org/";
                     page 3 false "http://example.com/"])
              (fun i => Some (fresh_tab i)) [2; 3]) as (H1 & H2 & _).
  - simpl. right. right. right. right. left. reflexivity.
  - exact (conj H1 H2).
Defined.

Lemma designate_active_has_active (t : Tab.t) (rest : list Tab.t) :
  existsb Tab.active (Reopen.designate_active (t :: rest)) = true.
Proof.
  unfold Reopen.designate_active.
  destruct (find Tab.active (t :: rest)) as [a|] eqn:E; [|reflexivity].
  apply find_some in E. apply existsb_exists. now exists a.
Qed.

Lemma filter_allowed_is_survivors (protocol : string -> option string)
    (selectedTabs filtered : list Tab.t) :
  Reopen.filter_allowed protocol selectedTabs = Some filtered ->
  filtered = survivors protocol selectedTabs.
Proof.
  revert filtered. induction selectedTabs as [|t rest IH]; intros filtered; simpl.
  - now intros [= <-].
  - unfold Reopen.allowed. destruct (protocol (Tab.url t)) as [p|]; [|discriminate].
    destruct (Reopen.filter_allowed protocol rest) as [rest'|]; [|discriminate].
    intros [= <-]. rewrite <- (IH rest' eq_refl).
    now destruct (includes p ALLOWED_PROTOCOLS).
Qed.

Lemma find_none_existsb (A : Type) (p : A -> bool) (l : list A) :
  find p l = None -> existsb p l = false.
Proof.
  induction l as [|x l IH]; simpl; [reflexivity|].
  destruct (p x); [discriminate|exact IH].
Qed.

Lemma find_some_existsb (A : Type) (p : A -> bool) (l : list A) (a : A) :
  find p l = Some a -> existsb p l = true.
Proof.
  intros H. apply find_some in H. apply existsb_exists. now exists a.
Qed.

(** X12.  Whenever a reopen creates tabs at all, it creates one tab per
    surviving tab of the selection, in order.  When a surviving tab is
    active, every creation carries its tab's own active flag; when none is
    (the active tab was filtered out), the creation for the first surviving
    tab asks for an active tab and no other does.  Either way at least one
    creation asks for an active tab. *)
Theorem reopen_creates_an_active_tab
    (protocol : string -> option string) (tab : Tab.t) (targetWindowId : Z)
    (queried : option (list Tab.t)) (created : nat -> option Tab.t) :
  let r := Reopen.reopenTabs protocol tab targetWindowId queried created in
  filter is_create (fst r) <> [] ->
  exists selectedTabs first rest,
    Relocation.selection tab queried = Some selectedTabs
    /\ survivors protocol selectedTabs = first :: rest
    /\ filter is_create (fst r)
       = (if existsb Tab.active (first :: rest)
          then map (fun t => TabsCreate (Tab.url t) targetWindowId (Tab.active t))
                   (first :: rest)
          else TabsCreate (Tab.url first) targetWindowId true
               :: map (fun t => TabsCreate (Tab.url t) targetWindowId false) rest)
    /\ existsb creates_active (fst r) = true.
Proof.
  unfold Reopen.reopenTabs.
  destruct (Relocation.selection tab queried) as [highlightedTabs|]; cbn zeta;
    [|cbn [fst]; rewrite creates_of_selection_calls; congruence].
  destruct (Reopen.filter_allowed protocol highlightedTabs) as [[|t filtered]|] eqn:Ef;
    [cbn [fst]; rewrite creates_of_selection_calls; congruence| |
     cbn [fst]; rewrite creates_of_selection_calls; congruence].
  apply filter_allowed_is_survivors in Ef.
  pose proof (designate_active_has_active t filtered) as Hact.
  assert (Hcreating :
    existsb creates_active
      (map (Reopen.create_call targetWindowId)
           (Reopen.designate_active (t :: filtered))) = true).
  { apply existsb_exists in Hact. destruct Hact as [a [Ha Hact]].
    apply existsb_exists. exists (Reopen.create_call targetWindowId a).
    split; [now apply in_map|]. unfold Reopen.create_call. simpl. now rewrite Hact. }
  assert (Hlist :
    map (Reopen.create_call targetWindowId) (Reopen.designate_active (t :: filtered))
    = (if existsb Tab.active (t :: filtered)
       then map (fun t0 => TabsCreate (Tab.url t0) targetWindowId (Tab.active t0))
                (t :: filtered)
       else TabsCreate (Tab.url t) targetWindowId true
            :: map (fun t0 => TabsCreate (Tab.url t0) targetWindowId false) filtered)).
  { unfold Reopen.designate_active.
    destruct (find Tab.active (t :: filtered)) as [a|] eqn:Ea.
    - now rewrite (find_some_existsb _ _ _ _ Ea).
    - pose proof (find_none_existsb _ _ _ Ea) as Hnone. rewrite Hnone.
      cbn [map]. unfold Reopen.create_call at 1. cbn [Tab.url Tab.active Tab.set_active].
      replace (Tab.url (Tab.set_active true t)) with (Tab.url t) by now destruct t.
      replace (Tab.active (Tab.set_active true t)) with true by now destruct t.
      f_equal. apply map_ext_in. intros x Hx. unfold Reopen.create_call.
      replace (Tab.active x) with false; [reflexivity|].
      symmetry. cbn [existsb] in Hnone. apply orb_false_iff in Hnone.
      destruct Hnone as [_ Hrest].
      destruct (Tab.active x) eqn:Ex; [|reflexivity].
      rewrite <- Hrest. symmetry. apply existsb_exists. now exists x. }
  intros _. exists highlightedTabs, t, filtered.
  split; [reflexivity|]. split; [now symmetry|].
  destruct (Reopen.all_resolved _); cbn [fst]; split.
  - rewrite !filter_app, creates_of_selection_calls, creates_of_creating. cbn [app].
    rewrite Hlist.
    replace (filter is_create (map _ (filter _ l))) with (@nil HostCall)
      by (induction (filter (fun t0 => negb (Tab.active t0)) l); [reflexivity|assumption]).
    cbn [filter is_create app]. now rewrite app_nil_r.
  - rewrite !existsb_app, Hcreating; now rewrite orb_true_r.
  - rewrite !filter_app, creates_of_selection_calls, creates_of_creating. cbn [app].
    exact Hlist.
  - rewrite !existsb_app, Hcreating; now rewrite orb_true_r.
Qed.

Lemma reopen_creates_an_active_tab_witness :
  let r := Reopen.reopenTabs scheme_of (page 1 true "about:config") 2
             (Some [page 1 true "about:config"; page 2 false "https://example.org/";
                    page 3 false "http://example.com/"])
             (fun i => Some (fresh_tab i)) in
  filter is_create (fst r)
  = [TabsCreate "https://example.org/" 2 true; TabsCreate "http://example.com/" 2 false]
  /\ existsb creates_active (fst r) = true.
Proof.
  cbv zeta.
  destruct (reopen_creates_an_active_tab scheme_of (page 1 true "about:config") 2
              (Some [page 1 true "about:config"; page 2 false "https://example.org/";
                     page 3 false "http://example.com/"])
              (fun i => Some (fresh_tab i)))
    as (selectedTabs & first & rest & Hsel & Hsur & Hcreate & Hactive);
    [discriminate|].
  injection Hsel as <-. injection Hsur as <- <-.
  exact (conj Hcreate Hactive).
Defined.

(** ** Jumping over tabs *)

Lemma findIndex_range (p : Tab.t -> bool) (tabs : list Tab.t) :
  -1 <= Navigation.findIndex p tabs < Z.of_nat (length tabs).
Proof.
  induction tabs as [|t rest IH]; simpl; [lia|].
  destruct (p t); [lia|].
  destruct (Z.eqb_spec (Navigation.findIndex p rest) (-1)); lia.
Qed.

Lemma js_index_in_range (A : Type) (a : list A) (i : Z) :
  0 <= i < Z.of_nat (length a) ->
  exists x, js_index a i = Some x /\ nth_error a (Z.to_nat i) = Some x.
Proof.
  intros Hi. unfold js_index. destruct (Z.ltb_spec i 0); [lia|].
  destruct (nth_error a (Z.to_nat i)) as [x|] eqn:E; [now exists x|].
  apply nth_error_None in E. lia.
Qed.

Lemma navigateToTab_stays_in_bounds_aux
    (tabTravelDistance direction : Z) (tabs : list Tab.t) :
  2 <= tabTravelDistance ->
  tabs <> [] ->
  exists t,
    Navigation.navigateToTab tabTravelDistance direction tabs
    = ([TabsUpdate (Tab.id t) activate], Resolved).
Proof.
  intros Hd Hne. unfold Navigation.navigateToTab.
  destruct (Z.ltb_spec tabTravelDistance 2); [lia|].
  set (i := Z.max 0 _).
  assert (Hlen : 0 < Z.of_nat (length tabs)) by (destruct tabs; [congruence|simpl; lia]).
  assert (Hi : 0 <= i < Z.of_nat (length tabs)) by (unfold i; lia).
  destruct (js_index_in_range _ tabs i Hi) as [t [E1 E2]].
  exists t. now rewrite E1.
Qed.

(** X13.  With a travel distance of two or more and at least one visible
    tab, a jump never fails: it activates exactly one tab of the window,
    the one [tabTravelDistance] positions from the active tab in the given
    direction, or the first or last tab when that position is outside the
    tab strip. *)
Theorem navigateToTab_stays_in_bounds
    (tabTravelDistance direction : Z) (tabs : list Tab.t) :
  2 <= tabTravelDistance ->
  tabs <> [] ->
  exists i t,
    i = Z.max 0 (Z.min (Navigation.findIndex Tab.active tabs
                        + direction * tabTravelDistance)
                       (Z.of_nat (length tabs) - 1))
    /\ 0 <= i < Z.of_nat (length tabs)
    /\ nth_error tabs (Z.to_nat i) = Some t
    /\ Navigation.navigateToTab tabTravelDistance direction tabs
       = ([TabsUpdate (Tab.id t) activate], Resolved).
Proof.
  intros Hd Hne. unfold Navigation.navigateToTab.
  destruct (Z.ltb_spec tabTravelDistance 2); [lia|].
  set (i := Z.max 0 _).
  assert (Hlen : 0 < Z.of_nat (length tabs)) by (destruct tabs; [congruence|simpl; lia]).
  assert (Hi : 0 <= i < Z.of_nat (length tabs)) by (unfold i; lia).
  destruct (js_index_in_range _ tabs i Hi) as [t [E1 E2]].
  exists i, t. rewrite E1. auto.
Qed.

Lemma navigateToTab_stays_in_bounds_witness :
  exists i t,
    i = 2
    /\ nth_error [sample_tab 1 false ""; sample_tab 2 true ""; sample_tab 3 false ""]
                 (Z.to_nat i) = Some t
    /\ Navigation.navigateToTab 5 1
         [sample_tab 1 false ""; sample_tab 2 true ""; sample_tab 3 false ""]
       = ([TabsUpdate (Tab.id t) activate], Resolved).
Proof.
  assert (Hd : 2 <= 5) by discriminate.
  assert (Hne : [sample_tab 1 false ""; sample_tab 2 true ""; sample_tab 3 false ""] <> [])
    by discriminate.
  destruct (navigateToTab_stays_in_bounds 5 1 _ Hd Hne) as (i & t & Hi & _ & Hn & Hr).
  exists i, t. split; [exact Hi|]. split; [exact Hn|exact Hr].
Defined.

Lemma nth_error_last (A : Type) (a : list A) (d : A) :
  a <> [] -> nth_error a (length a - 1) = Some (last a d).
Proof.
  intros Hne. destruct a as [|x a] using rev_ind; [congruence|].
  rewrite last_last, length_app, nth_error_app2 by (simpl; lia).
  simpl. replace (length a + 1 - 1 - length a)%nat with 0%nat by lia. reflexivity.
Qed.

(** X14.  A jump to the right from within [tabTravelDistance] of the end
    of the tab strip lands on the last tab, and a jump to the left from
    within that distance of the start (or with no active tab at all) lands
    on the first. *)
Theorem navigateToTab_saturates
    (tabTravelDistance : Z) (first : Tab.t) (rest : list Tab.t) :
  2 <= tabTravelDistance ->
  let tabs := first :: rest in
  let current := Navigation.findIndex Tab.active tabs in
  (Z.of_nat (length tabs) - 1 <= current + tabTravelDistance ->
   Navigation.navigateToTab tabTravelDistance 1 tabs
   = ([TabsUpdate (Tab.id (last tabs first)) activate], Resolved))
  /\ (current - tabTravelDistance <= 0 ->
      Navigation.navigateToTab tabTravelDistance (-1) tabs
      = ([TabsUpdate (Tab.id first) activate], Resolved)).
Proof.
  intros Hd tabs current. unfold Navigation.navigateToTab.
  destruct (Z.ltb_spec tabTravelDistance 2); [lia|]. fold current.
  pose proof (findIndex_range Tab.active tabs) as Hc. fold current in Hc.
  assert (Hlen : Z.of_nat (length tabs) = Z.of_nat (length rest) + 1)
    by (unfold tabs; simpl length; lia).
  split; intros Hnear.
  - replace (Z.max 0 (Z.min (current + 1 * tabTravelDistance) (Z.of_nat (length tabs) - 1)))
      with (Z.of_nat (length tabs - 1)) by (unfold tabs in *; simpl length in *; lia).
    unfold js_index. destruct (Z.ltb_spec (Z.of_nat (length tabs - 1)) 0); [lia|].
    rewrite Nat2Z.id, (nth_error_last _ tabs first) by discriminate. reflexivity.
  - replace (Z.max 0 (Z.min (current + -1 * tabTravelDistance)
                            (Z.of_nat (length tabs) - 1)))
      with 0 by lia.
    reflexivity.
Qed.

Lemma navigateToTab_saturates_witness :
  Navigation.navigateToTab 2 1
    [sample_tab 1 false ""; sample_tab 2 true ""; sample_tab 3 false ""]
  = ([TabsUpdate 3 activate], Resolved)
  /\ Navigation.navigateToTab 2 (-1)
       [sample_tab 1 false ""; sample_tab 2 true ""; sample_tab 3 false ""]
     = ([TabsUpdate 1 activate], Resolved).
Proof.
  assert (Hd : 2 <= 2) by discriminate.
  destruct (navigateToTab_saturates 2 (sample_tab 1 false "")
              [sample_tab 2 true ""; sample_tab 3 false ""] Hd) as [H1 H2].
  split; [apply H1|apply H2]; discriminate.
Defined.

(** X15.  A jump issues no call exactly when the travel distance is below
    two or the host reports no visible tab, and it fails, on reading the id
    of a tab that is not there, exactly in the second case. *)
Theorem navigateToTab_idle_or_failing
    (tabTravelDistance direction : Z) (tabs : list Tab.t) :
  (fst (Navigation.navigateToTab tabTravelDistance direction tabs) = []
   <-> tabTravelDistance < 2 \/ tabs = [])
  /\ (snd (Navigation.navigateToTab tabTravelDistance direction tabs)
      = Rejected TypeError
      <-> 2 <= tabTravelDistance /\ tabs = []).
Proof.
  destruct (Z.lt_ge_cases tabTravelDistance 2) as [Hlt|Hge].
  - unfold Navigation.navigateToTab.
    destruct (Z.ltb_spec tabTravelDistance 2); [|lia]. cbn [fst snd].
    split; split; auto; try discriminate. intros [Hge _]. lia.
  - destruct tabs as [|t rest].
    + unfold Navigation.navigateToTab.
      destruct (Z.ltb_spec tabTravelDistance 2); [lia|].
      assert (E : forall i, js_index (@nil Tab.t) i = None).
      { intros i. unfold js_index. destruct (i <? 0); [reflexivity|].
        now destruct (Z.to_nat i). }
      rewrite E. cbn [fst snd]. split; split; auto.
    + assert (Hne : t :: rest <> []) by discriminate.
      destruct (navigateToTab_stays_in_bounds_aux tabTravelDistance direction
                  (t :: rest) Hge Hne) as [x ->].
      cbn [fst snd]. split; split; try discriminate.
      * intros [Hlt|Hnil]; [lia|discriminate].
      * intros [_ Hnil]. discriminate.
Qed.

(** ** Going to the most recently opened tab *)

Lemma recent_insert_In (A : Type) (cmp : A -> A -> Z) (x y : A) (l : list A) :
  In y (Recent.insert cmp x l) <-> y = x \/ In y l.
Proof.
  induction l as [|z l IH]; simpl.
  - intuition.
  - destruct (cmp x z <=? 0); simpl; [intuition|]. rewrite IH. intuition.
Qed.

Lemma recent_sort_In (A : Type) (cmp : A -> A -> Z) (y : A) (l : list A) :
  In y (Recent.sort cmp l) <-> In y l.
Proof.
  induction l as [|x l IH]; simpl; [tauto|].
  rewrite recent_insert_In, IH. intuition.
Qed.

Lemma recent_insert_sorted (x : Recent.Accessed) (l : list Recent.Accessed) :
  StronglySorted id_descending l ->
  StronglySorted id_descending (Recent.insert Recent.byIdDescending x l).
Proof.
  induction 1 as [|y l Hl IH Hy]; simpl.
  - constructor; constructor.
  - unfold Recent.byIdDescending at 1.
    destruct (Z.leb_spec (Tab.id (Recent.tab y) - Tab.id (Recent.tab x)) 0).
    + constructor; [constructor; assumption|].
      constructor; [unfold id_descending; lia|].
      eapply Forall_impl; [|exact Hy]. unfold id_descending. intros; lia.
    + constructor; [exact IH|].
      apply Forall_forall. intros z Hz. apply recent_insert_In in Hz.
      destruct Hz as [->|Hz]; [unfold id_descending; lia|].
      rewrite Forall_forall in Hy. now apply Hy.
Qed.

Lemma recent_sort_sorted (l : list Recent.Accessed) :
  StronglySorted id_descending (Recent.sort Recent.byIdDescending l).
Proof.
  induction l; simpl; [constructor|now apply recent_insert_sorted].
Qed.

Lemma filter_head_of_sorted (A : Type) (R : A -> A -> Prop) (p : A -> bool)
    (l : list A) (first : A) (rest : list A) :
  StronglySorted R l ->
  filter p l = first :: rest ->
  forall x, In x l -> p x = true -> x = first \/ R first x.
Proof.
  induction 1 as [|y l Hl IH Hy]; simpl; [discriminate|].
  intros E x Hx Hp. destruct (p y) eqn:Ey.
  - injection E as -> _. destruct Hx as [->|Hx]; [now left|].
    right. rewrite Forall_forall in Hy. now apply Hy.
  - destruct Hx as [->|Hx]; [congruence|]. now apply IH.
Qed.

(** X16.  With a positive timeout, whenever the current window shows an
    inactive tab that was accessed within the last [recentTabTimeout]
    seconds, the command activates exactly one such tab of the window: the
    one with the greatest id among them (the order is by id, not by time of
    access). *)
Theorem openLastRecentTab_greatest_id
    (recentTabTimeout now : Z) (tabs : list Recent.Accessed) (t : Recent.Accessed) :
  1 <= recentTabTimeout ->
  In t tabs ->
  Recent.recent recentTabTimeout now t = true ->
  exists first,
    In first tabs
    /\ Recent.recent recentTabTimeout now first = true
    /\ (forall x, In x tabs -> Recent.recent recentTabTimeout now x = true ->
        Tab.id (Recent.tab x) <= Tab.id (Recent.tab first))
    /\ Recent.openLastRecentTab recentTabTimeout now tabs
       = [TabsUpdate (Tab.id (Recent.tab first)) activate].
Proof.
  intros Ht Hin Hr. unfold Recent.openLastRecentTab.
  destruct (Z.ltb_spec recentTabTimeout 1); [lia|].
  destruct (filter _ _) as [|first rest] eqn:E.
  - assert (Hf : In t (filter (Recent.recent recentTabTimeout now)
                         (Recent.sort Recent.byIdDescending tabs)))
      by (apply filter_In; split; [now apply recent_sort_In|assumption]).
    rewrite E in Hf. destruct Hf.
  - assert (Hf : In first (filter (Recent.recent recentTabTimeout now)
                             (Recent.sort Recent.byIdDescending tabs)))
      by (rewrite E; now left).
    apply filter_In in Hf. destruct Hf as [Hf1 Hf2]. apply recent_sort_In in Hf1.
    exists first. split; [assumption|]. split; [assumption|]. split; [|reflexivity].
    intros x Hx Hpx.
    destruct (filter_head_of_sorted _ id_descending _ _ first rest
                (recent_sort_sorted tabs) E x) as [->|Hle];
      [now apply recent_sort_In|assumption|lia|exact Hle].
Qed.

Lemma openLastRecentTab_greatest_id_witness :
  exists first,
    Recent.openLastRecentTab 10 100000
      [Recent.mkAccessed (sample_tab 4 false "") 99000;
       Recent.mkAccessed (sample_tab 9 true "") 99999;
       Recent.mkAccessed (sample_tab 7 false "") 95000;
       Recent.mkAccessed (sample_tab 8 false "") 1000]
    = [TabsUpdate (Tab.id (Recent.tab first)) activate].
Proof.
  assert (Ht : 1 <= 10) by discriminate.
  destruct (openLastRecentTab_greatest_id 10 100000
              [Recent.mkAccessed (sample_tab 4 false "") 99000;
               Recent.mkAccessed (sample_tab 9 true "") 99999;
               Recent.mkAccessed (sample_tab 7 false "") 95000;
               Recent.mkAccessed (sample_tab 8 false "") 1000]
              (Recent.mkAccessed (sample_tab 4 false "") 99000)
              Ht (or_introl eq_refl) eq_refl) as (first & _ & _ & _ & E).
  exists first. exact E.
Defined.

(** X17.  The command issues no call exactly when the timeout is below one
    or the window shows no inactive tab accessed within the timeout; in
    particular it never activates the tab that is already active. *)
Theorem openLastRecentTab_idle
    (recentTabTimeout now : Z) (tabs : list Recent.Accessed) :
  (Recent.openLastRecentTab recentTabTimeout now tabs = []
   <-> recentTabTimeout < 1
       \/ forall t, In t tabs -> Recent.recent recentTabTimeout now t = false)
  /\ forall id props,
       In (TabsUpdate id props) (Recent.openLastRecentTab recentTabTimeout now tabs) ->
       exists t, In t tabs /\ Tab.id (Recent.tab t) = id
                 /\ Tab.active (Recent.tab t) = false.
Proof.
  unfold Recent.openLastRecentTab.
  destruct (Z.ltb_spec recentTabTimeout 1) as [Hlt|Hge].
  - split; [split; auto|]. intros id props [].
  - destruct (filter _ _) as [|first rest] eqn:E.
    + split; [|intros id props []]. split; [|reflexivity]. intros _. right.
      intros t Hin. destruct (Recent.recent recentTabTimeout now t) eqn:Hr; [|reflexivity].
      assert (Hf : In t (filter (Recent.recent recentTabTimeout now)
                           (Recent.sort Recent.byIdDescending tabs)))
        by (apply filter_In; split; [now apply recent_sort_In|assumption]).
      rewrite E in Hf. destruct Hf.
    + assert (Hf : In first (filter (Recent.recent recentTabTimeout now)
                               (Recent.sort Recent.byIdDescending tabs)))
        by (rewrite E; now left).
      apply filter_In in Hf. destruct Hf as [Hf1 Hf2]. apply recent_sort_In in Hf1.
      split.
      * split; [discriminate|]. intros [Hlt|Hnone]; [lia|].
        rewrite (Hnone first Hf1) in Hf2. discriminate.
      * intros id props [Hc|[]]. injection Hc as <- _.
        exists first. split; [assumption|]. split; [reflexivity|].
        unfold Recent.recent in Hf2. apply andb_prop in Hf2.
        destruct Hf2 as [Ha _]. now destruct (Tab.active (Recent.tab first)).
Qed.

(** ** Switching back to the tab that was active before *)

Lemma find_app_cases (A : Type) (p : A -> bool) (l1 l2 : list A) :
  find p (l1 ++ l2) = match find p l1 with Some x => Some x | None => find p l2 end.
Proof.
  induction l1 as [|x l1 IH]; simpl; [reflexivity|]. now destruct (p x).
Qed.

Lemma record_find (events : list LastActive.ActiveInfo)
    (m : LastActive.PrevFocusedTabs) (w : Z) :
  LastActive.record events m w
  = match find (remembered w) (rev events) with
    | Some info => Some info
    | None => m w
    end.
Proof.
  unfold LastActive.record. revert m.
  induction events as [|e events IH]; intros m; simpl; [reflexivity|].
  rewrite IH, find_app_cases.
  destruct (find (remembered w) (rev events)); [reflexivity|].
  simpl. unfold remembered, LastActive.onActivated.
  destruct (LastActive.previousTabId e); [|reflexivity].
  rewrite (Z.eqb_sym (LastActive.windowId e) w).
  now destruct (w =? LastActive.windowId e).
Qed.

(** X18.  After any sequence of activation events, the map holds for each
    window the latest activation of that window that names a previously
    active tab, and what it held before when there is none: activations
    without a previous tab (a tab was removed) and activations in other
    windows never overwrite it. *)
Theorem record_keeps_latest_with_previous
    (events : list LastActive.ActiveInfo) (m : LastActive.PrevFocusedTabs) (w : Z) :
  LastActive.record events m w
  = match find (remembered w) (rev events) with
    | Some info => Some info
    | None => m w
    end.
Proof. apply record_find. Qed.

Lemma filter_unique_id (p : Z) (tabs : list Tab.t) :
  NoDup (map Tab.id tabs) ->
  filter (fun t => Tab.id t =? p) tabs = []
  \/ exists t, Tab.id t = p /\ filter (fun t => Tab.id t =? p) tabs = [t].
Proof.
  induction tabs as [|t tabs IH]; simpl; [now left|].
  intros Hnd. inversion Hnd as [|? ? Hnot Hnd']; subst.
  destruct (Z.eqb_spec (Tab.id t) p) as [E|E].
  - right. exists t. split; [exact E|]. f_equal.
    destruct (filter _ tabs) as [|u rest] eqn:Ef; [reflexivity|]. exfalso.
    assert (Hu : In u (filter (fun t0 => Tab.id t0 =? p) tabs)) by (rewrite Ef; now left).
    apply filter_In in Hu. destruct Hu as [Hu Hp]. apply Z.eqb_eq in Hp.
    apply Hnot. rewrite E, <- Hp. now apply in_map.
  - now apply IH.
Qed.

(** X19.  Once a window has seen an activation that names tab [p] as the
    one active before, and no later activation of that window names
    another, the command activates [p] when [p] is still among the window's
    tabs and issues nothing when it is not. *)
Theorem last_active_tab_switches_back
    (earlier later : list LastActive.ActiveInfo) (info : LastActive.ActiveInfo)
    (p : Z) (tabs : list Tab.t) :
  LastActive.previousTabId info = Some p ->
  Forall (fun e => remembered (LastActive.windowId info) e = false) later ->
  NoDup (map Tab.id tabs) ->
  LastActive.onCommand_lastActiveTab (LastActive.windowId info) tabs
    (LastActive.record (earlier ++ info :: later) LastActive.empty)
  = if existsb (fun t => Tab.id t =? p) tabs
    then [TabsUpdate p activate] else [].
Proof.
  intros Hp Hlater Hnd. unfold LastActive.onCommand_lastActiveTab.
  rewrite record_find, rev_app_distr. cbn [rev]. rewrite <- app_assoc. cbn [app].
  rewrite find_app_cases.
  replace (find (remembered (LastActive.windowId info)) (rev later)) with
    (@None LastActive.ActiveInfo).
  - cbn [find]. unfold remembered at 1. rewrite Hp, Z.eqb_refl.
    unfold LastActive.switchToPrevTabInWindow.
    replace (filter (LastActive.is_previous info) tabs)
      with (filter (fun t => Tab.id t =? p) tabs)
      by (apply filter_ext; intros t; unfold LastActive.is_previous; now rewrite Hp).
    destruct (filter_unique_id p tabs Hnd) as [E|[t [Et E]]]; rewrite E.
    + replace (existsb _ tabs) with false; [reflexivity|].
      symmetry. apply not_true_is_false. intros Hex.
      apply existsb_exists in Hex. destruct Hex as [t Ht].
      assert (Hf : In t (filter (fun t0 => Tab.id t0 =? p) tabs))
        by (apply filter_In; exact Ht).
      rewrite E in Hf. destruct Hf.
    + replace (existsb _ tabs) with true; [now rewrite Et|].
      symmetry. apply existsb_exists. exists t.
      apply (filter_In (fun t0 => Tab.id t0 =? p)). rewrite E. now left.
  - symmetry. destruct (find _ (rev later)) as [e|] eqn:Ef; [|reflexivity].
    apply find_some in Ef. destruct Ef as [Hin He]. apply in_rev in Hin.
    rewrite Forall_forall in Hlater. rewrite (Hlater e Hin) in He. discriminate.
Qed.

Lemma last_active_tab_switches_back_witness :
  LastActive.onCommand_lastActiveTab 1
    [sample_tab 4 false ""; sample_tab 7 true ""; sample_tab 9 false ""]
    (LastActive.record
       [LastActive.mkInfo 4 (Some 9) 1; LastActive.mkInfo 7 (Some 4) 1;
        LastActive.mkInfo 12 (Some 11) 2; LastActive.mkInfo 7 None 1]
       LastActive.empty)
  = [TabsUpdate 4 activate].
Proof.
  apply (last_active_tab_switches_back
           [LastActive.mkInfo 4 (Some 9) 1] 
           [LastActive.mkInfo 12 (Some 11) 2; LastActive.mkInfo 7 None 1]
           (LastActive.mkInfo 7 (Some 4) 1) 4
           [sample_tab 4 false ""; sample_tab 7 true ""; sample_tab 9 false ""]).
  - reflexivity.
  - repeat constructor.
  - repeat constructor; simpl; intuition discriminate.
Defined.

(** ** The toolbar button's icon and tooltip *)

Section BadgeFacts.

Variable stripBrand : string -> string.
Variable units : string -> list Z.
Variable of_units : list Z -> string.

Lemma per_window_icon (show : bool) (id : option Z) (y : Window.t) :
  filter is_set_icon (Badge.per_window stripBrand units of_units show id y) = [icon_for id y].
Proof.
  unfold Badge.per_window, icon_for.
  destruct show, (Badge.is_target id y); reflexivity.
Qed.

(** X20.  A refresh with a key that is not negative gives every window of
    the host's answer exactly one icon, in the answer's order: the
    "non-active" icon to the windows whose id is the key, the "active" icon
    to all others. *)
Theorem updateIconBadge_one_icon_per_window
    (showLastWindowIDBadge : bool) (id : option Z) (windows : list Window.t) :
  (forall z, id = Some z -> 0 <= z) ->
  filter is_set_icon (Badge.updateIconBadge stripBrand units of_units showLastWindowIDBadge id windows)
  = map (icon_for id) windows.
Proof.
  intros Hid. unfold Badge.updateIconBadge.
  replace (match id with Some z => z <? 0 | None => false end) with false.
  - rewrite !filter_app.
    replace (filter is_set_icon (if showLastWindowIDBadge then _ else []))
      with (@nil Badge.BadgeCall) by (now destruct showLastWindowIDBadge).
    replace (filter is_set_icon (if Z.of_nat (length windows) =? 1 then _ else []))
      with (@nil Badge.BadgeCall) by (now destruct (Z.of_nat (length windows) =? 1)).
    cbn [app]. induction windows as [|y rest IH]; [reflexivity|].
    cbn [flat_map map]. now rewrite filter_app, per_window_icon, IH.
  - destruct id as [z|]; [|reflexivity].
    symmetry. apply Z.ltb_ge. now apply Hid.
Qed.

(** X21.  When the key is the id of no window of the host's answer (it is
    [undefined], or its window has been closed meanwhile), the refresh marks
    no destination: every icon it sets is the "active" one, every badge
    colour the default, and the only tooltip it can set is the empty one. *)
Theorem updateIconBadge_unknown_key_marks_nothing
    (showLastWindowIDBadge : bool) (id : option Z) (windows : list Window.t) :
  (forall y, In y windows -> Badge.is_target id y = false) ->
  Forall unmarked
    (Badge.updateIconBadge stripBrand units of_units showLastWindowIDBadge id windows).
Proof.
  intros Hnone. unfold Badge.updateIconBadge.
  destruct (match id with Some z => z <? 0 | None => false end); [constructor|].
  apply Forall_app. split.
  { destruct showLastWindowIDBadge; repeat constructor. }
  apply Forall_app. split.
  { destruct (Z.of_nat (length windows) =? 1); repeat constructor. }
  apply Forall_flat_map. apply Forall_forall. intros y Hy.
  unfold Badge.per_window. rewrite (Hnone y Hy).
  destruct showLastWindowIDBadge; repeat constructor.
Qed.

(** X22.  The tooltip of the destination window is ["Move to window:"], a
    line break, the key, [" : "] and the window's title without the
    browser's name, measured and cut in UTF-16 code units as [length] and
    [slice] do: all of its code units when there are at most 20, and
    otherwise the first 20 of them followed by three dots. *)
Theorem tooltip_cuts_long_titles (id : option Z) (y : Window.t) :
  let title := units (stripBrand (Window.title y)) in
  Badge.tooltip stripBrand units of_units id y
  = ("Move to window:" ++ Badge.newline ++ Badge.js_String id ++ " : "
     ++ (if (length title <=? 20)%nat then of_units title
         else of_units (firstn 20 title) ++ "..."))%string
  /\ (length title <= 20 -> firstn 20 title = title)%nat
  /\ (20 < length title -> length (firstn 20 title) = 20)%nat.
Proof.
  intros title. unfold Badge.tooltip. fold title.
  split; [|split].
  - destruct (Nat.leb_spec (length title) 20) as [Hle|Hgt].
    + rewrite firstn_all2, Nat.eqb_refl by exact Hle.
      replace (of_units title ++ "")%string with (of_units title); [reflexivity|].
      induction (of_units title) as [|c t IH]; simpl; [reflexivity|]. now rewrite <- IH.
    + rewrite length_firstn, Nat.min_l by lia.
      destruct (Nat.eqb_spec (length title) 20); [lia|reflexivity].
  - intros Hle. now apply firstn_all2.
  - intros Hgt. rewrite length_firstn. lia.
Qed.

End BadgeFacts.

Lemma updateIconBadge_one_icon_per_window_witness :
  filter is_set_icon
    (Badge.updateIconBadge (fun s => s) ascii_units ascii_text true (Some 3)
       [titled_window 1 false "one"; titled_window 3 false "three"])
  = [Badge.SetIcon 1 "src/icons/web-browser-active.svg";
     Badge.SetIcon 3 "src/icons/web-browser-non-active.svg"].
Proof.
  apply (updateIconBadge_one_icon_per_window (fun s => s) ascii_units ascii_text true (Some 3)
           [titled_window 1 false "one"; titled_window 3 false "three"]).
  intros z [= <-]. discriminate.
Defined.

Lemma updateIconBadge_unknown_key_marks_nothing_witness :
  Forall unmarked
    (Badge.updateIconBadge (fun s => s) ascii_units ascii_text true (Some 2)
       [titled_window 1 false "one"; titled_window 3 false "three"]).
Proof.
  apply (updateIconBadge_unknown_key_marks_nothing (fun s => s) ascii_units ascii_text true (Some 2)
           [titled_window 1 false "one"; titled_window 3 false "three"]).
  intros y [<-|[<-|[]]]; reflexivity.
Defined.

Lemma tooltip_cuts_long_titles_witness :
  Badge.tooltip (fun s => s) ascii_units ascii_text (Some 3)
    (titled_window 3 false "A window title of thirty-four chars")
  = ("Move to window:" ++ Badge.newline ++ "3 : A window title of th...")%string
  /\ Badge.tooltip (fun s => s) ascii_units ascii_text (Some 3)
       (titled_window 3 false "three")
     = ("Move to window:" ++ Badge.newline ++ "3 : three")%string.
Proof.
  split.
  - exact (proj1 (tooltip_cuts_long_titles (fun s => s) ascii_units ascii_text (Some 3)
                    (titled_window 3 false "A window title of thirty-four chars"))).
  - exact (proj1 (tooltip_cuts_long_titles (fun s => s) ascii_units ascii_text (Some 3)
                    (titled_window 3 false "three"))).
Defined.

(** ** Hiding the menu while it is being built *)

Section HideRace.

Import Menus.

Ltac menu_compute :=
  repeat (cbn [view_run view_step view v_globals v_entries v_counter v_suspended
               take_windows take_menus app negb
               globals host suspended
               windowMenuIds lastMenuInstanceId nextMenuInstanceId];
          rewrite ?Z.eqb_refl, ?settled_ids_created).

(** X23.  Take a state between sessions in which the menu is closed, and a
    session all of whose creations the host accepts.  Whether the menu is
    hidden after the session has settled, while its creations are pending,
    or before the window list has even arrived, none of the session's
    entries is left afterwards: the submenu shows what it showed before. *)
Theorem hidden_session_leaves_no_entry
    (st0 : State) (tab : Tab.t) (wins : list Window.t) (schedule : list Event) :
  idle st0 ->
  0 < nextMenuInstanceId (globals st0) ->
  Forall (fun i => listed (windowMenuIds (globals st0)) i = false)
         (submenu_entries (host st0)) ->
  accepted (host st0) tab wins = true ->
  let m := nextMenuInstanceId (globals st0) in
  Interleave [WindowsAnswered m wins; MenusSettled m] [MenuHidden] schedule ->
  let st := run (MenuShown tab :: schedule) st0 in
  submenu_entries (host st) = submenu_entries (host st0)
  /\ lastMenuInstanceId (globals st) = 0
  /\ suspended st = [].
Proof.
  intros Hidle Hnext Hclosed Hacc m Hmix st.
  pose proof (idle_steady _ Hidle) as Hsteady.
  pose proof (idle_numbered _ Hidle) as Hbase.
  destruct Hidle as [Hsus _ Hwm].
  destruct st0 as [[wm0 last0 n] h0 sus0].
  cbn [globals host suspended windowMenuIds nextMenuInstanceId] in *.
  subst sus0 m.
  set (reg := fun name => registered name h0).
  assert (Hreg : forall name, registered name h0 = reg name) by reflexivity.
  change (forallb (accepts_by reg) (requests tab wins) = true) in Hacc.
  set (c0 := counter h0) in *.
  set (base := submenu_entries h0) in *.
  assert (Hn0 : (n =? 0) = false) by (apply Z.eqb_neq; lia).
  assert (Hold : without wm0 base = base) by now apply without_unlisted.
  assert (Hnew : without wm0 (entries_from c0 (requests tab wins))
                 = entries_from c0 (requests tab wins))
    by (apply (without_registered_newer c0); [exact Hwm|lia]).
  assert (Hmine : without (ids_of (entries_from c0 (requests tab wins))) base = base)
    by (apply (without_entries_older c0); [exact Hbase|lia]).
  assert (Hfinish :
    forall v,
      view_run reg (MenuShown tab :: schedule)
               (mkView (mkGlobals wm0 last0 n) base c0 []) = Some v ->
      v_entries v = base /\ lastMenuInstanceId (v_globals v) = 0
      /\ v_suspended v = [] ->
      submenu_entries (host st) = base
      /\ lastMenuInstanceId (globals st) = 0
      /\ suspended st = []).
  { intros v Hv H. apply (view_run_sound reg _ _ _ Hsteady Hreg) in Hv.
    subst v. exact H. }
  repeat match goal with
         | H : Interleave _ _ _ |- _ => inversion H; subst; clear H
         end;
    (eapply Hfinish;
     [menu_compute; rewrite Hacc; menu_compute; rewrite ?Hn0; menu_compute;
      reflexivity|]);
    cbn [v_entries v_globals v_suspended lastMenuInstanceId windowMenuIds];
    rewrite ?Hold, ?without_app, ?Hold, ?Hnew, ?Hmine, ?without_self, ?app_nil_r;
    auto.
Qed.

End HideRace.

(** ** Instance ids *)

Section InstanceIds.

Import Menus.

Lemma take_windows_tokens (m : Z) (l rest : list Suspended) (tab : Tab.t) :
  take_windows m l = Some (tab, rest) ->
  Permutation (map token l) (m :: map token rest).
Proof.
  revert rest. induction l as [|s l IH]; intros rest; simpl; [discriminate|].
  destruct s as [m' tab'|m' c]; simpl.
  - destruct (Z.eqb_spec m' m) as [->|_]; [now intros [= _ <-]|].
    destruct (take_windows m l) as [[t r]|]; [|discriminate].
    intros [= <- <-]. simpl. rewrite (IH r eq_refl). apply perm_swap.
  - destruct (take_windows m l) as [[t r]|]; [|discriminate].
    intros [= <- <-]. simpl. rewrite (IH r eq_refl). apply perm_swap.
Qed.

Lemma take_menus_tokens (m : Z) (l rest : list Suspended) (c : list (MenuId * bool)) :
  take_menus m l = Some (c, rest) ->
  Permutation (map token l) (m :: map token rest).
Proof.
  revert rest. induction l as [|s l IH]; intros rest; simpl; [discriminate|].
  destruct s as [m' tab'|m' c']; simpl.
  - destruct (take_menus m l) as [[c0 r]|]; [|discriminate].
    intros [= <- <-]. simpl. rewrite (IH r eq_refl). apply perm_swap.
  - destruct (Z.eqb_spec m' m) as [->|_]; [now intros [= _ <-]|].
    destruct (take_menus m l) as [[c0 r]|]; [|discriminate].
    intros [= <- <-]. simpl. rewrite (IH r eq_refl). apply perm_swap.
Qed.

Lemma step_numbered (st : State) (e : Event) : numbered st -> numbered (step st e).
Proof.
  intros [Hnext Hlast Hpending Hdistinct].
  destruct e as [tab|m targetWindows|m|]; simpl.
  - constructor; simpl.
    + lia.
    + right. lia.
    + rewrite map_app. apply Forall_app. split.
      * eapply Forall_impl; [|exact Hpending]. intros a Ha. cbv beta in *. lia.
      * repeat constructor; simpl; lia.
    + rewrite map_app. simpl.
      apply (Permutation_NoDup (Permutation_cons_append _ _)).
      constructor; [|exact Hdistinct].
      intros Hin. rewrite Forall_forall in Hpending.
      specialize (Hpending _ Hin). cbv beta in Hpending. lia.
  - destruct (take_windows m (suspended st)) as [[tab rest]|] eqn:Etake;
      [|now constructor].
    apply take_windows_tokens in Etake.
    destruct (shown_build tab targetWindows (host st)) as [creatingMenus h].
    assert (Hperm : Permutation (map token (suspended st))
                      (map token (rest ++ [AwaitingMenus m creatingMenus]))).
    { rewrite map_app. simpl. rewrite Etake. apply Permutation_cons_append. }
    constructor; simpl; auto.
    + eapply Permutation_Forall; [exact Hperm|exact Hpending].
    + eapply Permutation_NoDup; [exact Hperm|exact Hdistinct].
  - destruct (take_menus m (suspended st)) as [[creatingMenus rest]|] eqn:Etake;
      [|now constructor].
    apply take_menus_tokens in Etake.
    pose proof (Permutation_Forall Etake Hpending) as Hp.
    pose proof (Permutation_NoDup Etake Hdistinct) as Hd.
    inversion Hp; subst. inversion Hd; subst.
    unfold shown_finish. destruct (settled_ids creatingMenus) as [ids|];
      [|now constructor].
    destruct (negb (m =? lastMenuInstanceId (globals st))); now constructor.
  - constructor; simpl; auto.
Qed.

(** X24.  Instance ids are never reused.  In every state the handlers can
    reach, the next id is positive, [lastMenuInstanceId] is [0] or the id of
    the newest invocation, and the invocations still waiting for the host
    hold ids that differ from one another and have all been handed out. *)
Theorem instance_ids_stay_distinct (events : list Event) (st : State) :
  numbered st -> numbered (run events st).
Proof.
  revert st. induction events as [|e events IH]; intros st Hst; [exact Hst|].
  unfold run. simpl. apply IH. now apply step_numbered.
Qed.

End InstanceIds.

Lemma instance_ids_stay_distinct_witness :
  let tab := Tab.mk 5 1 0 true true false "firefox-default" "https://example.org/" "" in
  numbered (Menus.run [Menus.MenuShown tab; Menus.MenuHidden; Menus.MenuShown tab;
                       Menus.WindowsAnswered 2 [titled_window 1 false "one"]]
                      started).
Proof.
  cbv zeta. apply instance_ids_stay_distinct.
  constructor; simpl; [reflexivity|now left|constructor|constructor].
Defined.

(** ** A session with a refused creation *)

Section Refusal.

Import Menus.

Lemma entries_kept_numbers (reg : string -> bool) (c : Z) (ps : list CreateProperties) :
  Forall dynamic ps ->
  Forall (fun i => has_parent i = true
                   /\ exists n, item_id i = Issued n /\ c < n)
         (entries_kept reg c ps).
Proof.
  intros H. revert c. induction H as [|p ps [_ [parent Hp]] _ IH]; intros c; simpl;
    [constructor|].
  apply Forall_app. split.
  - destruct (accepts_by reg p); constructor; [|constructor].
    split; [unfold has_parent; simpl; now rewrite Hp|].
    exists (c + 1). simpl. split; [reflexivity|lia].
  - eapply Forall_impl; [|apply IH]. intros i [H1 [n [E Hn]]].
    split; [exact H1|]. exists n. split; [exact E|lia].
Qed.

Lemma create_all_partial (reg : string -> bool) (ps : list CreateProperties) (h : Host) :
  Forall dynamic ps ->
  (forall name, registered name h = reg name) ->
  snd (create_all ps h)
  = mkHost (items h ++ entries_kept reg (counter h) ps)
           (counter h + Z.of_nat (length ps)) (refreshes h)
  /\ forallb snd (fst (create_all ps h)) = forallb (accepts_by reg) ps.
Proof.
  intros Hdyn. revert h.
  induction Hdyn as [|p ps [Hid [parent Hp]] _ IH]; intros h Hreg.
  - simpl. rewrite app_nil_r, Z.add_0_r. now destruct h.
  - cbn [create_all entries_kept forallb]. unfold host_create. rewrite Hid.
    assert (Hacc : accepts h p = accepts_by reg p)
      by (unfold accepts, accepts_by; now rewrite Hp, Hreg).
    rewrite Hacc. destruct (accepts_by reg p).
    + set (h1 := mkHost (items h ++ [item_of (Issued (counter h + 1)) p])
                        (counter h + 1) (refreshes h)).
      assert (Hreg1 : forall name, registered name h1 = reg name).
      { intros name. unfold h1. rewrite registered_app by (repeat constructor).
        rewrite <- Hreg. now destruct h. }
      destruct (IH h1 Hreg1) as [H1 H2].
      destruct (create_all ps h1) as [rs h2]. cbn [fst snd] in *.
      split; [|exact H2]. rewrite H1. unfold h1. cbn [items counter refreshes].
      rewrite <- app_assoc. cbn [app length]. f_equal. lia.
    + set (h1 := mkHost (items h) (counter h + 1) (refreshes h)).
      assert (Hreg1 : forall name, registered name h1 = reg name)
        by (intros name; rewrite <- Hreg; reflexivity).
      destruct (IH h1 Hreg1) as [H1 H2].
      destruct (create_all ps h1) as [rs h2]. cbn [fst snd] in *.
      split; [|reflexivity]. rewrite H1. unfold h1. cbn [items counter refreshes app].
      cbn [length]. f_equal. lia.
Qed.

Lemma kept_without_reopen_parent (reg : string -> bool) (c : Z) (tab : Tab.t)
    (others : list Window.t) :
  reg "move-menu" = true ->
  reg "reopen-menu" = false ->
  map describe
      (entries_kept reg c
         (map (fun w => if same_privacy tab w then move_request w else reopen_request w)
              others))
  = map move_request (filter (same_privacy tab) others).
Proof.
  intros Hmove Hreopen. revert c.
  induction others as [|w l IH]; intros c; [reflexivity|].
  cbn [map entries_kept filter]. destruct (same_privacy tab w).
  - unfold accepts_by at 1. cbn [cp_parentId move_request]. rewrite Hmove.
    cbn [app map]. now rewrite IH.
  - unfold accepts_by at 1. cbn [cp_parentId reopen_request]. rewrite Hreopen.
    cbn [app]. apply IH.
Qed.

Lemma refused_without_reopen_parent (reg : string -> bool) (tab : Tab.t)
    (targetWindows : list Window.t) :
  reg "reopen-menu" = false ->
  0 < reopen_targets tab targetWindows ->
  forallb (accepts_by reg) (expected_requests tab targetWindows) = false.
Proof.
  intros Hreopen. unfold reopen_targets, expected_requests.
  induction (other_windows tab targetWindows) as [|w l IH]; simpl; [lia|].
  destruct (same_privacy tab w); simpl.
  - intros H. rewrite IH by exact H. apply andb_false_r.
  - intros _. unfold accepts_by at 1. simpl. now rewrite Hreopen.
Qed.

(** X25.  On a host that refuses a creation under a parent that is not
    registered: when ["reopen-menu"] is not registered and the window list
    has a window whose privacy mode differs from the tab's, the session
    registers none of the ids it created and does not refresh the menu, so
    hiding the menu removes none of them: the entries it created under
    ["move-menu"], one per window of the tab's privacy mode, are still in
    the submenu after the menu has been hidden. *)
Theorem refused_creation_leaves_entries
    (st0 : State) (tab : Tab.t) (wins : list Window.t) :
  idle st0 ->
  registered "move-menu" (host st0) = true ->
  registered "reopen-menu" (host st0) = false ->
  0 < reopen_targets tab wins ->
  let m := nextMenuInstanceId (globals st0) in
  let st := run [MenuShown tab; WindowsAnswered m wins; MenusSettled m; MenuHidden]
                st0 in
  exists kept,
    submenu_entries (host st)
    = without (windowMenuIds (globals st0)) (submenu_entries (host st0)) ++ kept
    /\ map describe kept
       = map move_request (filter (same_privacy tab) (other_windows tab wins))
    /\ windowMenuIds (globals st) = windowMenuIds (globals st0)
    /\ refreshes (host st) = refreshes (host st0).
Proof.
  intros Hidle Hmove Hreopen Htargets m st.
  pose proof (idle_steady _ Hidle) as [Htop _ _].
  destruct Hidle as [Hsus _ Hwm].
  destruct st0 as [[wm0 last0 n] h0 sus0].
  cbn [globals host suspended windowMenuIds nextMenuInstanceId] in *.
  subst sus0 m st.
  set (reg := fun name => registered name h0).
  assert (Hreg : forall name, registered name h0 = reg name) by reflexivity.
  pose proof (requests_dynamic tab wins) as Hdyn.
  destruct (create_all_partial reg _ h0 Hdyn Hreg) as [Hhost Hsettle].
  destruct (create_all_names _ h0 Hdyn) as (_ & _ & Htop1).
  specialize (Htop1 Htop).
  rewrite (requests_expected tab wins) in Hsettle at 2.
  rewrite (refused_without_reopen_parent reg tab wins Hreopen Htargets) in Hsettle.
  unfold run. cbn [fold_left step globals host suspended nextMenuInstanceId
                   windowMenuIds lastMenuInstanceId app take_windows].
  rewrite Z.eqb_refl. unfold shown_build.
  pose proof (shown_loop_app tab wins [] 0 0) as Hreq.
  destruct (shown_loop tab wins [] 0 0) as [[creating a] b].
  simpl in Hreq. subst creating.
  destruct (create_all (requests tab wins) h0) as [creatingMenus h1].
  cbn [fst snd] in *.
  cbn [globals host suspended app take_menus]. rewrite Z.eqb_refl.
  unfold shown_finish, settled_ids. rewrite Hsettle.
  cbn [onMenuHidden globals host suspended windowMenuIds].
  exists (entries_kept reg (counter h0) (requests tab wins)).
  split; [|split; [|split]].
  - rewrite remove_all_entries.
    rewrite !update_entries by (repeat apply update_top_level; exact Htop1).
    rewrite Hhost. unfold submenu_entries at 1. cbn [items].
    rewrite filter_app, without_app. f_equal.
    pose proof (entries_kept_numbers reg (counter h0) _ Hdyn) as Hkept.
    rewrite (forallb_filter_id _ (entries_kept reg (counter h0) (requests tab wins))).
    + apply without_unlisted. eapply Forall_impl; [|exact Hkept].
      intros i [_ [k [E Hk]]]. unfold listed. rewrite E.
      destruct (existsb _ _) eqn:Ex; [|reflexivity]. exfalso.
      apply existsb_exists in Ex. destruct Ex as [id [Hid Eid]].
      apply menuid_eqb_eq in Eid. subst id.
      rewrite Forall_forall in Hwm. specialize (Hwm _ Hid). simpl in Hwm. lia.
    + apply forallb_forall. rewrite Forall_forall in Hkept.
      intros i Hi. destruct (Hkept i Hi) as [Hp _]. exact Hp.
  - rewrite requests_expected. unfold expected_requests.
    now apply kept_without_reopen_parent.
  - reflexivity.
  - rewrite remove_all_items. cbn [refreshes host_update]. now rewrite Hhost.
Qed.

End Refusal.

Lemma hidden_session_leaves_no_entry_witness :
  let tab := Tab.mk 5 1 0 true true false "firefox-default" "https://example.org/" "" in
  let snapshot := [titled_window 1 false "one"; titled_window 3 false "three"] in
  let st := Menus.run [Menus.MenuShown tab; Menus.WindowsAnswered 1 snapshot;
                       Menus.MenuHidden; Menus.MenusSettled 1] started in
  Menus.submenu_entries (Menus.host st) = []
  /\ Menus.lastMenuInstanceId (Menus.globals st) = 0
  /\ Menus.suspended st = [].
Proof.
  cbv zeta.
  assert (Hidle : idle started).
  { constructor; [reflexivity| |constructor].
    repeat constructor. }
  assert (Hnext : 0 < Menus.nextMenuInstanceId (Menus.globals started))
    by reflexivity.
  assert (Hclosed : Forall (fun i => listed (Menus.windowMenuIds (Menus.globals started)) i
                                     = false)
                           (Menus.submenu_entries (Menus.host started)))
    by constructor.
  exact (hidden_session_leaves_no_entry started
           (Tab.mk 5 1 0 true true false "firefox-default" "https://example.org/" "")
           [titled_window 1 false "one"; titled_window 3 false "three"]
           [Menus.WindowsAnswered 1 [titled_window 1 false "one";
                                     titled_window 3 false "three"];
            Menus.MenuHidden; Menus.MenusSettled 1]
           Hidle Hnext Hclosed eq_refl
           (interleave_left _ _ _ _
              (interleave_right _ _ _ _
                 (interleave_left _ _ _ _ interleave_nil)))).
Defined.

Lemma refused_creation_leaves_entries_witness :
  let tab := Tab.mk 5 1 0 true true false "firefox-default" "https://example.org/" "" in
  let snapshot := [titled_window 1 false "one"; titled_window 2 true "two";
                   titled_window 3 false "three"] in
  let st := Menus.run [Menus.MenuShown tab; Menus.WindowsAnswered 1 snapshot;
                       Menus.MenusSettled 1; Menus.MenuHidden] started in
  exists kept,
    Menus.submenu_entries (Menus.host st) = kept
    /\ map describe kept = [move_request (titled_window 3 false "three")]
    /\ Menus.windowMenuIds (Menus.globals st) = []
    /\ Menus.refreshes (Menus.host st) = 0%nat.
Proof.
  cbv zeta.
  assert (Hidle : idle started).
  { constructor; [reflexivity| |constructor].
    repeat constructor. }
  assert (Htargets :
    0 < reopen_targets
          (Tab.mk 5 1 0 true true false "firefox-default" "https://example.org/" "")
          [titled_window 1 false "one"; titled_window 2 true "two";
           titled_window 3 false "three"]) by reflexivity.
  exact (refused_creation_leaves_entries started
           (Tab.mk 5 1 0 true true false "firefox-default" "https://example.org/" "")
           [titled_window 1 false "one"; titled_window 2 true "two";
            titled_window 3 false "three"]
           Hidle eq_refl eq_refl Htargets).
Defined.
